(** * Interview relay backend: admission control, credential cache,
      relay pump, instruction assembly and latency telemetry.

    A shallow embedding of [Backend/main.py] and [Backend/database.py].
    Python integers are [Z]; Python strings are UTF-8 byte strings
    ([string]); dictionaries are finite maps [gmap string _]; instants of
    [datetime] are microsecond counts in [Z]; code that can raise returns
    a [result]. *)

From Stdlib Require Import ZArith Ascii String List Lia Bool SpecFloat.
From Stdlib Require Import Numbers.DecimalString.
From stdpp Require Import base option gmap strings list.

Set Warnings "-register-all".
Local Open Scope string_scope.
Local Open Scope list_scope.
Local Open Scope Z_scope.

(* ===================================================================== *)
(** ** Outcomes of code that may raise                                    *)
(* ===================================================================== *)

(** The exception classes the handlers tell apart: [WebSocketDisconnect]
    has an except clause of its own, [OtherError] stands for every other
    subclass of [Exception], and [Cancelled] for [asyncio.CancelledError],
    a [BaseException] that no [except Exception] clause catches. *)
Inductive exn : Type :=
| WebSocketDisconnect
| OtherError
| Cancelled.

Inductive result (A : Type) : Type :=
| Ok (a : A)
| Raise (e : exn).
Arguments Ok {A} a.
Arguments Raise {A} e.

#[global] Instance result_ret : MRet result := fun A a => Ok a.

#[global] Instance result_bind : MBind result := fun A B k r =>
  match r with
  | Ok a => k a
  | Raise e => Raise e
  end.

#[global] Instance result_fmap : FMap result := fun A B f r =>
  match r with
  | Ok a => Ok (f a)
  | Raise e => Raise e
  end.

(* ===================================================================== *)
(** ** ConnectionManager (main.py, lines 204-260)                         *)
(* ===================================================================== *)

Inductive action : Type :=
| connected
| disconnected.

(** One dictionary of [connection_history]; ['total'] is only present in
    the entries written by [add_connection]. *)
Record history_entry : Type := {
  h_timestamp : Z;
  h_action : action;
  h_active : Z;
  h_total : option Z
}.

Record ConnectionManager : Type := {
  active_connections : Z;
  total_connections : Z;
  connection_history : list history_entry;
  token_cache : option string;
  token_expiry : option Z;
  start_time : Z
}.

(** [ConnectionManager.__init__] at instant [now]. *)
Definition new_manager (now : Z) : ConnectionManager :=
  {| active_connections := 0;
     total_connections := 0;
     connection_history := [];
     token_cache := None;
     token_expiry := None;
     start_time := now |}.

(** [deque(maxlen=100).append]: a full deque drops its oldest entry. *)
Definition history_maxlen : nat := 100.

Definition deque_append {A : Type} (maxlen : nat) (q : list A) (x : A) : list A :=
  let q' := q ++ [x] in
  if Nat.ltb maxlen (length q') then tail q' else q'.

Section Admission.

(** [MAX_CONCURRENT_CONNECTIONS] is read from the environment. *)
Variable MAX_CONCURRENT_CONNECTIONS : Z.

Definition can_accept_connection (m : ConnectionManager) : bool :=
  active_connections m <? MAX_CONCURRENT_CONNECTIONS.

Definition add_connection (now : Z) (m : ConnectionManager) : ConnectionManager :=
  let active := active_connections m + 1 in
  let total := total_connections m + 1 in
  {| active_connections := active;
     total_connections := total;
     connection_history :=
       deque_append history_maxlen (connection_history m)
         {| h_timestamp := now; h_action := connected;
            h_active := active; h_total := Some total |};
     token_cache := token_cache m;
     token_expiry := token_expiry m;
     start_time := start_time m |}.

Definition remove_connection (now : Z) (m : ConnectionManager) : ConnectionManager :=
  let active := Z.max 0 (active_connections m - 1) in
  {| active_connections := active;
     total_connections := total_connections m;
     connection_history :=
       deque_append history_maxlen (connection_history m)
         {| h_timestamp := now; h_action := disconnected;
            h_active := active; h_total := None |};
     token_cache := token_cache m;
     token_expiry := token_expiry m;
     start_time := start_time m |}.

End Admission.

(* ===================================================================== *)
(** ** Credential cache (main.py, lines 134-163 and 234-247)              *)
(* ===================================================================== *)

(** The identity provider behind [get_access_token]: the answer to the
    [n]-th call ([None] when no credentials are configured or the refresh
    raises, which [get_access_token] turns into [None]) and the number of
    calls made so far. *)
Record provider : Type := {
  answers : nat -> option string;
  calls : nat
}.

Definition get_access_token (p : provider) : option string * provider :=
  (answers p (calls p), {| answers := answers p; calls := S (calls p) |}).

(** Truth value of a Python [str] or [None]. *)
Definition truthy_token (t : option string) : bool :=
  match t with
  | Some s => negb (String.eqb s EmptyString)
  | None => false
  end.

(** [timedelta(minutes=n)] in microseconds. *)
Definition minutes (n : Z) : Z := n * 60 * 1000000.

Definition get_cached_token (now : Z) (m : ConnectionManager) (p : provider)
  : option string * ConnectionManager * provider :=
  let hit :=
    truthy_token (token_cache m) &&
    match token_expiry m with
    | Some expiry => now <? expiry
    | None => false
    end in
  if hit then (token_cache m, m, p)
  else
    let '(token, p') := get_access_token p in
    if truthy_token token then
      (token,
       {| active_connections := active_connections m;
          total_connections := total_connections m;
          connection_history := connection_history m;
          token_cache := token;
          token_expiry := Some (now + minutes 50);
          start_time := start_time m |},
       p')
    else (token, m, p').

(** The cache holds a token that is still good at instant [now]. *)
Definition cache_fresh (now : Z) (m : ConnectionManager) : Prop :=
  exists t e, token_cache m = Some t /\ t <> EmptyString
              /\ token_expiry m = Some e /\ now < e.

(* ===================================================================== *)
(** ** Python values held by configurations and protocol messages         *)
(* ===================================================================== *)

(** What [json.loads] and the MongoDB driver hand to the code: [None],
    booleans, integers, floats, strings, lists and dictionaries. *)
Inductive pyval : Type :=
| PNone
| PBool (b : bool)
| PInt (z : Z)
| PFloat (f : spec_float)
| PStr (s : string)
| PList (l : list pyval)
| PDict (d : gmap string pyval).

Definition nl : string := String "010"%char EmptyString.
Definition dq : string := String "034"%char EmptyString.

(** [bool(v)]. *)
Definition truthy (v : pyval) : bool :=
  match v with
  | PNone => false
  | PBool b => b
  | PInt z => negb (z =? 0)
  | PFloat (S754_zero _) => false
  | PFloat _ => true
  | PStr s => negb (String.eqb s EmptyString)
  | PList l => negb (Nat.eqb (length l) 0)
  | PDict d => negb (Nat.eqb (size d) 0)
  end.

(** [v == s] for a string literal [s]. *)
Definition py_eq_str (v : pyval) (s : string) : bool :=
  match v with
  | PStr t => String.eqb t s
  | _ => false
  end.

(** [needle in hay] on strings. *)
Fixpoint contains (needle hay : string) : bool :=
  String.prefix needle hay ||
  match hay with
  | EmptyString => false
  | String _ rest => contains needle rest
  end.

(** [d.get(k, dflt)] on a dictionary. *)
Definition dict_get (d : gmap string pyval) (k : string) (dflt : pyval) : pyval :=
  default dflt (d !! k).

(** [v.get(k, dflt)] on any value: only a dictionary has the method. *)
Definition py_get (v : pyval) (k : string) (dflt : pyval) : result pyval :=
  match v with
  | PDict d => Ok (dict_get d k dflt)
  | _ => Raise OtherError
  end.

(** [k in v]: key of a dictionary, element of a list, substring of a
    string; a [TypeError] on anything else. *)
Definition py_in (k : string) (v : pyval) : result bool :=
  match v with
  | PDict d => Ok (bool_decide (is_Some (d !! k)))
  | PList l => Ok (existsb (fun x => py_eq_str x k) l)
  | PStr s => Ok (contains k s)
  | _ => Raise OtherError
  end.

(** [v[k]] for a string key: only a dictionary can be indexed by one, and
    the key has to be there. *)
Definition py_item (v : pyval) (k : string) : result pyval :=
  match v with
  | PDict d =>
      match d !! k with
      | Some x => Ok x
      | None => Raise OtherError
      end
  | _ => Raise OtherError
  end.

(** [str(z)] of an integer. *)
Definition str_of_int (z : Z) : string := NilEmpty.string_of_int (Z.to_int z).

Section Formatting.

(** [str(v)] of a float, a list or a dictionary: Python's [repr]
    algorithm for these is left open; everything proved below holds
    whatever text it produces. *)
Variable repr_other : pyval -> string.

(** The text an f-string puts in place of [{v}]. *)
Definition py_str (v : pyval) : string :=
  match v with
  | PNone => "None"
  | PBool true => "True"
  | PBool false => "False"
  | PInt z => str_of_int z
  | PStr s => s
  | _ => repr_other v
  end.

(** [a + v + b] for string literals [a] and [b]: a [TypeError] unless
    [v] is a string. *)
Definition str_concat3 (a : string) (v : pyval) (b : string) : result string :=
  match v with
  | PStr s => Ok (a +:+ s +:+ b)
  | _ => Raise OtherError
  end.

(** [sep.join(l)]. *)
Fixpoint join (sep : string) (l : list string) : string :=
  match l with
  | [] => EmptyString
  | [x] => x
  | x :: rest => x +:+ sep +:+ join sep rest
  end.

(* =================================================================== *)
(** ** Instruction assembly (main.py, lines 452-461 and 572-681)        *)
(* =================================================================== *)

(** The header of the language value casual-hindi (lines 591-605). *)
Definition lang_casual_hindi : string :=
  "# ⚠️ CRITICAL MANDATORY LANGUAGE RULE — YOU MUST FOLLOW THIS:" +:+ nl +:+
  "YOU MUST SPEAK ONLY IN CASUAL HINDI (Hinglish). DO NOT SPEAK IN ENGLISH." +:+ nl +:+
  "This is the #1 most important rule. Every single sentence you say MUST be in Hindi/Hinglish." +:+ nl +:+
  nl +:+
  "## Hindi Language Rules:" +:+ nl +:+
  "- ALWAYS speak in casual, everyday Hindi (Hinglish) — NOT formal/shudh Hindi" +:+ nl +:+
  "- DO NOT use English for sentences. Only use English for technical terms like 'array', 'database', 'API', 'system design', etc." +:+ nl +:+
  "- Your greeting MUST be in Hindi, e.g., " +:+ dq +:+ "Namaste! Main aapka interview lunga aaj." +:+ dq +:+ nl +:+
  "- Example questions: " +:+ dq +:+ "Acha, toh mujhe batao ki tumne apne last project mein kya kya kiya?" +:+ dq +:+ nl +:+
  "- Example follow-up: " +:+ dq +:+ "Hmm interesting, toh usme kaunsa tech stack use kiya tha?" +:+ dq +:+ nl +:+
  "- Be natural and friendly, jaise ek colleague se baat kar rahe ho chai pe" +:+ nl +:+
  "- Even if the candidate replies in English, YOU MUST continue speaking in Hindi/Hinglish" +:+ nl +:+
  "- NEVER switch to English. ALWAYS stay in Hindi/Hinglish no matter what." +:+ nl +:+
  nl +:+
  "REMEMBER: SPEAK IN HINDI. NOT ENGLISH. THIS IS NON-NEGOTIABLE.".

(** The header of every other language value (lines 607-610). *)
Definition lang_indian_english : string :=
  "# 🗣️ LANGUAGE: INDIAN ENGLISH" +:+ nl +:+
  "- Speak in clear, professional Indian English" +:+ nl +:+
  "- Use natural Indian expressions and phrasing" +:+ nl +:+
  "- Be professional but warm and approachable".

Definition exp_0_1 : string :=
  "Ask beginner-friendly questions. Focus on fundamentals, basic concepts, and willingness to learn.".

Definition exp_1_3 : string :=
  "Ask intermediate questions. Focus on practical experience, problem-solving, and coding skills.".

Definition exp_3_5 : string :=
  "Ask mid-level questions. Include system design basics, architecture decisions, and leadership potential.".

Definition exp_5_10 : string :=
  "Ask senior-level questions. Focus on system design, architecture, mentoring, and strategic thinking.".

Definition exp_10_plus : string :=
  "Ask principal/lead-level questions. Focus on large-scale system design, organizational impact, and technical vision.".

Definition rule_multiple_people : string :=
  "1. **Multiple People Detected**: If you see more than ONE person in the frame, warn in the interview language: " +:+ dq +:+ "I notice there might be someone else in the room. Please ensure you are alone." +:+ dq.

Definition rule_phone : string :=
  "2. **Mobile Phone Usage**: If you see a phone, warn in the interview language: " +:+ dq +:+ "Please keep your phone away during the interview." +:+ dq.

Definition rule_looking_away : string :=
  "3. **Looking Away**: If candidate frequently looks away, warn in the interview language: " +:+ dq +:+ "Please focus on the interview and maintain eye contact." +:+ dq.

Definition rule_tab_switch : string :=
  "4. **Tab Switching**: If distracted, warn in the interview language: " +:+ dq +:+ "Please give your full attention to the interview." +:+ dq.

(** The f-string of lines 640-680, cut at its section headings. *)
Definition business_context (company_name job_role industry country experience candidate_line : string) : string :=
  nl +:+
  nl +:+
  "You are conducting a real-time technical interview for " +:+ company_name +:+ " for the position of " +:+ job_role +:+ "." +:+ nl +:+
  "Industry: " +:+ industry +:+ " | Country: " +:+ country +:+ " | Expected Experience: " +:+ experience +:+ " years" +:+ nl +:+
  nl +:+
  "You can hear and also see the candidate through audio and video." +:+ nl +:+
  candidate_line.

Definition difficulty_guidance (exp_instruction : string) : string :=
  nl +:+
  nl +:+
  "# 🎯 EXPERIENCE-BASED DIFFICULTY:" +:+ nl +:+
  exp_instruction.

Definition proctoring_heading : string :=
  nl +:+
  nl +:+
  "# 🔴 PROCTORING & MONITORING:" +:+ nl.

Definition silence_handling (silence_warning2 duration_minutes : string) : string :=
  nl +:+
  nl +:+
  "# ⏱️ SILENT USER DETECTION:" +:+ nl +:+
  "The system will send you messages about candidate silence. Respond appropriately:" +:+ nl +:+
  "- If you receive " +:+ dq +:+ "[SYSTEM] I am waiting for your response" +:+ dq +:+ ": " +:+ nl +:+
  "  Say: " +:+ dq +:+ "I am waiting for your response." +:+ dq +:+ nl +:+
  "- If you receive " +:+ dq +:+ "[SYSTEM] Candidate silent for " +:+ silence_warning2 +:+ " seconds - FINAL WARNING" +:+ dq +:+ ":" +:+ nl +:+
  "  Say firmly: " +:+ dq +:+ "If you do not respond, we will end the interview shortly." +:+ dq +:+ nl +:+
  "- If you receive " +:+ dq +:+ "[SYSTEM] Ending interview due to no response" +:+ dq +:+ ":" +:+ nl +:+
  "  Say: " +:+ dq +:+ "Since there has been no response, we are ending this interview session now." +:+ dq +:+ nl +:+
  "- If you receive " +:+ dq +:+ "[SYSTEM] Interview time limit (" +:+ duration_minutes +:+ " minutes) reached" +:+ dq +:+ ":" +:+ nl +:+
  "  Say: " +:+ dq +:+ "We have reached the " +:+ duration_minutes +:+ "-minute time limit. The interview is now complete." +:+ dq.

Definition closing_structure (max_questions : string) : string :=
  nl +:+
  nl +:+
  "# 🔄 IMPORTANT:" +:+ nl +:+
  "If the candidate speaks after any warning, IMMEDIATELY continue the interview normally." +:+ nl +:+
  nl +:+
  "# Interview Structure:" +:+ nl +:+
  "1. Greet the candidate appropriately" +:+ nl +:+
  "2. Ask candidate to introduce themselves" +:+ nl +:+
  "3. Ask up to " +:+ max_questions +:+ " questions appropriate for their experience level" +:+ nl +:+
  "4. Close the interview professionally" +:+ nl +:+
  nl +:+
  "# Communication Rules:" +:+ nl +:+
  "- Be professional but friendly" +:+ nl +:+
  "- Listen carefully and ask follow-up questions" +:+ nl +:+
  "- Keep responses concise" +:+ nl +:+
  "- Encourage good answers" +:+ nl +:+
  "- Use natural, conversational language" +:+ nl.

Definition proctoring_disabled : string :=
  "Proctoring is disabled for this interview.".

(** Lines 589-610. *)
Definition lang_instruction_of (language : pyval) : string :=
  if py_eq_str language "casual-hindi" then lang_casual_hindi
  else lang_indian_english.

(** Lines 612-623. *)
Definition exp_instruction_of (experience : pyval) : string :=
  if py_eq_str experience "0-1" then exp_0_1
  else if py_eq_str experience "1-3" then exp_1_3
  else if py_eq_str experience "3-5" then exp_3_5
  else if py_eq_str experience "5-10" then exp_5_10
  else if py_eq_str experience "10+" then exp_10_plus
  else EmptyString.

(** One [if proctoring.get(flag, True): rules.append(rule)]. *)
Definition append_rule (proctoring : gmap string pyval) (flag rule : string)
    (rules : list string) : list string :=
  if truthy (dict_get proctoring flag (PBool true)) then rules ++ [rule]
  else rules.

(** Lines 625-637: the text of [proctoring_rules]. *)
Definition proctoring_rules_of (proctoring : gmap string pyval) : string :=
  if truthy (dict_get proctoring "enabled" (PBool true)) then
    let rules := [] in
    let rules := append_rule proctoring "detectMultiplePeople" rule_multiple_people rules in
    let rules := append_rule proctoring "detectPhone" rule_phone rules in
    let rules := append_rule proctoring "detectLookingAway" rule_looking_away rules in
    let rules := append_rule proctoring "detectTabSwitch" rule_tab_switch rules in
    join nl rules
  else EmptyString.

(** Line 652: [proctoring_rules if proctoring_rules else "..."]. *)
Definition proctoring_section_of (proctoring_rules : string) : string :=
  if String.eqb proctoring_rules EmptyString then proctoring_disabled
  else proctoring_rules.

(** Line 646. *)
Definition candidate_line_of (candidate_name : pyval) : result string :=
  if truthy candidate_name
  then str_concat3 "The candidate's name is " candidate_name "."
  else Ok EmptyString.

(** The whole f-string: the six parts in their fixed order. *)
Definition assemble (lang_instruction business difficulty section silence closing : string)
  : string :=
  lang_instruction +:+ business +:+ difficulty +:+ proctoring_heading +:+ section
    +:+ silence +:+ closing.

Definition generate_dynamic_prompt (config : gmap string pyval)
    (ai_settings proctoring : pyval) : result string :=
  let company_name := dict_get config "companyName" (PStr "the company") in
  let job_role := dict_get config "jobRole" (PStr "Software Engineer") in
  let candidate_name := dict_get config "candidateName" (PStr EmptyString) in
  let language := dict_get config "language" (PStr "indian-english") in
  let country := dict_get config "country" (PStr "India") in
  let industry := dict_get config "industryType" (PStr "Information Technology") in
  let experience := dict_get config "yearsOfExperience" (PStr "1-3") in
  let duration_minutes := dict_get config "durationMinutes" (PInt 30) in
  _ ← py_get ai_settings "silenceWarning1Seconds" (PInt 35);
  silence_warning2 ← py_get ai_settings "silenceWarning2Seconds" (PInt 50);
  _ ← py_get ai_settings "silenceEndSeconds" (PInt 60);
  max_questions ← py_get ai_settings "maxQuestions" (PInt 10);
  let lang_instruction := lang_instruction_of language in
  let exp_instruction := exp_instruction_of experience in
  proctoring_rules ←
    match proctoring with
    | PDict p => Ok (proctoring_rules_of p)
    | _ => Raise OtherError
    end;
  candidate_line ← candidate_line_of candidate_name;
  Ok (assemble lang_instruction
        (business_context (py_str company_name) (py_str job_role) (py_str industry)
           (py_str country) (py_str experience) candidate_line)
        (difficulty_guidance exp_instruction)
        (proctoring_section_of proctoring_rules)
        (silence_handling (py_str silence_warning2) (py_str duration_minutes))
        (closing_structure (py_str max_questions))).

(** Lines 427-428 and 452-461 of [websocket_interview]: the instruction
    sent upstream is the stored [systemPrompt] when that is truthy, and
    the generated text otherwise. *)
Definition system_prompt_of (config : gmap string pyval) : result pyval :=
  let ai_settings := dict_get config "aiSettings" (PDict ∅) in
  let proctoring := dict_get config "proctoring" (PDict ∅) in
  let custom_prompt := dict_get config "systemPrompt" PNone in
  if truthy custom_prompt then Ok custom_prompt
  else PStr <$> generate_dynamic_prompt config ai_settings proctoring.

End Formatting.

(** The inputs [generate_dynamic_prompt] is written for: the AI settings
    are a dictionary, and the candidate name is a string when it is not
    empty or absent. *)
Definition well_typed (config : gmap string pyval) (ai_settings : pyval) : Prop :=
  (exists d, ai_settings = PDict d)
  /\ (truthy (dict_get config "candidateName" (PStr EmptyString)) = false
      \/ exists s, config !! "candidateName" = Some (PStr s)).

(** *** Sample configurations *)

(** Proctoring switched on with every detector off, and proctoring
    switched off. *)
Definition detectors_off : gmap string pyval :=
  <["enabled" := PBool true]>
    (<["detectMultiplePeople" := PBool false]>
       (<["detectPhone" := PBool false]>
          (<["detectLookingAway" := PBool false]>
             (<["detectTabSwitch" := PBool false]> ∅)))).

Definition proctoring_off : gmap string pyval := <["enabled" := PBool false]> ∅.

(** The configuration of the scenario of the specification: a language
    value, and proctoring switched off. *)
Definition scenario_config (language : string) : gmap string pyval :=
  <["language" := PStr language]> (<["proctoring" := PDict proctoring_off]> ∅).

(* ===================================================================== *)
(** ** The upstream-to-client pump (main.py, lines 292-338)               *)
(* ===================================================================== *)

(** What [server2client] hands to the logger. *)
Inductive log_event : Type :=
| DebugHandleUpdated
| WarnGoAway (time_left : pyval) (handle_available : bool)
| DebugAISpeaking
| DebugAISaid (text : pyval)
| DebugUserSaid (text : pyval)
| DebugGenerationComplete
| DebugSetupComplete
| ErrorServer2Client.

(** A message of the upstream connection. A binary frame carries its
    bytes and what [json.loads(message.decode('utf-8'))] makes of them
    ([None] when the decoding or the parsing raises); a text frame arrives
    as a [str], which has no [decode] method. *)
Inductive frame : Type :=
| BinaryFrame (payload : string) (parsed : option pyval)
| TextFrame (text : string).

(** A message together with what the pump meets at the moment it wants
    to forward it: whether the client socket is open, and whether the
    timeout of [relay_messages] (lines 342-349) cancels the pump while the
    send is awaited. *)
Record arrival : Type := {
  a_frame : frame;
  a_client_open : bool;
  a_timed_out : bool
}.

(** How the upstream iteration ends: a normal close ends the loop, an
    abnormal one raises out of it, and the timeout cancels the pump while
    it waits for the next message. *)
Inductive closing : Type :=
| closed_ok
| closed_error
| closed_cancelled.

(** The variables of [relay_messages] that the pump reads and writes, and
    its observable effects. *)
Record pump : Type := {
  session_handle : pyval;
  msg_count : Z;
  forwarded : list string;
  logged : list log_event
}.

Definition pump_init : pump :=
  {| session_handle := PNone; msg_count := 0; forwarded := []; logged := [] |}.

(** Statements of the loop body: they change the pump and may raise. *)
Definition M (A : Type) : Type := pump -> result A * pump.

#[global] Instance M_ret : MRet M := fun A a st => (Ok a, st).

#[global] Instance M_bind : MBind M := fun A B k c st =>
  match c st with
  | (Ok a, st') => k a st'
  | (Raise e, st') => (Raise e, st')
  end.

Definition lift {A : Type} (r : result A) : M A := fun st => (r, st).

Definition skip : M unit := mret tt.

Definition tick : M unit := fun st =>
  (Ok tt, {| session_handle := session_handle st; msg_count := msg_count st + 1;
             forwarded := forwarded st; logged := logged st |}).

Definition set_handle (h : pyval) : M unit := fun st =>
  (Ok tt, {| session_handle := h; msg_count := msg_count st;
             forwarded := forwarded st; logged := logged st |}).

Definition get_handle : M pyval := fun st => (Ok (session_handle st), st).

Definition emit (ev : log_event) : M unit := fun st =>
  (Ok tt, {| session_handle := session_handle st; msg_count := msg_count st;
             forwarded := forwarded st; logged := logged st ++ [ev] |}).

(** [await target.send_text(text)]: raises when the client is gone, and
    is left with [CancelledError] when the timeout cuts the send. *)
Definition send_text (client_open timed_out : bool) (text : string) : M unit := fun st =>
  if client_open then
    if timed_out then (Raise Cancelled, st)
    else
      (Ok tt, {| session_handle := session_handle st; msg_count := msg_count st;
                 forwarded := forwarded st ++ [text]; logged := logged st |})
  else (Raise OtherError, st).

(** [json.loads(message.decode('utf-8'))]. *)
Definition loads (f : frame) : result pyval :=
  match f with
  | BinaryFrame _ (Some data) => Ok data
  | BinaryFrame _ None => Raise OtherError
  | TextFrame _ => Raise OtherError
  end.

(** [message.decode('utf-8')] for the forwarding. *)
Definition decode (f : frame) : result string :=
  match f with
  | BinaryFrame payload _ => Ok payload
  | TextFrame _ => Raise OtherError
  end.

(** Lines 301-306. *)
Definition handle_resumption (data : pyval) : M unit :=
  has_update ← lift (py_in "sessionResumptionUpdate" data);
  if has_update : bool then
    update ← lift (py_item data "sessionResumptionUpdate");
    resumable ← lift (py_get update "resumable" PNone);
    if truthy resumable then
      new_handle ← lift (py_get update "newHandle" PNone);
      if truthy new_handle then
        h ← lift (py_item update "newHandle");
        _ ← set_handle h;
        emit DebugHandleUpdated
      else skip
    else skip
  else skip.

(** Lines 308-311. *)
Definition handle_go_away (data : pyval) : M unit :=
  has_go_away ← lift (py_in "goAway" data);
  if has_go_away : bool then
    go_away ← lift (py_item data "goAway");
    time_left ← lift (py_get go_away "timeLeft" (PStr "unknown"));
    h ← get_handle;
    emit (WarnGoAway time_left (truthy h))
  else skip.

(** Lines 314-334. *)
Definition log_content (data : pyval) : M unit :=
  has_content ← lift (py_in "serverContent" data);
  if has_content : bool then
    content ← lift (py_item data "serverContent");
    has_turn ← lift (py_in "modelTurn" content);
    _ ← (if has_turn : bool then emit DebugAISpeaking else skip);
    has_output ← lift (py_in "outputTranscription" content);
    _ ← (if has_output : bool then
           output ← lift (py_item content "outputTranscription");
           text ← lift (py_get output "text" (PStr EmptyString));
           emit (DebugAISaid text)
         else skip);
    has_input ← lift (py_in "inputTranscription" content);
    _ ← (if has_input : bool then
           input ← lift (py_item content "inputTranscription");
           text ← lift (py_get input "text" (PStr EmptyString));
           input' ← lift (py_item content "inputTranscription");
           is_final ← lift (py_get input' "isFinal" (PBool false));
           if truthy is_final then emit (DebugUserSaid text) else skip
         else skip);
    has_complete ← lift (py_in "generationComplete" content);
    if has_complete : bool then emit DebugGenerationComplete else skip
  else
    has_setup ← lift (py_in "setupComplete" data);
    if has_setup : bool then emit DebugSetupComplete else skip.

(** The body of the [async for] loop. *)
Definition on_message (a : arrival) : M unit :=
  _ ← tick;
  data ← lift (loads (a_frame a));
  _ ← handle_resumption data;
  _ ← handle_go_away data;
  _ ← log_content data;
  text ← lift (decode (a_frame a));
  send_text (a_client_open a) (a_timed_out a) text.

(** The [except Exception] clause around the loop. *)
Definition log_error (st : pump) : pump :=
  {| session_handle := session_handle st; msg_count := msg_count st;
     forwarded := forwarded st; logged := logged st ++ [ErrorServer2Client] |}.

(** [server2client]: the loop sits inside the [try], so the first
    exception ends it. The clause catches every [Exception]; a
    [CancelledError] is none and leaves the coroutine without a log
    entry. *)
Fixpoint server2client_run (st : pump) (arrivals : list arrival) (ending : closing)
  : result unit * pump :=
  match arrivals with
  | [] =>
      match ending with
      | closed_ok => (Ok tt, st)
      | closed_error => (Ok tt, log_error st)
      | closed_cancelled => (Raise Cancelled, st)
      end
  | a :: rest =>
      match on_message a st with
      | (Ok _, st') => server2client_run st' rest ending
      | (Raise Cancelled, st') => (Raise Cancelled, st')
      | (Raise _, st') => (Ok tt, log_error st')
      end
  end.

(** The variables and effects of the pump when it has ended. *)
Definition server2client_from (st : pump) (arrivals : list arrival) (ending : closing)
  : pump :=
  snd (server2client_run st arrivals ending).

Definition server2client (arrivals : list arrival) (ending : closing) : pump :=
  server2client_from pump_init arrivals ending.

(** The handle a message carries when its [sessionResumptionUpdate] is
    marked resumable and has a new handle. *)
Definition resumable_update (data : pyval) : option pyval :=
  match data with
  | PDict d =>
      match d !! "sessionResumptionUpdate" with
      | Some (PDict update) =>
          if truthy (dict_get update "resumable" PNone) then
            match update !! "newHandle" with
            | Some h => if truthy h then Some h else None
            | None => None
            end
          else None
      | _ => None
      end
  | _ => None
  end.

Definition resumable_handle (f : frame) : option pyval :=
  match f with
  | BinaryFrame _ (Some data) => resumable_update data
  | _ => None
  end.

(** The handle after a message, given the handle before it. *)
Definition next_handle (h : pyval) (a : arrival) : pyval :=
  default h (resumable_handle (a_frame a)).

(** A relation between the pump before and after a statement that holds
    however the statement ends. *)
Definition preserves {A : Type} (R : pump -> pump -> Prop) (c : M A) : Prop :=
  forall st r st', c st = (r, st') -> R st st'.

Definition same_handle (st st' : pump) : Prop :=
  session_handle st' = session_handle st.

Definition same_forwarded (st st' : pump) : Prop :=
  forwarded st' = forwarded st.

(** A field that is an object when it is there. *)
Definition object_if_present (v : option pyval) : bool :=
  match v with
  | None => true
  | Some (PDict _) => true
  | Some _ => false
  end.

(** The shape of the messages of the protocol: a binary frame holding a
    JSON object whose control fields, when present, are objects. *)
Definition well_formed (f : frame) : bool :=
  match f with
  | BinaryFrame _ (Some (PDict d)) =>
      object_if_present (d !! "sessionResumptionUpdate")
      && object_if_present (d !! "goAway")
      && match d !! "serverContent" with
         | None => true
         | Some (PDict content) =>
             object_if_present (content !! "outputTranscription")
             && object_if_present (content !! "inputTranscription")
         | Some _ => false
         end
  | _ => false
  end.

Definition payload_of (f : frame) : string :=
  match f with
  | BinaryFrame payload _ => payload
  | TextFrame text => text
  end.

(** *** Sample traffic *)

Definition on_wire (payload : string) (parsed : option pyval) : arrival :=
  {| a_frame := BinaryFrame payload parsed; a_client_open := true;
     a_timed_out := false |}.

(** Bytes that are not JSON. *)
Definition msg_garbage : arrival := on_wire "<html>502 Bad Gateway</html>" None.

Definition msg_setup_complete : arrival :=
  on_wire ("{" +:+ dq +:+ "setupComplete" +:+ dq +:+ ": {}}")
    (Some (PDict {[ "setupComplete" := PDict ∅ ]})).

Definition msg_resumable_abc : arrival :=
  on_wire ("{" +:+ dq +:+ "sessionResumptionUpdate" +:+ dq +:+ ": {"
             +:+ dq +:+ "resumable" +:+ dq +:+ ": true, "
             +:+ dq +:+ "newHandle" +:+ dq +:+ ": " +:+ dq +:+ "abc" +:+ dq +:+ "}}")
    (Some (PDict {[ "sessionResumptionUpdate" :=
                      PDict (<["resumable" := PBool true]>
                               (<["newHandle" := PStr "abc"]> ∅)) ]})).

Definition msg_go_away : arrival :=
  on_wire ("{" +:+ dq +:+ "goAway" +:+ dq +:+ ": {"
             +:+ dq +:+ "timeLeft" +:+ dq +:+ ": " +:+ dq +:+ "10s" +:+ dq +:+ "}}")
    (Some (PDict {[ "goAway" := PDict {[ "timeLeft" := PStr "10s" ]} ]})).

(** A termination notice whose payload is a bare string. *)
Definition msg_go_away_bare : arrival :=
  on_wire ("{" +:+ dq +:+ "goAway" +:+ dq +:+ ": " +:+ dq +:+ "10s" +:+ dq +:+ "}")
    (Some (PDict {[ "goAway" := PStr "10s" ]})).

(** A statement that cannot raise. *)
Definition succeeds {A : Type} (c : M A) : Prop :=
  forall st, exists a st', c st = (Ok a, st').

(** Traffic that respects the protocol and reaches a connected client:
    the socket is open and the send is not cut by the timeout. *)
Definition deliverable (a : arrival) : Prop :=
  well_formed (a_frame a) = true /\ a_client_open a = true
  /\ a_timed_out a = false.

(* ===================================================================== *)
(** ** True division of integers and [int()] of a float                   *)
(* ===================================================================== *)

(** [averageLatencyMs] is [int(sum(latencies) / len(latencies))]: the
    quotient is the IEEE 754 binary64 number nearest to the exact one
    (ties to even), and [int] drops its fractional part. *)

Definition float_prec : Z := 53.
Definition float_emin : Z := -1074.
Definition float_emax : Z := 1024.

(** Numerator and denominator of [a / (b * 2^e)]. *)
Definition scaled_num (a e : Z) : Z := a * 2 ^ Z.max 0 (- e).
Definition scaled_den (b e : Z) : Z := b * 2 ^ Z.max 0 e.

(** The exponent [e] of the last mantissa bit of [a / b], for [0 < a] and
    [0 < b]: [2^52 <= a / (b * 2^e) < 2^53], but never below the exponent
    of the subnormal numbers. *)
Definition quotient_exponent (a b : Z) : Z :=
  let e0 := Z.log2 a - Z.log2 b - (float_prec - 1) in
  let e1 := if scaled_num a e0 <? 2 ^ (float_prec - 1) * scaled_den b e0
            then e0 - 1 else e0 in
  Z.max e1 float_emin.

(** [a / (b * 2^e)] rounded to the nearest integer, ties to even. *)
Definition round_half_even (n d : Z) : Z :=
  let q := n / d in
  let r := n mod d in
  if 2 * r <? d then q
  else if 2 * r =? d then (if Z.even q then q else q + 1)
  else q + 1.

(** The float [m * 2^e] with sign [s], for an integer [0 <= m <= 2^53]. *)
Definition make_float (s : bool) (m e : Z) : result spec_float :=
  let '(m, e) := if m =? 2 ^ float_prec then (2 ^ (float_prec - 1), e + 1) else (m, e) in
  match m with
  | Z.pos p =>
      if e <=? float_emax - float_prec then Ok (S754_finite s p e)
      else Raise OtherError
  | _ => Ok (S754_zero s)
  end.

(** [a / b] on integers: [ZeroDivisionError] for [b = 0], [OverflowError]
    when the quotient is too large for a float. *)
Definition py_truediv (a b : Z) : result spec_float :=
  if b =? 0 then Raise OtherError
  else
    let s := xorb (a <? 0) (b <? 0) in
    if a =? 0 then Ok (S754_zero s)
    else
      let e := quotient_exponent (Z.abs a) (Z.abs b) in
      let m := round_half_even (scaled_num (Z.abs a) e) (scaled_den (Z.abs b) e) in
      make_float s m e.

(** [int(x)]: truncation toward zero; infinities and NaN raise. *)
Definition py_int (x : spec_float) : result Z :=
  match x with
  | S754_zero _ => Ok 0
  | S754_finite s m e =>
      let magnitude := if 0 <=? e then Z.pos m * 2 ^ e else Z.pos m / 2 ^ (- e) in
      Ok (if s then - magnitude else magnitude)
  | _ => Raise OtherError
  end.

(* ===================================================================== *)
(** ** Sessions and latency telemetry (database.py, lines 316-405)        *)
(* ===================================================================== *)

(** What the driver stores. An integer has to fit in 8 bytes: encoding
    any other raises [OverflowError], before anything is sent to the
    database. An instant is kept to the millisecond. *)
Definition fits_int64 (z : Z) : bool := (- 2 ^ 63 <=? z) && (z <? 2 ^ 63).

Definition bson_int (z : Z) : result Z :=
  if fits_int64 z then Ok z else Raise OtherError.

Definition bson_datetime (instant : Z) : Z := 1000 * (instant / 1000).

Record latency_entry : Type := {
  l_timestamp : Z;
  userEndTime : Z;
  aiStartTime : Z;
  latencyMs : Z
}.

Record network_entry : Type := {
  n_timestamp : Z;
  speedMbps : spec_float;
  quality : string
}.

(** A document of the [interview_sessions] collection, with the fields
    [create_session] gives it. Its [_id] is left out: [get_session]
    projects it away and no other code reads it. *)
Record session : Type := {
  configToken : string;
  sessionId : string;
  startedAt : Z;
  endedAt : option Z;
  latencyLogs : list latency_entry;
  averageLatencyMs : Z;
  maxLatencyMs : Z;
  minLatencyMs : Z;
  networkLogs : list network_entry;
  totalQuestions : Z;
  silenceWarnings : Z;
  proctoringFlags : list pyval
}.

(** The collection, in insertion order. *)
Definition sessions : Type := list session.

Definition has_id (session_id : string) (s : session) : bool :=
  String.eqb (sessionId s) session_id.

(** [find_one({"sessionId": session_id})]: the first match. *)
Definition find_one (session_id : string) (db : sessions) : option session :=
  List.find (has_id session_id) db.

(** [update_one({"sessionId": session_id}, ...)] without upsert: the first
    match is changed, and nothing happens when there is none. *)
Fixpoint update_one (session_id : string) (f : session -> session) (db : sessions)
  : sessions :=
  match db with
  | [] => []
  | s :: rest =>
      if has_id session_id s then f s :: rest
      else s :: update_one session_id f rest
  end.

Definition push_latency (entry : latency_entry) (s : session) : session :=
  {| configToken := configToken s; sessionId := sessionId s;
     startedAt := startedAt s; endedAt := endedAt s;
     latencyLogs := latencyLogs s ++ [entry];
     averageLatencyMs := averageLatencyMs s;
     maxLatencyMs := maxLatencyMs s; minLatencyMs := minLatencyMs s;
     networkLogs := networkLogs s; totalQuestions := totalQuestions s;
     silenceWarnings := silenceWarnings s; proctoringFlags := proctoringFlags s |}.

Definition set_stats (avg mx mn : Z) (s : session) : session :=
  {| configToken := configToken s; sessionId := sessionId s;
     startedAt := startedAt s; endedAt := endedAt s;
     latencyLogs := latencyLogs s;
     averageLatencyMs := avg; maxLatencyMs := mx; minLatencyMs := mn;
     networkLogs := networkLogs s; totalQuestions := totalQuestions s;
     silenceWarnings := silenceWarnings s; proctoringFlags := proctoringFlags s |}.

Definition push_network (entry : network_entry) (s : session) : session :=
  {| configToken := configToken s; sessionId := sessionId s;
     startedAt := startedAt s; endedAt := endedAt s;
     latencyLogs := latencyLogs s;
     averageLatencyMs := averageLatencyMs s;
     maxLatencyMs := maxLatencyMs s; minLatencyMs := minLatencyMs s;
     networkLogs := networkLogs s ++ [entry]; totalQuestions := totalQuestions s;
     silenceWarnings := silenceWarnings s; proctoringFlags := proctoringFlags s |}.

Definition set_ended (now : Z) (s : session) : session :=
  {| configToken := configToken s; sessionId := sessionId s;
     startedAt := startedAt s; endedAt := Some now;
     latencyLogs := latencyLogs s;
     averageLatencyMs := averageLatencyMs s;
     maxLatencyMs := maxLatencyMs s; minLatencyMs := minLatencyMs s;
     networkLogs := networkLogs s; totalQuestions := totalQuestions s;
     silenceWarnings := silenceWarnings s; proctoringFlags := proctoringFlags s |}.

(** What [create_session] returns: the dictionary it built, which
    [insert_one] has given the [_id] of the new document. *)
Record created_session : Type := {
  created_id : string;
  created_document : session
}.

(** The stored document keeps [startedAt] to the millisecond; the
    dictionary returned has the instant as it was taken. [inserted_id] is
    the identifier the driver draws for the document. *)
Definition create_session (now : Z) (inserted_id : string)
    (config_token session_id : string) (db : sessions)
  : created_session * sessions :=
  let session_at (started : Z) :=
    {| configToken := config_token; sessionId := session_id;
       startedAt := started; endedAt := None;
       latencyLogs := [];
       averageLatencyMs := 0; maxLatencyMs := 0; minLatencyMs := 0;
       networkLogs := []; totalQuestions := 0;
       silenceWarnings := 0; proctoringFlags := [] |} in
  ({| created_id := inserted_id; created_document := session_at now |},
   db ++ [session_at (bson_datetime now)]).

(** [sum], [max] and [min] of a list of integers; the last two are only
    called on a list with a first element. *)
Definition py_sum (l : list Z) : Z := fold_left Z.add l 0.
Definition py_max (x : Z) (l : list Z) : Z := fold_left Z.max l x.
Definition py_min (x : Z) (l : list Z) : Z := fold_left Z.min l x.

(** The log entry as the driver encodes it for the [$push] of lines
    351-356. *)
Definition encode_entry (now user_end_time ai_start_time latency_ms : Z)
  : result latency_entry :=
  u ← bson_int user_end_time;
  a ← bson_int ai_start_time;
  l ← bson_int latency_ms;
  Ok {| l_timestamp := bson_datetime now; userEndTime := u; aiStartTime := a;
        latencyMs := l |}.

(** The three aggregates as the driver encodes them for the [$set] of
    lines 364-374. *)
Definition encode_stats (latencies : list Z) (first : Z) (others : list Z)
  : result (Z * Z * Z) :=
  average ← py_truediv (py_sum latencies) (Z.of_nat (length latencies)) ≫= py_int;
  average ← bson_int average;
  mx ← bson_int (py_max first others);
  mn ← bson_int (py_min first others);
  Ok (average, mx, mn).

Definition log_latency (now : Z) (session_id : string) (user_end_time ai_start_time : Z)
    (db : sessions) : result Z * sessions :=
  let latency_ms := ai_start_time - user_end_time in
  match encode_entry now user_end_time ai_start_time latency_ms with
  | Raise e => (Raise e, db)
  | Ok log_entry =>
      let db := update_one session_id (push_latency log_entry) db in
      match find_one session_id db with
      | Some s =>
          let latencies := map latencyMs (latencyLogs s) in
          match latencies with
          | first :: others =>
              match encode_stats latencies first others with
              | Ok (average, mx, mn) =>
                  (Ok latency_ms, update_one session_id (set_stats average mx mn) db)
              | Raise e => (Raise e, db)
              end
          | [] => (Ok latency_ms, db)
          end
      | None => (Ok latency_ms, db)
      end
  end.

Definition log_network_quality (now : Z) (session_id : string) (speed_mbps : spec_float)
    (q : string) (db : sessions) : sessions :=
  update_one session_id
    (push_network {| n_timestamp := bson_datetime now; speedMbps := speed_mbps;
                     quality := q |}) db.

Definition end_session (now : Z) (session_id : string) (db : sessions) : sessions :=
  update_one session_id (set_ended (bson_datetime now)) db.

Definition get_session (session_id : string) (db : sessions) : option session :=
  find_one session_id db.

(** The body of a [LatencyLog] request and the answer of
    [POST /api/latency/log] (config_routes.py, lines 154-166). *)
Record LatencyLog : Type := {
  req_sessionId : string;
  req_userEndTime : Z;
  req_aiStartTime : Z
}.

Record latency_response : Type := {
  resp_latencyMs : Z;
  resp_sessionId : string
}.

Definition log_latency_measurement (now : Z) (latency_data : LatencyLog) (db : sessions)
  : result latency_response * sessions :=
  let '(r, db') := log_latency now (req_sessionId latency_data)
                     (req_userEndTime latency_data) (req_aiStartTime latency_data) db in
  ((fun latency_ms => {| resp_latencyMs := latency_ms;
                         resp_sessionId := req_sessionId latency_data |}) <$> r,
   db').

(** A run of insertions into one session: instant, [user_end_time] and
    [ai_start_time] of each call, in order. *)
Definition insertion : Type := Z * Z * Z.

(** The times of a call and their difference fit in 8 bytes. *)
Definition encodable (user_end_time ai_start_time : Z) : bool :=
  fits_int64 user_end_time && fits_int64 ai_start_time
  && fits_int64 (ai_start_time - user_end_time).

Definition encodable_call (i : insertion) : bool :=
  let '(_, u, a) := i in encodable u a.

Definition latency_of (i : insertion) : Z := let '(_, u, a) := i in a - u.

Fixpoint log_latencies (session_id : string) (calls : list insertion) (db : sessions)
  : sessions :=
  match calls with
  | [] => db
  | (now, u, a) :: rest =>
      log_latencies session_id rest (snd (log_latency now session_id u a db))
  end.

(** The latencies a session has logged. *)
Definition latencies_of (s : session) : list Z := map latencyMs (latencyLogs s).

(** [x] is the largest, resp. the smallest, element of [l]. *)
Definition is_max (x : Z) (l : list Z) : Prop := In x l /\ Forall (fun y => y <= x) l.
Definition is_min (x : Z) (l : list Z) : Prop := In x l /\ Forall (fun y => x <= y) l.

(* ===================================================================== *)
(** ** The websocket handler (main.py, lines 395-569)                     *)
(* ===================================================================== *)

(** The outcome of every call of [websocket_interview] that leaves the
    process: the client socket, the configuration store, the session
    store and the upstream connection. *)
Record world : Type := {
  w_accept : result unit;
  w_config : result (option (gmap string pyval));
  w_default_config : result (option (gmap string pyval));
  w_send_config : result unit;
  w_create_session : result unit;
  w_close : result unit;
  w_connect : result unit;
  w_send_setup : result unit;
  w_relay : result unit;
  w_upstream_exit : result unit
}.

(** What the handler does to the manager and to the client socket. *)
Inductive event : Type :=
| EvAccept
| EvAdd
| EvRemove
| EvClose (code : Z)
| EvSendConfig
| EvSetup (system_prompt : pyval)
| EvRelay.

(** How the coroutine ends. *)
Inductive ending : Type :=
| Returned
| Propagated (e : exn).

Definition ending_of (r : result unit) : ending :=
  match r with
  | Ok _ => Returned
  | Raise e => Propagated e
  end.

(** [if not config]: [None] and the empty dictionary are both false. *)
Definition usable (config : option (gmap string pyval)) : option (gmap string pyval) :=
  match config with
  | Some d => if Nat.eqb (size d) 0 then None else Some d
  | None => None
  end.

(** Lines 414-417: the configuration of the token, or else of the token
    [default]. *)
Definition resolve_config (w : world) : result (option (gmap string pyval)) :=
  config ← w_config w;
  match usable config with
  | Some d => Ok (Some d)
  | None => usable <$> w_default_config w
  end.

Section Handler.

Variable MAX_CONCURRENT_CONNECTIONS : Z.
Variable repr_other : pyval -> string.

(** Lines 427-461. The reads of [ai_settings] (lines 435-447) all raise
    when the stored [aiSettings] is not a dictionary, and not otherwise. *)
Definition settings_and_prompt (config : gmap string pyval) : result pyval :=
  let ai_settings := dict_get config "aiSettings" (PDict ∅) in
  _ ← py_get ai_settings "temperature" PNone;
  system_prompt_of repr_other config.

(** Lines 515-557: the body of the [try]. Leaving the [async with]
    closes the upstream connection, also when the body raised. *)
Definition session_body (system_prompt : pyval) (w : world) : list event * result unit :=
  match w_connect w with
  | Raise e => ([], Raise e)
  | Ok _ =>
      match w_send_setup w with
      | Raise e => ([], Raise e)
      | Ok _ =>
          match w_relay w with
          | Raise e => ([EvSetup system_prompt; EvRelay], Raise e)
          | Ok _ => ([EvSetup system_prompt; EvRelay], w_upstream_exit w)
          end
      end
  end.

(** Lines 559-566: the [except] clauses. A failing [close] inside the
    second clause is swallowed unless it is a cancellation. *)
Definition except_clauses (w : world) (r : result unit) : list event * result unit :=
  match r with
  | Ok _ => ([], Ok tt)
  | Raise WebSocketDisconnect => ([], Ok tt)
  | Raise OtherError =>
      match w_close w with
      | Raise Cancelled => ([], Raise Cancelled)
      | Raise _ => ([], Ok tt)
      | Ok _ => ([EvClose 1011], Ok tt)
      end
  | Raise Cancelled => ([], Raise Cancelled)
  end.

(** A [remove_connection] and a [close] outside the [try]. *)
Definition reject (now : Z) (w : world) (m : ConnectionManager)
  : ending * list event * ConnectionManager :=
  (ending_of (w_close w),
   EvRemove :: match w_close w with Ok _ => [EvClose 1011] | Raise _ => [] end,
   remove_connection now m).

Definition websocket_interview (now : Z) (w : world) (m : ConnectionManager)
    (p : provider) : ending * list event * ConnectionManager * provider :=
  if negb (can_accept_connection MAX_CONCURRENT_CONNECTIONS m) then
    (ending_of (w_close w),
     match w_close w with Ok _ => [EvClose 1008] | Raise _ => [] end, m, p)
  else
    match w_accept w with
    | Raise e => (Propagated e, [], m, p)
    | Ok _ =>
        let m := add_connection now m in
        let tr := [EvAccept; EvAdd] in
        match resolve_config w with
        | Raise e => (Propagated e, tr, m, p)
        | Ok None =>
            let '(end_, evs, m) := reject now w m in (end_, tr ++ evs, m, p)
        | Ok (Some config) =>
            match settings_and_prompt config with
            | Raise e => (Propagated e, tr, m, p)
            | Ok system_prompt =>
                match w_send_config w with
                | Raise e => (Propagated e, tr, m, p)
                | Ok _ =>
                    let tr := tr ++ [EvSendConfig] in
                    match w_create_session w with
                    | Raise Cancelled => (Propagated Cancelled, tr, m, p)
                    | _ =>
                        let '(access_token, m, p) := get_cached_token now m p in
                        if negb (truthy_token access_token) then
                          let '(end_, evs, m) := reject now w m in
                          (end_, tr ++ evs, m, p)
                        else
                          let '(evs1, r) := session_body system_prompt w in
                          let '(evs2, r) := except_clauses w r in
                          (ending_of r, tr ++ evs1 ++ evs2 ++ [EvRemove],
                           remove_connection now m, p)
                    end
                end
            end
        end
    end.

End Handler.

(** How often the handler acquired and released its admission slot. *)
Definition acquisitions (tr : list event) : nat :=
  length (List.filter (fun ev => match ev with EvAdd => true | _ => false end) tr).

Definition releases (tr : list event) : nat :=
  length (List.filter (fun ev => match ev with EvRemove => true | _ => false end) tr).

(* ===================================================================== *)
(** ** Concurrent handlers                                                *)
(* ===================================================================== *)

(** Handlers are coroutines of one event loop: a handler runs alone from
    one [await] to the next. Between its capacity check (line 400) and
    its [add_connection] (line 406) the handler awaits
    [websocket.accept()], so the two are separate steps. *)
Inductive pc : Type :=
| Entry
| Cleared
| Holding
| Finished.

Record system : Type := {
  sys_manager : ConnectionManager;
  sys_handlers : gmap nat pc
}.

(** A handler that has not run yet is at its entry. *)
Definition pc_of (s : system) (i : nat) : pc := default Entry (sys_handlers s !! i).

Definition system_init (now : Z) : system :=
  {| sys_manager := new_manager now; sys_handlers := ∅ |}.

Section Interleaving.

Variable MAX_CONCURRENT_CONNECTIONS : Z.

(** The next step of handler [i] at instant [now]. *)
Definition handler_step (now : Z) (i : nat) (s : system) : system :=
  match pc_of s i with
  | Entry =>
      if can_accept_connection MAX_CONCURRENT_CONNECTIONS (sys_manager s)
      then {| sys_manager := sys_manager s;
              sys_handlers := <[i := Cleared]> (sys_handlers s) |}
      else {| sys_manager := sys_manager s;
              sys_handlers := <[i := Finished]> (sys_handlers s) |}
  | Cleared =>
      {| sys_manager := add_connection now (sys_manager s);
         sys_handlers := <[i := Holding]> (sys_handlers s) |}
  | Holding =>
      {| sys_manager := remove_connection now (sys_manager s);
         sys_handlers := <[i := Finished]> (sys_handlers s) |}
  | Finished => s
  end.

(** An interleaving is the order in which the handlers take their
    steps. *)
Definition run_schedule (schedule : list (nat * Z)) (s : system) : system :=
  fold_left (fun s step => handler_step (snd step) (fst step) s) schedule s.

(** The same handlers when the check and the increment are one step, as
    an atomic [tryAcquire] would have it. *)
Definition atomic_step (now : Z) (i : nat) (s : system) : system :=
  match pc_of s i with
  | Entry =>
      if can_accept_connection MAX_CONCURRENT_CONNECTIONS (sys_manager s)
      then {| sys_manager := add_connection now (sys_manager s);
              sys_handlers := <[i := Holding]> (sys_handlers s) |}
      else {| sys_manager := sys_manager s;
              sys_handlers := <[i := Finished]> (sys_handlers s) |}
  | Cleared => s
  | Holding =>
      {| sys_manager := remove_connection now (sys_manager s);
         sys_handlers := <[i := Finished]> (sys_handlers s) |}
  | Finished => s
  end.

Definition run_atomic (schedule : list (nat * Z)) (s : system) : system :=
  fold_left (fun s step => atomic_step (snd step) (fst step) s) schedule s.

End Interleaving.

(** *** Sample runs *)

(** A world in which every call succeeds and a configuration is found. *)
Definition world_ok : world :=
  {| w_accept := Ok tt;
     w_config := Ok (Some (scenario_config "indian-english"));
     w_default_config := Ok None;
     w_send_config := Ok tt;
     w_create_session := Ok tt;
     w_close := Ok tt;
     w_connect := Ok tt;
     w_send_setup := Ok tt;
     w_relay := Ok tt;
     w_upstream_exit := Ok tt |}.

(** The configuration store cannot be reached: [get_database] re-raises
    the [ConnectionFailure] and [get_config_by_token] lets it through. *)
Definition world_store_down : world :=
  {| w_accept := Ok tt;
     w_config := Raise OtherError;
     w_default_config := Raise OtherError;
     w_send_config := Ok tt;
     w_create_session := Ok tt;
     w_close := Ok tt;
     w_connect := Ok tt;
     w_send_setup := Ok tt;
     w_relay := Ok tt;
     w_upstream_exit := Ok tt |}.

(** The client goes away right after the handshake: sending it the
    configuration raises. *)
Definition world_client_gone : world :=
  {| w_accept := Ok tt;
     w_config := Ok (Some (scenario_config "indian-english"));
     w_default_config := Ok None;
     w_send_config := Raise WebSocketDisconnect;
     w_create_session := Ok tt;
     w_close := Raise OtherError;
     w_connect := Ok tt;
     w_send_setup := Ok tt;
     w_relay := Ok tt;
     w_upstream_exit := Ok tt |}.

(** A provider that always issues the same token. *)
Definition provider_ok : provider :=
  {| answers := fun _ => Some "ya29.token"; calls := 0 |}.

(** [n] handlers that all pass the capacity check before any of them
    registers its connection. *)
Definition race_schedule (n : nat) : list (nat * Z) :=
  map (fun i => (i, 0)) (seq 0 n) ++ map (fun i => (i, 0)) (seq 0 n).

(** The setup of a handler went through: a configuration was found, the
    instruction was built and the configuration reached the client. *)
Definition setup_completes (repr_other : pyval -> string) (w : world) : Prop :=
  exists config system_prompt,
    resolve_config w = Ok (Some config)
    /\ settings_and_prompt repr_other config = Ok system_prompt
    /\ w_send_config w = Ok tt
    /\ w_create_session w <> Raise Cancelled.

(* ===================================================================== *)
(** ** The manager in sequential use, statistics and health               *)
(* ===================================================================== *)

(** A call of [add_connection] or [remove_connection] at some instant. *)
Inductive manager_op : Type :=
| op_add (now : Z)
| op_remove (now : Z).

Definition apply_op (m : ConnectionManager) (op : manager_op) : ConnectionManager :=
  match op with
  | op_add now => add_connection now m
  | op_remove now => remove_connection now m
  end.

Definition apply_ops (ops : list manager_op) (m : ConnectionManager) : ConnectionManager :=
  fold_left apply_op ops m.

Definition is_add (op : manager_op) : bool :=
  match op with
  | op_add _ => true
  | op_remove _ => false
  end.

(** A [timedelta]: a count of microseconds, held as days, seconds below a
    day and microseconds below a second. *)
Definition td_days (us : Z) : Z := us / 86400000000.
Definition td_seconds (us : Z) : Z := (us mod 86400000000) / 1000000.
Definition td_microseconds (us : Z) : Z := (us mod 86400000000) mod 1000000.

(** [timedelta.total_seconds()]: the microseconds divided by [10**6] as a
    float. *)
Definition total_seconds (us : Z) : result spec_float := py_truediv us 1000000.

(** [%02d] and [%06d] of an integer that is not negative: zeros in front
    up to the width. *)
Fixpoint zeros (n : nat) : string :=
  match n with
  | O => EmptyString
  | S n => String "0"%char (zeros n)
  end.

Definition pad_int (width : nat) (z : Z) : string :=
  let s := str_of_int z in
  zeros (width - String.length s) +:+ s.

(** [str(timedelta)]. *)
Definition str_timedelta (us : Z) : string :=
  let mm := td_seconds us / 60 in
  let ss := td_seconds us mod 60 in
  let hh := mm / 60 in
  let mm := mm mod 60 in
  let s := str_of_int hh +:+ ":" +:+ pad_int 2 mm +:+ ":" +:+ pad_int 2 ss in
  let s := if td_days us =? 0 then s
           else str_of_int (td_days us) +:+ " day"
                  +:+ (if Z.abs (td_days us) =? 1 then EmptyString else "s")
                  +:+ ", " +:+ s in
  if td_microseconds us =? 0 then s
  else s +:+ "." +:+ pad_int 6 (td_microseconds us).

(** [s.split('.')[0]]: the text before the first dot. *)
Fixpoint before_dot (s : string) : string :=
  match s with
  | EmptyString => EmptyString
  | String c rest =>
      if Ascii.eqb c "."%char then EmptyString else String c (before_dot rest)
  end.

(** The dictionary of [get_stats] (main.py, lines 249-258). *)
Record stats : Type := {
  st_active_connections : Z;
  st_total_connections : Z;
  st_max_capacity : Z;
  st_available_slots : Z;
  st_uptime_seconds : Z;
  st_uptime_formatted : string
}.

Section Stats.

Variable MAX_CONCURRENT_CONNECTIONS : Z.

Definition get_stats (now : Z) (m : ConnectionManager) : result stats :=
  let uptime := now - start_time m in
  seconds ← total_seconds uptime ≫= py_int;
  Ok {| st_active_connections := active_connections m;
        st_total_connections := total_connections m;
        st_max_capacity := MAX_CONCURRENT_CONNECTIONS;
        st_available_slots := MAX_CONCURRENT_CONNECTIONS - active_connections m;
        st_uptime_seconds := seconds;
        st_uptime_formatted := before_dot (str_timedelta uptime) |}.

(** [GET /health] as registered at main.py, lines 367-378. *)
Definition health_check (now : Z) (m : ConnectionManager) : result (string * stats) :=
  s ← get_stats now m;
  let is_healthy := st_active_connections s <? MAX_CONCURRENT_CONNECTIONS in
  Ok (if is_healthy then "healthy" else "at_capacity", s).

End Stats.

(* ===================================================================== *)
(** ** Type tests on Python values                                        *)
(* ===================================================================== *)

Definition is_dict (v : pyval) : bool :=
  match v with
  | PDict _ => true
  | _ => false
  end.

Definition is_str (v : pyval) : bool :=
  match v with
  | PStr _ => true
  | _ => false
  end.

(** The detector flags of the proctoring settings with their rules, in
    the order of lines 629-636. *)
Definition detector_rules : list (string * string) :=
  [("detectMultiplePeople", rule_multiple_people);
   ("detectPhone", rule_phone);
   ("detectLookingAway", rule_looking_away);
   ("detectTabSwitch", rule_tab_switch)].

(* ===================================================================== *)
(** ** What the handler sends back to the client (main.py, 463-497)       *)
(* ===================================================================== *)

(** A world that differs in the answer of the configuration store for the
    token of the client. *)
Definition with_config (w : world) (c : result (option (gmap string pyval))) : world :=
  {| w_accept := w_accept w;
     w_config := c;
     w_default_config := w_default_config w;
     w_send_config := w_send_config w;
     w_create_session := w_create_session w;
     w_close := w_close w;
     w_connect := w_connect w;
     w_send_setup := w_send_setup w;
     w_relay := w_relay w;
     w_upstream_exit := w_upstream_exit w |}.

(** Lines 440-447 and 463-475: the timing and turn detection settings
    echoed to the client. *)
Definition timing_for_frontend (config : gmap string pyval) (ai_settings : pyval)
  : result (gmap string pyval) :=
  let duration_minutes := dict_get config "durationMinutes" (PInt 30) in
  silence_warning1 ← py_get ai_settings "silenceWarning1Seconds" (PInt 35);
  silence_warning2 ← py_get ai_settings "silenceWarning2Seconds" (PInt 50);
  silence_end ← py_get ai_settings "silenceEndSeconds" (PInt 60);
  auto_end ← py_get ai_settings "autoEndDelaySeconds" (PInt 8);
  Ok (<["durationMinutes" := duration_minutes]>
        (<["silenceWarning1Seconds" := silence_warning1]>
           (<["silenceWarning2Seconds" := silence_warning2]>
              (<["silenceEndSeconds" := silence_end]>
                 (<["autoEndDelaySeconds" := auto_end]> ∅))))).

Definition turn_detection_for_frontend (ai_settings : pyval) : result (gmap string pyval) :=
  user_speech_end_delay ← py_get ai_settings "userSpeechEndDelayMs" (PInt 500);
  ai_response_delay ← py_get ai_settings "aiResponseDelayMs" (PInt 200);
  interruption ← py_get ai_settings "interruptionThresholdMs" (PInt 300);
  Ok (<["userSpeechEndDelayMs" := user_speech_end_delay]>
        (<["aiResponseDelayMs" := ai_response_delay]>
           (<["interruptionThresholdMs" := interruption]> ∅))).

(** Lines 480-497: the message of type [config]. *)
Definition config_message (config : gmap string pyval) (session_id candidate_uuid : string)
  : result (gmap string pyval) :=
  let ai_settings := dict_get config "aiSettings" (PDict ∅) in
  let language := dict_get config "language" (PStr "indian-english") in
  timing ← timing_for_frontend config ai_settings;
  turn_detection ← turn_detection_for_frontend ai_settings;
  let interview :=
    <["companyName" := dict_get config "companyName" PNone]>
      (<["jobRole" := dict_get config "jobRole" PNone]>
         (<["candidateName" := dict_get config "candidateName" PNone]>
            (<["language" := language]> ∅))) in
  Ok (<["type" := PStr "config"]>
        (<["config" :=
             PDict (<["timing" := PDict timing]>
                      (<["turnDetection" := PDict turn_detection]>
                         (<["ui" := dict_get config "ui" (PDict ∅)]>
                            (<["recording" := dict_get config "recording" (PDict ∅)]>
                               (<["interview" := PDict interview]>
                                  (<["sessionId" := PStr session_id]>
                                     (<["candidateUuid" := PStr candidate_uuid]> ∅)))))))]> ∅)).

(** *** More sample runs *)

(** The store knows neither the token nor [default]. *)
Definition world_no_config : world := with_config
  {| w_accept := Ok tt; w_config := Ok None; w_default_config := Ok None;
     w_send_config := Ok tt; w_create_session := Ok tt; w_close := Ok tt;
     w_connect := Ok tt; w_send_setup := Ok tt; w_relay := Ok tt;
     w_upstream_exit := Ok tt |} (Ok None).

(** The store only knows [default]. *)
Definition world_default_only : world :=
  {| w_accept := Ok tt; w_config := Ok None;
     w_default_config := Ok (Some (scenario_config "indian-english"));
     w_send_config := Ok tt; w_create_session := Ok tt; w_close := Ok tt;
     w_connect := Ok tt; w_send_setup := Ok tt; w_relay := Raise OtherError;
     w_upstream_exit := Ok tt |}.

(** A provider without credentials. *)
Definition provider_down : provider := {| answers := fun _ => None; calls := 0 |}.

(** A configuration with its own duration and silence warning. *)
Definition timed_config : gmap string pyval :=
  <["durationMinutes" := PInt 45]>
    (<["aiSettings" := PDict (<["silenceWarning2Seconds" := PInt 40]> ∅)]> ∅).

(* ===================================================================== *)
(** ** More on the pumps (main.py, lines 268-338)                         *)
(* ===================================================================== *)

(** A statement that neither forwards nor counts a message. *)
Definition quiet (st st' : pump) : Prop :=
  forwarded st' = forwarded st /\ msg_count st' = msg_count st.

Definition payloads (arrivals : list arrival) : list string :=
  map (fun a => payload_of (a_frame a)) arrivals.

(** What the client-to-upstream pump receives: a text message with what
    [json.loads] makes of it and the state of the upstream connection at
    the moment of forwarding, the disconnect of the client, or a receive
    that raises something else. *)
Inductive client_event : Type :=
| ClientText (text : string) (parsed : option pyval) (upstream_open : bool)
| ClientDisconnect
| ClientReceiveError.

Inductive client_log : Type :=
| DebugMediaChunks (count : Z)
| DebugBrowserMessage (number : Z)
| DebugClientDisconnected
| ErrorClient2Server.

(** The local variables of [client2server] and its effects; [c_running]
    is false once the loop has been left. *)
Record client_pump : Type := {
  c_msg_count : Z;
  c_audio_chunk_count : Z;
  c_sent : list string;
  c_logged : list client_log;
  c_running : bool
}.

Definition client_pump_init : client_pump :=
  {| c_msg_count := 0; c_audio_chunk_count := 0; c_sent := []; c_logged := [];
     c_running := true |}.

(** The loop is left through one of the two [except] clauses. *)
Definition client_stop (entry : client_log) (st : client_pump) : client_pump :=
  {| c_msg_count := c_msg_count st; c_audio_chunk_count := c_audio_chunk_count st;
     c_sent := c_sent st; c_logged := c_logged st ++ [entry]; c_running := false |}.

(** One turn of the [while True] loop (lines 274-286). *)
Definition client_turn (st : client_pump) (ev : client_event) : client_pump :=
  if negb (c_running st) then st
  else
    match ev with
    | ClientDisconnect => client_stop DebugClientDisconnected st
    | ClientReceiveError => client_stop ErrorClient2Server st
    | ClientText text parsed upstream_open =>
        let count := c_msg_count st + 1 in
        let counted := {| c_msg_count := count;
                          c_audio_chunk_count := c_audio_chunk_count st;
                          c_sent := c_sent st; c_logged := c_logged st;
                          c_running := true |} in
        match parsed with
        | None => client_stop ErrorClient2Server counted
        | Some data =>
            match py_in "realtimeInput" data with
            | Raise _ => client_stop ErrorClient2Server counted
            | Ok is_media =>
                let chunks := if is_media then c_audio_chunk_count st + 1
                              else c_audio_chunk_count st in
                let entries :=
                  if is_media
                  then (if chunks mod 100 =? 0 then [DebugMediaChunks chunks] else [])
                  else [DebugBrowserMessage count] in
                let logged := {| c_msg_count := count; c_audio_chunk_count := chunks;
                                 c_sent := c_sent st;
                                 c_logged := c_logged st ++ entries;
                                 c_running := true |} in
                if upstream_open then
                  {| c_msg_count := count; c_audio_chunk_count := chunks;
                     c_sent := c_sent st ++ [text];
                     c_logged := c_logged st ++ entries; c_running := true |}
                else client_stop ErrorClient2Server logged
            end
        end
    end.

Definition client2server (events : list client_event) : client_pump :=
  fold_left client_turn events client_pump_init.

(** The text of an event, when it has one. *)
Definition client_texts (events : list client_event) : list string :=
  omap (fun ev => match ev with ClientText text _ _ => Some text | _ => None end) events.

Definition is_progress_log (entry : client_log) : bool :=
  match entry with
  | DebugMediaChunks _ => true
  | _ => false
  end.

(** What the loop of [client2server] keeps true from turn to turn, for
    the texts received so far. *)
Definition client_invariant (texts : list string) (st : client_pump) : Prop :=
  0 <= c_audio_chunk_count st
  /\ Z.of_nat (length (List.filter is_progress_log (c_logged st)))
     = c_audio_chunk_count st / 100
  /\ (exists rest, texts = c_sent st ++ rest)
  /\ (c_running st = true ->
      c_sent st = texts /\ c_msg_count st = Z.of_nat (length texts))
  /\ Z.of_nat (length (c_sent st)) <= c_msg_count st <= Z.of_nat (length (c_sent st)) + 1.

(* ===================================================================== *)
(** ** The speed test (main.py, lines 706-764)                            *)
(* ===================================================================== *)

(** One entry of [speed_test_results]. *)
Record speed_result : Type := {
  sr_timestamp : Z;
  sr_speed_mbps : spec_float;
  sr_quality : string;
  sr_user_agent : option string
}.

(** [speed_test_report]: the entry is appended, and the oldest entry is
    dropped once there are more than 1000. *)
Definition speed_test_report (now : Z) (speed_mbps : spec_float) (q : string)
    (user_agent : option string) (results : list speed_result) : list speed_result :=
  let results := results ++ [{| sr_timestamp := now; sr_speed_mbps := speed_mbps;
                                sr_quality := q; sr_user_agent := user_agent |}] in
  if Nat.ltb 1000 (length results) then tail results else results.

(** A report as the endpoint receives it. *)
Definition report : Type := Z * spec_float * string * option string.

Definition entry_of (r : report) : speed_result :=
  let '(now, speed, q, agent) := r in
  {| sr_timestamp := now; sr_speed_mbps := speed; sr_quality := q; sr_user_agent := agent |}.

Definition speed_test_reports (reports : list report) (results : list speed_result)
  : list speed_result :=
  fold_left (fun acc r => let '(now, speed, q, agent) := r in
                          speed_test_report now speed q agent acc) reports results.

Section SpeedTest.

(** [os.urandom]: the bytes the operating system hands out for a length
    that is not negative. *)
Variable urandom : nat -> string.

(** The answer of [GET /api/speed-test/download]: the body and the
    [Content-Length] header. A negative size makes [os.urandom] raise. *)
Definition speed_test_download (bytes : Z) : result (string * string) :=
  let size := Z.min bytes 1000000 in
  if size <? 0 then Raise OtherError
  else Ok (urandom (Z.to_nat size), str_of_int size).

End SpeedTest.

(* ===================================================================== *)
(** ** Text handling of the analysis endpoints (main.py, lines 877-1111)  *)
(* ===================================================================== *)

(** [s.split(sep)] for a separator that is not empty: the pieces between
    the occurrences of [sep], found from left to right without overlap.
    [skip] counts the characters of an occurrence still to be passed over
    and [cur] is the piece read so far. *)
Fixpoint split_from (sep s : string) (skip : nat) (cur : string) : list string :=
  match s with
  | EmptyString => [cur]
  | String c rest =>
      match skip with
      | S k => split_from sep rest k cur
      | O =>
          if String.prefix sep s
          then cur :: split_from sep rest (String.length sep - 1) EmptyString
          else split_from sep rest 0 (cur +:+ String c EmptyString)
      end
  end.

Definition str_split (sep s : string) : list string :=
  split_from sep s 0 EmptyString.

(** [l[i]] for an index that is not negative: an [IndexError] past the end. *)
Definition py_index {A : Type} (l : list A) (i : nat) : result A :=
  match nth_error l i with
  | Some x => Ok x
  | None => Raise OtherError
  end.

Definition fence : string := "```".
Definition fence_json : string := "```json".

(** Lines 1014-1017 of [score_communication] and lines 1089-1092 of
    [score_technical]: the answer of the model is taken out of a markdown
    fence before it is parsed. *)
Definition unwrap_markdown (response_text : string) : result string :=
  if contains fence_json response_text then
    inner ← py_index (str_split fence_json response_text) 1;
    py_index (str_split fence inner) 0
  else if contains fence response_text then
    inner ← py_index (str_split fence response_text) 1;
    py_index (str_split fence inner) 0
  else Ok response_text.

(** Line 936 of [transcribe_audio]. *)
Definition is_user_line (line : string) : bool :=
  contains "User:" line || contains "USER:" line || contains "user:" line.

(** Lines 934-939 of [transcribe_audio]: the lines of the transcript that
    name the user, joined again. *)
Definition user_transcript (transcript_text : string) : string :=
  join nl (List.filter is_user_line (str_split nl transcript_text)).

(** No character of [s] is [c]. *)
Fixpoint lacks (c : ascii) (s : string) : bool :=
  match s with
  | EmptyString => true
  | String d rest => negb (Ascii.eqb c d) && lacks c rest
  end.

Definition backtick : ascii := "`"%char.
Definition newline : ascii := "010"%char.

(* ===================================================================== *)
(** ** The values put into the instruction text (main.py, lines 640-680)  *)
(* ===================================================================== *)

(** The asterisk of markdown emphasis. Every detector rule has a title set
    between two pairs of it; the fixed text of the f-string, the two
    language headers and the five difficulty sentences have none. *)
Definition asterisk : ascii := "*"%char.

Section Interpolation.

Variable repr_other : pyval -> string.

(** What the f-string interpolates besides the parts chosen by the code,
    as [str] prints it: company, role, industry, country, experience,
    candidate name, duration, second silence warning, question limit. *)
Definition interpolated (config ai_settings : gmap string pyval) : list string :=
  map (py_str repr_other)
    [dict_get config "companyName" (PStr "the company");
     dict_get config "jobRole" (PStr "Software Engineer");
     dict_get config "industryType" (PStr "Information Technology");
     dict_get config "country" (PStr "India");
     dict_get config "yearsOfExperience" (PStr "1-3");
     dict_get config "candidateName" (PStr EmptyString);
     dict_get config "durationMinutes" (PInt 30);
     dict_get ai_settings "silenceWarning2Seconds" (PInt 50);
     dict_get ai_settings "maxQuestions" (PInt 10)].

End Interpolation.

(** A configuration that puts the text of a detector rule where the name
    of the company goes. *)
Definition rule_as_company : gmap string pyval :=
  <["companyName" := PStr rule_phone]>
    (<["language" := PStr "casual-hindi"]> (<["proctoring" := PDict proctoring_off]> ∅)).

(* ===================================================================== *)
(** * Properties                                                          *)
(* ===================================================================== *)

(** ** Credential cache *)

Lemma truthy_token_Some (t : string) :
  t <> EmptyString -> truthy_token (Some t) = true.
Proof.
  intros Hne. unfold truthy_token.
  destruct (String.eqb_spec t EmptyString) as [Heq | _]; [contradiction | reflexivity].
Qed.

Lemma truthy_token_inv (o : option string) :
  truthy_token o = true -> exists t, o = Some t /\ t <> EmptyString.
Proof.
  destruct o as [t |]; simpl; [| discriminate].
  destruct (String.eqb_spec t EmptyString) as [-> | Hne]; [discriminate |].
  intros _. exists t. split; [reflexivity | exact Hne].
Qed.

(** The test of line 237. *)
Lemma cache_hit_iff (now : Z) (m : ConnectionManager) :
  truthy_token (token_cache m) &&
    match token_expiry m with Some expiry => now <? expiry | None => false end = true
  <-> cache_fresh now m.
Proof.
  unfold cache_fresh. rewrite andb_true_iff. split.
  - intros [Ht He]. apply truthy_token_inv in Ht as (t & Ht & Hne).
    destruct (token_expiry m) as [e |]; [| discriminate].
    apply Z.ltb_lt in He. exists t, e. auto.
  - intros (t & e & Ht & Hne & He & Hlt). rewrite Ht, He. split.
    + apply truthy_token_Some; assumption.
    + apply Z.ltb_lt; assumption.
Qed.

Lemma cache_stale_miss (now : Z) (m : ConnectionManager) :
  ~ cache_fresh now m ->
  truthy_token (token_cache m) &&
    match token_expiry m with Some expiry => now <? expiry | None => false end = false.
Proof.
  intros Hstale. apply not_true_is_false. intros Hhit.
  apply Hstale, cache_hit_iff, Hhit.
Qed.

(** C8. [get_cached_token]: a cached token whose expiry lies ahead is
    returned and the identity provider is not called; otherwise the
    provider is called once, and either its token is returned and stored
    with an expiry 50 minutes after [now], or, when it gives none, the
    caller gets no token and the cached token and expiry stay as they
    were. *)
Theorem get_cached_token_contract (now : Z) (m : ConnectionManager) (p : provider) :
  (forall t e,
      token_cache m = Some t -> t <> EmptyString ->
      token_expiry m = Some e -> now < e ->
      get_cached_token now m p = (Some t, m, p))
  /\ (forall t,
      ~ cache_fresh now m ->
      answers p (calls p) = Some t -> t <> EmptyString ->
      exists m',
        get_cached_token now m p = (Some t, m', snd (get_access_token p))
        /\ calls (snd (get_access_token p)) = S (calls p)
        /\ token_cache m' = Some t
        /\ token_expiry m' = Some (now + 50 * 60 * 1000000)
        /\ active_connections m' = active_connections m
        /\ total_connections m' = total_connections m
        /\ connection_history m' = connection_history m)
  /\ (~ cache_fresh now m ->
      truthy_token (answers p (calls p)) = false ->
      get_cached_token now m p = (answers p (calls p), m, snd (get_access_token p))
      /\ truthy_token (fst (fst (get_cached_token now m p))) = false).
Proof.
  split; [| split].
  - intros t e Ht Hne He Hlt. unfold get_cached_token.
    assert (Hhit : cache_fresh now m) by (exists t, e; auto).
    apply cache_hit_iff in Hhit. rewrite Hhit. rewrite Ht. reflexivity.
  - intros t Hstale Hans Hne. unfold get_cached_token.
    rewrite (cache_stale_miss _ _ Hstale). simpl.
    rewrite Hans, (truthy_token_Some _ Hne).
    eexists. split; [reflexivity |]. simpl. unfold minutes.
    repeat split; reflexivity.
  - intros Hstale Hnone. unfold get_cached_token.
    rewrite (cache_stale_miss _ _ Hstale). simpl. rewrite Hnone.
    split; [reflexivity | exact Hnone].
Qed.

(** A manager with token [tok] cached until instant 100, and a provider
    whose first answer is [new] and whose later answers are failures. *)
Lemma get_cached_token_contract_witness :
  let m := {| active_connections := 1; total_connections := 1;
              connection_history := [];
              token_cache := Some "tok"; token_expiry := Some 100;
              start_time := 0 |} in
  let p := {| answers := fun n => match n with O => Some "new" | _ => None end;
              calls := 0 |} in
  get_cached_token 5 m p = (Some "tok", m, p)
  /\ fst (fst (get_cached_token 100 m p)) = Some "new"
  /\ get_cached_token 100 m (snd (get_access_token p))
     = (None, m, snd (get_access_token (snd (get_access_token p)))).
Proof.
  intros m p.
  assert (Hstale : ~ cache_fresh 100 m).
  { intros (t & e & _ & _ & He & Hlt). simpl in He. injection He as <-. lia. }
  split; [| split].
  - apply (proj1 (get_cached_token_contract 5 m p) "tok" 100);
      [reflexivity | discriminate | reflexivity | lia].
  - destruct (proj1 (proj2 (get_cached_token_contract 100 m p)) "new" Hstale)
      as (m' & Hrun & _); [reflexivity | discriminate |].
    rewrite Hrun. reflexivity.
  - apply (proj2 (proj2 (get_cached_token_contract 100 m (snd (get_access_token p))))
             Hstale).
    reflexivity.
Defined.

(** ** Strings *)

Lemma prefix_app (s t : string) : String.prefix s (s +:+ t) = true.
Proof.
  induction s as [| c s IH]; simpl.
  - destruct t; reflexivity.
  - rewrite IH. destruct (Ascii.ascii_dec c c) as [_ | Hne];
      [reflexivity | contradiction].
Qed.

Lemma contains_here (s t : string) : contains s (s +:+ t) = true.
Proof.
  destruct s as [| c s]; [destruct t; reflexivity |].
  change (contains (String c s) (String c s +:+ t))
    with (String.prefix (String c s) (String c s +:+ t)
          || contains (String c s) (s +:+ t)).
  rewrite prefix_app. reflexivity.
Qed.

Lemma contains_app_r (s a b : string) :
  contains s b = true -> contains s (a +:+ b) = true.
Proof.
  intros Hb. induction a as [| c a IH]; simpl; [exact Hb |].
  change (contains s (String c (a +:+ b)))
    with (String.prefix s (String c (a +:+ b)) || contains s (a +:+ b)).
  rewrite IH. apply orb_true_r.
Qed.

Lemma contains_middle (s a b : string) : contains s (a +:+ s +:+ b) = true.
Proof. apply contains_app_r, contains_here. Qed.

(** ** Instruction assembly *)

Section PromptFacts.

Variable repr_other : pyval -> string.

Lemma override_is_returned (config : gmap string pyval) (X : string) :
  X <> EmptyString ->
  config !! "systemPrompt" = Some (PStr X) ->
  system_prompt_of repr_other config = Ok (PStr X).
Proof.
  intros Hne Hget. unfold system_prompt_of, dict_get. rewrite Hget. simpl.
  destruct (String.eqb_spec X EmptyString) as [-> | _];
    [contradiction | reflexivity].
Qed.

(** Two configurations that share the override give the same text. *)
Lemma override_ignores_other_fields (c1 c2 : gmap string pyval) (X : string) :
  X <> EmptyString ->
  c1 !! "systemPrompt" = Some (PStr X) ->
  c2 !! "systemPrompt" = Some (PStr X) ->
  system_prompt_of repr_other c1 = system_prompt_of repr_other c2.
Proof.
  intros Hne H1 H2.
  rewrite (override_is_returned c1 X Hne H1).
  rewrite (override_is_returned c2 X Hne H2). reflexivity.
Qed.

(** C6. A configuration whose [systemPrompt] is a non-empty string [X]
    yields exactly [X] as the instruction, whatever its other fields
    hold: nothing is generated and no rule is applied. *)
Theorem system_prompt_override (config : gmap string pyval) (X : string) :
  X <> EmptyString ->
  config !! "systemPrompt" = Some (PStr X) ->
  system_prompt_of repr_other config = Ok (PStr X).
Proof. exact (override_is_returned config X). Qed.

Lemma candidate_line_total (config : gmap string pyval) (ai_settings : pyval) :
  well_typed config ai_settings ->
  exists line,
    candidate_line_of (dict_get config "candidateName" (PStr EmptyString)) = Ok line.
Proof.
  intros [_ [Hfalsy | [s Hs]]]; unfold candidate_line_of.
  - rewrite Hfalsy. eexists; reflexivity.
  - unfold dict_get. rewrite Hs. simpl.
    destruct (negb (String.eqb s EmptyString)); eexists; reflexivity.
Qed.

(** On such inputs the text is the six parts in order. *)
Lemma generate_dynamic_prompt_total (config : gmap string pyval) (ai_settings : pyval)
    (p : gmap string pyval) :
  well_typed config ai_settings ->
  exists business silence closing,
    generate_dynamic_prompt repr_other config ai_settings (PDict p)
    = Ok (assemble
            (lang_instruction_of (dict_get config "language" (PStr "indian-english")))
            business
            (difficulty_guidance
               (exp_instruction_of (dict_get config "yearsOfExperience" (PStr "1-3"))))
            (proctoring_section_of (proctoring_rules_of p))
            silence closing).
Proof.
  intros Hwt. destruct (candidate_line_total _ _ Hwt) as [line Hline].
  destruct Hwt as [[d ->] _].
  unfold generate_dynamic_prompt. simpl. rewrite Hline. simpl.
  eexists _, _, _. reflexivity.
Qed.

(** The proctoring section of a generated text is found in it. *)
Lemma generated_contains_section (config : gmap string pyval) (ai_settings : pyval)
    (p : gmap string pyval) (t : string) :
  generate_dynamic_prompt repr_other config ai_settings (PDict p) = Ok t ->
  contains (proctoring_section_of (proctoring_rules_of p)) t = true.
Proof.
  unfold generate_dynamic_prompt.
  destruct (py_get ai_settings "silenceWarning1Seconds" (PInt 35)); simpl; [| discriminate].
  destruct (py_get ai_settings "silenceWarning2Seconds" (PInt 50)); simpl; [| discriminate].
  destruct (py_get ai_settings "silenceEndSeconds" (PInt 60)); simpl; [| discriminate].
  destruct (py_get ai_settings "maxQuestions" (PInt 10)); simpl; [| discriminate].
  destruct (candidate_line_of _); simpl; [| discriminate].
  intros [= <-]. unfold assemble.
  do 4 apply contains_app_r. apply contains_here.
Qed.

Lemma rules_of_disabled (p : gmap string pyval) :
  p !! "enabled" = Some (PBool false) -> proctoring_rules_of p = EmptyString.
Proof. intros H. unfold proctoring_rules_of, dict_get. rewrite H. reflexivity. Qed.

Lemma rules_of_all_flags_off (p : gmap string pyval) :
  p !! "detectMultiplePeople" = Some (PBool false) ->
  p !! "detectPhone" = Some (PBool false) ->
  p !! "detectLookingAway" = Some (PBool false) ->
  p !! "detectTabSwitch" = Some (PBool false) ->
  proctoring_rules_of p = EmptyString.
Proof.
  intros H1 H2 H3 H4. unfold proctoring_rules_of, append_rule, dict_get.
  rewrite H1, H2, H3, H4. simpl.
  destruct (truthy (default (PBool true) (p !! "enabled"))); reflexivity.
Qed.

(** C9. With [enabled] true and the four detector flags false, the
    generated text is the one of a configuration with [enabled] false:
    the proctoring section is the sentence [proctoring_disabled], and
    that sentence is in the text. *)
Theorem proctoring_all_off_is_disabled (config : gmap string pyval)
    (ai_settings : pyval) (p_on p_off : gmap string pyval) :
  p_on !! "enabled" = Some (PBool true) ->
  p_on !! "detectMultiplePeople" = Some (PBool false) ->
  p_on !! "detectPhone" = Some (PBool false) ->
  p_on !! "detectLookingAway" = Some (PBool false) ->
  p_on !! "detectTabSwitch" = Some (PBool false) ->
  p_off !! "enabled" = Some (PBool false) ->
  generate_dynamic_prompt repr_other config ai_settings (PDict p_on)
  = generate_dynamic_prompt repr_other config ai_settings (PDict p_off)
  /\ proctoring_section_of (proctoring_rules_of p_on) = proctoring_disabled
  /\ proctoring_section_of (proctoring_rules_of p_off) = proctoring_disabled
  /\ (forall t,
        generate_dynamic_prompt repr_other config ai_settings (PDict p_on) = Ok t ->
        contains proctoring_disabled t = true)
  /\ (well_typed config ai_settings ->
      exists t,
        generate_dynamic_prompt repr_other config ai_settings (PDict p_on) = Ok t).
Proof.
  intros Hen H1 H2 H3 H4 Hoff.
  pose proof (rules_of_all_flags_off p_on H1 H2 H3 H4) as Hon.
  pose proof (rules_of_disabled p_off Hoff) as Hoff'.
  split; [| split; [| split; [| split]]].
  - unfold generate_dynamic_prompt. rewrite Hon, Hoff'. reflexivity.
  - rewrite Hon. reflexivity.
  - rewrite Hoff'. reflexivity.
  - intros t Ht. apply generated_contains_section in Ht.
    rewrite Hon in Ht. exact Ht.
  - intros Hwt.
    destruct (generate_dynamic_prompt_total config ai_settings p_on Hwt)
      as (b & s & c & Hgen).
    eexists. exact Hgen.
Qed.

End PromptFacts.

(** A configuration that only carries an override. *)
Lemma system_prompt_override_witness :
  system_prompt_of (fun _ => EmptyString)
    (<["systemPrompt" := PStr "X"]> (<["language" := PStr "casual-hindi"]> ∅))
  = Ok (PStr "X").
Proof.
  apply (system_prompt_override (fun _ => EmptyString)
           (<["systemPrompt" := PStr "X"]> (<["language" := PStr "casual-hindi"]> ∅)) "X").
  - discriminate.
  - vm_compute. reflexivity.
Defined.

Lemma proctoring_all_off_is_disabled_witness :
  generate_dynamic_prompt (fun _ => EmptyString) ∅ (PDict ∅) (PDict detectors_off)
  = generate_dynamic_prompt (fun _ => EmptyString) ∅ (PDict ∅) (PDict proctoring_off)
  /\ proctoring_section_of (proctoring_rules_of detectors_off) = proctoring_disabled.
Proof.
  destruct (proctoring_all_off_is_disabled (fun _ => EmptyString) ∅ (PDict ∅)
              detectors_off proctoring_off) as (Heq & Hon & _);
    try (vm_compute; reflexivity).
  split; [exact Heq | exact Hon].
Defined.


(** The value [casual-regional] is not one the code knows: the text then
    starts with the Indian English header, not with the vernacular one. *)
Lemma casual_regional_counterexample :
  exists t,
    system_prompt_of (fun _ => EmptyString) (scenario_config "casual-regional")
    = Ok (PStr t)
    /\ String.prefix lang_indian_english t = true
    /\ String.prefix lang_casual_hindi t = false.
Proof. eexists. vm_compute. repeat split. Qed.

(** ** The upstream-to-client pump *)

Section Preservation.

Variable R : pump -> pump -> Prop.
Hypothesis R_refl : forall st, R st st.
Hypothesis R_trans : forall a b c, R a b -> R b c -> R a c.

Lemma preserves_lift {A : Type} (r : result A) : preserves R (lift r).
Proof. intros st r' st' [= _ <-]. apply R_refl. Qed.

Lemma preserves_skip : preserves R skip.
Proof. intros st r' st' [= _ <-]. apply R_refl. Qed.

Lemma preserves_get_handle : preserves R get_handle.
Proof. intros st r' st' [= _ <-]. apply R_refl. Qed.

Lemma preserves_bind {A B : Type} (c : M A) (k : A -> M B) :
  preserves R c -> (forall a, preserves R (k a)) -> preserves R (c ≫= k).
Proof.
  intros Hc Hk st r st'. unfold mbind, M_bind.
  destruct (c st) as [[a | e] st1] eqn:Hrun.
  - intros Hrest. eapply R_trans; [eapply Hc, Hrun | eapply Hk, Hrest].
  - intros [= _ <-]. eapply Hc, Hrun.
Qed.

Lemma preserves_if {A : Type} (b : bool) (c1 c2 : M A) :
  preserves R c1 -> preserves R c2 -> preserves R (if b then c1 else c2).
Proof. destruct b; auto. Qed.

End Preservation.

Lemma same_handle_refl st : same_handle st st.
Proof. reflexivity. Qed.

Lemma same_handle_trans a b c : same_handle a b -> same_handle b c -> same_handle a c.
Proof. unfold same_handle. congruence. Qed.

Lemma same_forwarded_refl st : same_forwarded st st.
Proof. reflexivity. Qed.

Lemma same_forwarded_trans a b c :
  same_forwarded a b -> same_forwarded b c -> same_forwarded a c.
Proof. unfold same_forwarded. congruence. Qed.

Lemma emit_same_handle ev : preserves same_handle (emit ev).
Proof. intros st r st' [= _ <-]. reflexivity. Qed.

Lemma emit_same_forwarded ev : preserves same_forwarded (emit ev).
Proof. intros st r st' [= _ <-]. reflexivity. Qed.

Lemma tick_same_handle : preserves same_handle tick.
Proof. intros st r st' [= _ <-]. reflexivity. Qed.

Lemma tick_same_forwarded : preserves same_forwarded tick.
Proof. intros st r st' [= _ <-]. reflexivity. Qed.

Lemma set_handle_same_forwarded h : preserves same_forwarded (set_handle h).
Proof. intros st r st' [= _ <-]. reflexivity. Qed.

Lemma send_text_same_handle b c text : preserves same_handle (send_text b c text).
Proof.
  intros st r st'. unfold send_text. destruct b, c; intros [= _ <-]; reflexivity.
Qed.

(** Breaks a statement into its steps. *)
Ltac step_handle :=
  repeat first
    [ apply (preserves_bind same_handle same_handle_trans); [| intros ?]
    | apply preserves_if
    | apply (preserves_lift same_handle same_handle_refl)
    | apply (preserves_skip same_handle same_handle_refl)
    | apply (preserves_get_handle same_handle same_handle_refl)
    | apply emit_same_handle
    | apply tick_same_handle
    | apply send_text_same_handle ].

Ltac step_forwarded :=
  repeat first
    [ apply (preserves_bind same_forwarded same_forwarded_trans); [| intros ?]
    | apply preserves_if
    | apply (preserves_lift same_forwarded same_forwarded_refl)
    | apply (preserves_skip same_forwarded same_forwarded_refl)
    | apply (preserves_get_handle same_forwarded same_forwarded_refl)
    | apply emit_same_forwarded
    | apply tick_same_forwarded
    | apply set_handle_same_forwarded ].

Lemma handle_go_away_same_handle data : preserves same_handle (handle_go_away data).
Proof. unfold handle_go_away. step_handle. Qed.

Lemma log_content_same_handle data : preserves same_handle (log_content data).
Proof. unfold log_content. step_handle. Qed.

Lemma handle_resumption_same_forwarded data :
  preserves same_forwarded (handle_resumption data).
Proof. unfold handle_resumption. step_forwarded. Qed.

Lemma handle_go_away_same_forwarded data :
  preserves same_forwarded (handle_go_away data).
Proof. unfold handle_go_away. step_forwarded. Qed.

Lemma log_content_same_forwarded data : preserves same_forwarded (log_content data).
Proof. unfold log_content. step_forwarded. Qed.

(** Runs the statements of the goal. *)
Ltac run_pump :=
  cbv [mbind M_bind lift skip mret M_ret set_handle get_handle emit tick send_text];
  cbn.

(** Lines 301-306 set the handle to the one the message carries, and
    leave it alone when the message carries none. *)
Lemma handle_resumption_handle data st r st' :
  handle_resumption data st = (r, st') ->
  session_handle st' = default (session_handle st) (resumable_update data).
Proof.
  unfold handle_resumption, resumable_update.
  destruct data as [| b | z | f | s | l | d]; run_pump;
    try (intros [= _ <-]; reflexivity).
  - destruct (contains "sessionResumptionUpdate" s); run_pump; intros [= _ <-]; reflexivity.
  - destruct (existsb _ l); run_pump; intros [= _ <-]; reflexivity.
  - destruct (d !! "sessionResumptionUpdate") as [update |] eqn:Hupd; run_pump;
      [| intros [= _ <-]; reflexivity].
    destruct update as [| b | z | f | s | l | u]; run_pump;
      try (intros [= _ <-]; reflexivity).
    unfold dict_get.
    destruct (truthy (default PNone (u !! "resumable"))); run_pump;
      [| intros [= _ <-]; reflexivity].
    destruct (u !! "newHandle") as [h |]; run_pump; [| intros [= _ <-]; reflexivity].
    destruct (truthy h); run_pump; intros [= _ <-]; reflexivity.
Qed.

Lemma bind_inv {A B : Type} (c : M A) (k : A -> M B) st r st' :
  (c ≫= k) st = (r, st') ->
  (exists a st1, c st = (Ok a, st1) /\ k a st1 = (r, st'))
  \/ (exists e, c st = (Raise e, st') /\ r = Raise e).
Proof.
  unfold mbind, M_bind. destruct (c st) as [[a | e] st1].
  - intros H. left. eauto.
  - intros [= <- <-]. right. eauto.
Qed.

Lemma bind_ok {A B : Type} (c : M A) (k : A -> M B) st a st1 :
  c st = (Ok a, st1) -> (c ≫= k) st = k a st1.
Proof. intros H. unfold mbind, M_bind. rewrite H. reflexivity. Qed.

Lemma handle_resumption_ok (d : gmap string pyval) :
  object_if_present (d !! "sessionResumptionUpdate") = true ->
  succeeds (handle_resumption (PDict d)).
Proof.
  intros Hwf st. unfold handle_resumption. run_pump.
  destruct (d !! "sessionResumptionUpdate") as [[| | | | | | u] |];
    try discriminate; run_pump; [| eauto].
  unfold dict_get.
  destruct (truthy (default PNone (u !! "resumable"))); run_pump; [| eauto].
  destruct (u !! "newHandle") as [h |]; run_pump; [| eauto].
  destruct (truthy h); run_pump; eauto.
Qed.

Lemma handle_go_away_ok (d : gmap string pyval) :
  object_if_present (d !! "goAway") = true ->
  succeeds (handle_go_away (PDict d)).
Proof.
  intros Hwf st. unfold handle_go_away. run_pump.
  destruct (d !! "goAway") as [[| | | | | | g] |];
    try discriminate; run_pump; eauto.
Qed.

Lemma log_content_ok (d : gmap string pyval) :
  match d !! "serverContent" with
  | None => true
  | Some (PDict content) =>
      object_if_present (content !! "outputTranscription")
      && object_if_present (content !! "inputTranscription")
  | Some _ => false
  end = true ->
  succeeds (log_content (PDict d)).
Proof.
  intros Hwf st. unfold log_content. run_pump.
  destruct (d !! "serverContent") as [[| | | | | | c] |];
    try discriminate; run_pump.
  - apply andb_true_iff in Hwf as [Hout Hin].
    destruct (c !! "modelTurn"); run_pump;
      (destruct (c !! "outputTranscription") as [[| | | | | | o] |];
       try discriminate; run_pump);
      (destruct (c !! "inputTranscription") as [[| | | | | | i] |];
       try discriminate; run_pump);
      try (destruct (truthy (dict_get i "isFinal" (PBool false))); run_pump);
      destruct (c !! "generationComplete"); run_pump; eauto.
  - destruct (d !! "setupComplete"); run_pump; eauto.
Qed.

(** What one message does to the handle, whatever the message. *)
Lemma on_message_handle (a : arrival) st r st' :
  on_message a st = (r, st') ->
  session_handle st' = next_handle (session_handle st) a.
Proof.
  unfold on_message, next_handle, resumable_handle. intros Hrun.
  apply bind_inv in Hrun as [(u & st1 & Htick & Hrun) | (e & Htick & _)];
    [| discriminate].
  injection Htick as _ <-.
  apply bind_inv in Hrun as [(data & st2 & Hload & Hrun) | (e & Hload & _)].
  - unfold lift in Hload. injection Hload as Hload <-.
    destruct (a_frame a) as [payload [data' |] | text]; try discriminate.
    injection Hload as ->.
    apply bind_inv in Hrun as [(? & st3 & Hres & Hrun) | (e & Hres & _)];
      apply handle_resumption_handle in Hres; simpl in Hres; [| exact Hres].
    rewrite <- Hres.
    apply bind_inv in Hrun as [(? & st4 & Hgo & Hrun) | (e & Hgo & _)];
      apply handle_go_away_same_handle in Hgo; [| exact Hgo].
    rewrite <- Hgo.
    apply bind_inv in Hrun as [(? & st5 & Hlog & Hrun) | (e & Hlog & _)];
      apply log_content_same_handle in Hlog; [| exact Hlog].
    rewrite <- Hlog.
    apply bind_inv in Hrun as [(text & st6 & Hdec & Hrun) | (e & Hdec & _)];
      unfold lift in Hdec; injection Hdec as _ <-; [| reflexivity].
    apply send_text_same_handle in Hrun. exact Hrun.
  - unfold lift in Hload. injection Hload as Hload <-.
    destruct (a_frame a) as [payload [data' |] | text]; try discriminate; reflexivity.
Qed.

(** A well-formed message is forwarded as it came while the client is
    there. *)
Lemma on_message_forwards (a : arrival) st :
  well_formed (a_frame a) = true ->
  a_client_open a = true ->
  a_timed_out a = false ->
  exists st',
    on_message a st = (Ok tt, st')
    /\ forwarded st' = forwarded st ++ [payload_of (a_frame a)].
Proof.
  intros Hwf Hopen Hlive. unfold on_message.
  destruct (a_frame a) as [payload [[| | | | | | d] |] | text]; try discriminate.
  simpl in Hwf. apply andb_true_iff in Hwf as [Hwf Hcontent].
  apply andb_true_iff in Hwf as [Hupdate Hgo].
  set (st1 := snd (tick st)).
  rewrite (bind_ok tick _ st tt st1) by reflexivity.
  rewrite (bind_ok (lift (loads _)) _ st1 (PDict d) st1) by reflexivity.
  destruct (handle_resumption_ok d Hupdate st1) as ([] & st2 & Hres).
  rewrite (bind_ok _ _ _ _ _ Hres).
  destruct (handle_go_away_ok d Hgo st2) as ([] & st3 & Hgo').
  rewrite (bind_ok _ _ _ _ _ Hgo').
  destruct (log_content_ok d Hcontent st3) as ([] & st4 & Hlog).
  rewrite (bind_ok _ _ _ _ _ Hlog).
  rewrite (bind_ok (lift (decode _)) _ st4 payload st4) by reflexivity.
  unfold send_text. rewrite Hopen, Hlive. eexists. split; [reflexivity |]. simpl.
  apply handle_resumption_same_forwarded in Hres.
  apply handle_go_away_same_forwarded in Hgo'.
  apply log_content_same_forwarded in Hlog.
  unfold same_forwarded in *. rewrite Hlog, Hgo', Hres. reflexivity.
Qed.

(** A message that does not get past [json.loads] changes nothing but the
    message counter. *)
Lemma on_message_unparsable (a : arrival) st :
  loads (a_frame a) = Raise OtherError ->
  on_message a st = (Raise OtherError, snd (tick st)).
Proof.
  intros Hload. unfold on_message.
  rewrite (bind_ok tick _ st tt (snd (tick st))) by reflexivity.
  unfold mbind, M_bind, lift. rewrite Hload. reflexivity.
Qed.

(** The pump after one more message. *)
Lemma server2client_from_nil (st : pump) (ending : closing) :
  server2client_from st [] ending
  = match ending with
    | closed_error => log_error st
    | _ => st
    end.
Proof. destruct ending; reflexivity. Qed.

Lemma server2client_from_cons (a : arrival) (rest : list arrival) (st : pump)
    (ending : closing) :
  server2client_from st (a :: rest) ending
  = match on_message a st with
    | (Ok _, st') => server2client_from st' rest ending
    | (Raise Cancelled, st') => st'
    | (Raise _, st') => log_error st'
    end.
Proof.
  unfold server2client_from. cbn [server2client_run].
  destruct (on_message a st) as [[[] | []] st']; reflexivity.
Qed.

(** C4, as the code has it. A message that fails to parse is logged as an
    error and ends the pump: neither that message nor any message after
    it is forwarded, and the stored handle stays as it was. *)
Theorem unparsable_message_stops_pump (st : pump) (payload : string)
    (client_open timed_out : bool) (rest : list arrival) (ending : closing) :
  let st' := server2client_from st
               ({| a_frame := BinaryFrame payload None; a_client_open := client_open;
                   a_timed_out := timed_out |}
                  :: rest) ending in
  logged st' = logged st ++ [ErrorServer2Client]
  /\ forwarded st' = forwarded st
  /\ session_handle st' = session_handle st
  /\ msg_count st' = msg_count st + 1.
Proof.
  cbv zeta. rewrite server2client_from_cons.
  rewrite on_message_unparsable by reflexivity. simpl. auto.
Qed.

(** The claim at a concrete input: upstream sends bytes that are not JSON
    and then a setup acknowledgement. Nothing reaches the client, although
    the acknowledgement alone would have been forwarded. *)
Lemma unparsable_message_counterexample :
  forwarded (server2client [msg_garbage; msg_setup_complete] closed_ok) = []
  /\ logged (server2client [msg_garbage; msg_setup_complete] closed_ok)
     = [ErrorServer2Client]
  /\ forwarded (server2client [msg_setup_complete] closed_ok)
     = [payload_of (a_frame msg_setup_complete)].
Proof. vm_compute. repeat split. Qed.

(** The pump only ever sets the handle to one that a message of the
    traffic carried. *)
Lemma server2client_handle_origin (arrivals : list arrival) (ending : closing) (st : pump) :
  session_handle (server2client_from st arrivals ending) = session_handle st
  \/ exists a, In a arrivals
               /\ resumable_handle (a_frame a)
                  = Some (session_handle (server2client_from st arrivals ending)).
Proof.
  revert st. induction arrivals as [| a rest IH]; intros st.
  - left. rewrite server2client_from_nil. destruct ending; reflexivity.
  - rewrite server2client_from_cons.
    destruct (on_message a st) as [[[] | e] st1] eqn:Hrun;
      pose proof (on_message_handle _ _ _ _ Hrun) as Hh;
      unfold next_handle in Hh.
    + destruct (IH st1) as [Hsame | (b & Hin & Hb)].
      * rewrite Hsame, Hh.
        destruct (resumable_handle (a_frame a)) as [h |] eqn:Hres; simpl.
        -- right. exists a. split; [left; reflexivity | exact Hres].
        -- left. reflexivity.
      * right. exists b. split; [right; exact Hin | exact Hb].
    + assert (Hend : session_handle
                       match e with
                       | Cancelled => st1
                       | _ => log_error st1
                       end = session_handle st1) by (destruct e; reflexivity).
      rewrite Hend, Hh.
      destruct (resumable_handle (a_frame a)) as [h |] eqn:Hres; simpl.
      * right. exists a. split; [left; reflexivity | exact Hres].
      * left. reflexivity.
Qed.

(** C5, as the code has it. Whatever the message, the handle after it is
    the new handle of its resumable update, and the old handle when it has
    none; so over any traffic the stored handle is the initial one or one
    that a resumable update carried. Traffic of well-formed messages
    reaching a connected client, termination notices included, is
    forwarded unchanged and in order. *)
Theorem resumption_handle_tracking :
  (forall a st r st',
      on_message a st = (r, st') ->
      session_handle st' = next_handle (session_handle st) a)
  /\ (forall arrivals ending st,
      session_handle (server2client_from st arrivals ending) = session_handle st
      \/ exists a, In a arrivals
                   /\ resumable_handle (a_frame a)
                      = Some (session_handle (server2client_from st arrivals ending)))
  /\ (forall arrivals st,
      Forall deliverable arrivals ->
      session_handle (server2client_from st arrivals closed_ok)
      = fold_left next_handle arrivals (session_handle st)
      /\ forwarded (server2client_from st arrivals closed_ok)
         = forwarded st ++ map (fun a => payload_of (a_frame a)) arrivals).
Proof.
  split; [exact on_message_handle | split; [exact server2client_handle_origin |]].
  intros arrivals. induction arrivals as [| a rest IH]; intros st Hall;
    cbn [fold_left map].
  - rewrite server2client_from_nil. split; [reflexivity | rewrite app_nil_r; reflexivity].
  - apply Forall_cons_iff in Hall as [(Hwf & Hopen & Hlive) Hrest].
    destruct (on_message_forwards a st Hwf Hopen Hlive) as (st1 & Hrun & Hfwd).
    rewrite server2client_from_cons, Hrun. destruct (IH st1 Hrest) as [Hh Hf].
    rewrite Hh, Hf, Hfwd, (on_message_handle _ _ _ _ Hrun), <- app_assoc.
    split; reflexivity.
Qed.

(** The scenario of the specification: a resumable update with handle
    [abc], then a termination notice. *)
Lemma resumption_handle_tracking_witness :
  session_handle (server2client [msg_resumable_abc; msg_go_away] closed_ok) = PStr "abc"
  /\ forwarded (server2client [msg_resumable_abc; msg_go_away] closed_ok)
     = [payload_of (a_frame msg_resumable_abc); payload_of (a_frame msg_go_away)].
Proof.
  destruct (proj2 (proj2 resumption_handle_tracking)
              [msg_resumable_abc; msg_go_away] pump_init) as [Hh Hf].
  - repeat constructor.
  - split; [exact Hh | exact Hf].
Defined.

(** The claim at a concrete input: a termination notice whose payload is
    a bare string is not a resumable update, yet it is not forwarded; the
    pump logs an error and stops, with the handle kept. *)
Lemma bare_go_away_counterexample :
  resumable_handle (a_frame msg_go_away_bare) = None
  /\ session_handle (server2client [msg_resumable_abc; msg_go_away_bare] closed_ok)
     = PStr "abc"
  /\ forwarded (server2client [msg_resumable_abc; msg_go_away_bare] closed_ok)
     = [payload_of (a_frame msg_resumable_abc)]
  /\ logged (server2client [msg_resumable_abc; msg_go_away_bare] closed_ok)
     = [DebugHandleUpdated; ErrorServer2Client].
Proof. vm_compute. repeat split. Qed.

(** ** Sessions and latency telemetry *)

Lemma update_one_absent (session_id : string) (f : session -> session) (db : sessions) :
  find_one session_id db = None -> update_one session_id f db = db.
Proof.
  unfold find_one. induction db as [| s rest IH]; simpl; [reflexivity |].
  destruct (has_id session_id s); [discriminate |].
  intros Hnone. rewrite IH by exact Hnone. reflexivity.
Qed.

Lemma encode_entry_ok (now u a : Z) :
  encodable u a = true ->
  encode_entry now u a (a - u)
  = Ok {| l_timestamp := bson_datetime now; userEndTime := u; aiStartTime := a;
          latencyMs := a - u |}.
Proof.
  unfold encodable, encode_entry, bson_int. intros H.
  apply andb_true_iff in H as [H Hl]. apply andb_true_iff in H as [Hu Ha].
  rewrite Hu, Ha, Hl. reflexivity.
Qed.

Lemma encode_entry_refused (now u a : Z) :
  encodable u a = false -> encode_entry now u a (a - u) = Raise OtherError.
Proof.
  unfold encodable, encode_entry, bson_int. intros H.
  destruct (fits_int64 u); [| reflexivity].
  destruct (fits_int64 a); [| reflexivity].
  destruct (fits_int64 (a - u)); [discriminate | reflexivity].
Qed.

(** A call the driver refuses stores nothing, whatever the session id. *)
Lemma log_latency_refused (now : Z) (session_id : string) (u a : Z) (db : sessions) :
  encodable u a = false ->
  log_latency now session_id u a db = (Raise OtherError, db).
Proof.
  intros H. unfold log_latency. rewrite (encode_entry_refused now u a H). reflexivity.
Qed.

(** C10, as the code has it. For a session id without a session document
    the collection is left as it was, whatever the times: no document is
    created or changed, and nothing fails for want of the session. When
    the two times and their difference fit in 8 bytes, [log_latency]
    returns [ai_start_time - user_end_time] like for any other id, and
    the route that wraps it answers with that latency; otherwise the
    driver refuses the log entry and the call raises. *)
Theorem log_latency_unknown_session (now : Z) (session_id : string)
    (user_end_time ai_start_time : Z) (db : sessions) :
  find_one session_id db = None ->
  log_latency now session_id user_end_time ai_start_time db
  = (if encodable user_end_time ai_start_time
     then Ok (ai_start_time - user_end_time) else Raise OtherError, db)
  /\ log_latency_measurement now
       {| req_sessionId := session_id; req_userEndTime := user_end_time;
          req_aiStartTime := ai_start_time |} db
     = (if encodable user_end_time ai_start_time
        then Ok {| resp_latencyMs := ai_start_time - user_end_time;
                   resp_sessionId := session_id |}
        else Raise OtherError, db).
Proof.
  intros Hnone.
  assert (Hrun : log_latency now session_id user_end_time ai_start_time db
                 = (if encodable user_end_time ai_start_time
                    then Ok (ai_start_time - user_end_time) else Raise OtherError, db)).
  { destruct (encodable user_end_time ai_start_time) eqn:Henc.
    - unfold log_latency. rewrite (encode_entry_ok now _ _ Henc).
      rewrite (update_one_absent _ _ _ Hnone), Hnone. reflexivity.
    - apply log_latency_refused, Henc. }
  split; [exact Hrun |].
  unfold log_latency_measurement. cbn [req_sessionId req_userEndTime req_aiStartTime].
  rewrite Hrun. destruct (encodable user_end_time ai_start_time); reflexivity.
Qed.

(** A collection holding one other session. *)
Lemma log_latency_unknown_session_witness :
  let db := snd (create_session 0 "id-1" "default" "s-1" []) in
  log_latency 7 "s-2" 1000 1450 db = (Ok 450, db).
Proof.
  intros db.
  apply (proj1 (log_latency_unknown_session 7 "s-2" 1000 1450 db eq_refl)).
Defined.

(** The claim at a concrete input: the route accepts any integer, and an
    [aiStartTime] of [2^63] makes the call raise instead of returning the
    latency. *)
Lemma unknown_session_overflow_counterexample :
  log_latency 0 "nope" 0 (2 ^ 63) [] = (Raise OtherError, [])
  /\ log_latency_measurement 0
       {| req_sessionId := "nope"; req_userEndTime := 0; req_aiStartTime := 2 ^ 63 |} []
     = (Raise OtherError, []).
Proof. split; reflexivity. Qed.

(** ** True division followed by [int] *)

(** For a numerator below [2^53] the exponent is not positive, and unless
    it is the subnormal one the scaled quotient has 53 bits. *)
Lemma quotient_exponent_small (a b : Z) :
  0 < a < 2 ^ 53 -> 0 < b ->
  let e := quotient_exponent a b in
  e <= 0 /\ float_emin <= e
  /\ (e = float_emin \/ 2 ^ 52 * b <= a * 2 ^ (- e)).
Proof.
  intros [Ha Ha53] Hb. unfold quotient_exponent, float_prec, float_emin.
  change (53 - 1) with 52.
  set (la := Z.log2 a). set (lb := Z.log2 b).
  assert (Hla : 0 <= la < 53).
  { split; [apply Z.log2_nonneg | apply Z.log2_lt_pow2; lia]. }
  assert (Hlb : 0 <= lb) by apply Z.log2_nonneg.
  destruct (Z.log2_spec a Ha) as [Ha_lo _]. fold la in Ha_lo.
  destruct (Z.log2_spec b Hb) as [_ Hb_hi]. fold lb in Hb_hi.
  set (e0 := la - lb - 52).
  assert (He0 : e0 <= 0) by (unfold e0; lia).
  unfold scaled_num, scaled_den.
  replace (Z.max 0 e0) with 0 by lia.
  replace (Z.max 0 (- e0)) with (- e0) by lia.
  rewrite Z.pow_0_r, Z.mul_1_r.
  (* a * 2^(-e0) >= 2^(52 + lb) *)
  assert (Hscale : 2 ^ 52 * 2 ^ lb <= a * 2 ^ (- e0)).
  { rewrite <- Z.pow_add_r by lia.
    replace (52 + lb) with (la + (- e0)) by (unfold e0; lia).
    rewrite Z.pow_add_r by lia.
    apply Z.mul_le_mono_nonneg_r; [apply Z.pow_nonneg; lia | exact Ha_lo]. }
  assert (Hpow : 0 < 2 ^ (- e0)) by (apply Z.pow_pos_nonneg; lia).
  rewrite Z.pow_succ_r in Hb_hi by lia.
  destruct (Z.ltb_spec (a * 2 ^ (- e0)) (2 ^ 52 * b)) as [Hlt | Hge].
  - split; [lia | split; [lia |]].
    destruct (Z.max_spec (e0 - 1) (-1074)) as [[Hcmp ->] | [Hcmp ->]]; [left; reflexivity |].
    right. replace (- (e0 - 1)) with (Z.succ (- e0)) by lia.
    rewrite Z.pow_succ_r by lia. nia.
  - split; [lia | split; [lia |]].
    destruct (Z.max_spec e0 (-1074)) as [[Hcmp ->] | [Hcmp ->]]; [left; reflexivity |].
    right. exact Hge.
Qed.

(** Rounding the scaled quotient and dropping the scale gives the integer
    quotient: below [2^53] rounding never reaches the next integer. *)
Lemma round_then_truncate (a b k : Z) :
  0 < a < 2 ^ 53 -> 0 < b -> 0 <= k ->
  (k = 1074 \/ 2 ^ 52 * b <= a * 2 ^ k) ->
  let m := round_half_even (a * 2 ^ k) b in
  0 <= m /\ m / 2 ^ k = a / b.
Proof.
  intros [Ha Ha53] Hb Hk Hbits.
  set (P := 2 ^ k). assert (HP : 0 < P) by (apply Z.pow_pos_nonneg; lia).
  assert (Hq : (a * P / b) / P = a / b).
  { rewrite Z.div_div by lia. rewrite Z.div_mul_cancel_r by lia. reflexivity. }
  pose proof (Z.div_mod (a * P) b ltac:(lia)) as Hdm.
  pose proof (Z.mod_pos_bound (a * P) b Hb) as Hr.
  assert (Hq0 : 0 <= a * P / b).
  { apply Z.div_pos; [apply Z.mul_nonneg_nonneg; lia | lia]. }
  assert (Hup : 2 * (a * P mod b) >= b -> (a * P / b + 1) / P = a / b).
  { intros Hhalf. set (q := a * P / b) in *. set (r := a * P mod b) in *.
    set (n := a / b) in *.
    pose proof (Z.div_mod q P ltac:(lia)) as Hqdm. rewrite Hq in Hqdm.
    pose proof (Z.mod_pos_bound q P HP) as Hs.
    set (s := q mod P) in *.
    destruct (Z.eq_dec s (P - 1)) as [Hlast | Hnot].
    - exfalso.
      assert (Hn0 : 0 <= n) by (apply Z.div_pos; lia).
      assert (Hq1 : q = P * (n + 1) - 1) by lia.
      set (t := (n + 1) * b - a).
      assert (Ht : P * t = b - r).
      { unfold t. rewrite Hq1 in Hdm. lia. }
      assert (Ht1 : 1 <= t).
      { destruct (Z_lt_le_dec 0 t) as [Hpos | Hneg]; [lia |].
        pose proof (Z.mul_nonneg_nonpos P t ltac:(lia) Hneg). lia. }
      assert (HbP : 2 * P <= b).
      { pose proof (Z.mul_le_mono_nonneg_l 1 t P ltac:(lia) Ht1). lia. }
      destruct Hbits as [-> | Hbits].
      + assert (HP53 : 2 ^ 53 <= P).
        { unfold P. apply Z.pow_le_mono_r; lia. }
        assert (Hqlow : P - 1 <= q).
        { pose proof (Z.mul_nonneg_nonneg P n ltac:(lia) Hn0). lia. }
        pose proof (Z.mul_le_mono_nonneg (2 * P) b (P - 1) q
                      ltac:(lia) HbP ltac:(lia) Hqlow) as Hbq.
        assert (Hlow : (2 * (P - 1)) * P <= a * P) by lia.
        apply Z.mul_le_mono_pos_r in Hlow; lia.
      + fold P in Hbits.
        assert (Hlow : 2 ^ 53 * P <= a * P) by lia.
        apply Z.mul_le_mono_pos_r in Hlow; lia.
    - symmetry. apply Z.div_unique with (r := s + 1); [lia | lia]. }
  unfold round_half_even. fold P.
  destruct (Z.ltb_spec (2 * (a * P mod b)) b) as [Hlow | Hhigh].
  - split; [exact Hq0 | exact Hq].
  - destruct (Z.eqb_spec (2 * (a * P mod b)) b) as [Htie | Hnot].
    + destruct (Z.even (a * P / b)).
      * split; [exact Hq0 | exact Hq].
      * split; [lia | apply Hup; lia].
    + split; [lia | apply Hup; lia].
Qed.

Lemma make_float_then_int (s : bool) (m e : Z) :
  0 <= m -> e <= 0 ->
  make_float s m e ≫= py_int
  = Ok (if s then - (m / 2 ^ (- e)) else m / 2 ^ (- e)).
Proof.
  intros Hm He. unfold make_float, float_prec, float_emax.
  change (53 - 1) with 52. change (1024 - 53) with 971.
  destruct (Z.eqb_spec m (2 ^ 53)) as [-> | Hne].
  - change (2 ^ 52) with (Z.pos (2 ^ 52)%positive).
    destruct (Z.leb_spec (e + 1) 971) as [_ | Hbig]; [| lia].
    cbn [mbind result_bind py_int].
    change (Z.pos (2 ^ 52)%positive) with (2 ^ 52).
    assert (Hval : (if 0 <=? e + 1 then 2 ^ 52 * 2 ^ (e + 1)
                    else 2 ^ 52 / 2 ^ (- (e + 1))) = 2 ^ 53 / 2 ^ (- e)).
    { destruct (Z.leb_spec 0 (e + 1)) as [Hpos | Hneg].
      - assert (He' : e = 0 \/ e = -1) by lia.
        destruct He' as [-> | ->]; reflexivity.
      - replace (- e) with (Z.succ (- (e + 1))) by lia.
        rewrite Z.pow_succ_r by lia.
        change (2 ^ 53) with (2 * 2 ^ 52).
        rewrite Z.div_mul_cancel_l; [reflexivity | | lia].
        apply Z.pow_nonzero; lia. }
    rewrite Hval. reflexivity.
  - destruct m as [| p | p]; [| | lia].
    + cbn [mbind result_bind py_int]. rewrite Z.div_0_l.
      * destruct s; reflexivity.
      * apply Z.pow_nonzero; lia.
    + destruct (Z.leb_spec e 971) as [_ | Hbig]; [| lia].
      cbn [mbind result_bind py_int].
      destruct (Z.leb_spec 0 e) as [Hpos | Hneg].
      * assert (e = 0) as -> by lia. change (2 ^ (- 0)) with 1.
        rewrite Z.div_1_r, Z.mul_1_r. reflexivity.
      * reflexivity.
Qed.

(** Below [2^53] the float quotient truncates to the integer quotient. *)
Lemma truediv_then_int_pos (a b : Z) :
  0 < a < 2 ^ 53 -> 0 < b ->
  py_truediv a b ≫= py_int = Ok (a / b)
  /\ py_truediv (- a) b ≫= py_int = Ok (- (a / b)).
Proof.
  intros Ha Hb.
  destruct (quotient_exponent_small a b Ha Hb) as (He0 & Hemin & Hbits).
  set (e := quotient_exponent a b) in *.
  assert (Hk : - e = 1074 \/ 2 ^ 52 * b <= a * 2 ^ (- e)).
  { destruct Hbits as [-> | Hbits]; [left; reflexivity | right; exact Hbits]. }
  destruct (round_then_truncate a b (- e) Ha Hb ltac:(lia) Hk) as [Hm Hquot].
  assert (Hnum : scaled_num a e = a * 2 ^ (- e)).
  { unfold scaled_num. replace (Z.max 0 (- e)) with (- e) by lia. reflexivity. }
  assert (Hden : scaled_den b e = b).
  { unfold scaled_den. replace (Z.max 0 e) with 0 by lia. apply Z.mul_1_r. }
  unfold py_truediv.
  destruct (Z.eqb_spec b 0) as [-> | _]; [lia |].
  destruct (Z.eqb_spec a 0) as [-> | _]; [lia |].
  destruct (Z.eqb_spec (- a) 0) as [Hz | _]; [lia |].
  rewrite Z.abs_opp, (Z.abs_eq a), (Z.abs_eq b) by lia.
  fold e. rewrite Hnum, Hden.
  replace (a <? 0) with false by (symmetry; apply Z.ltb_ge; lia).
  replace (- a <? 0) with true by (symmetry; apply Z.ltb_lt; lia).
  replace (b <? 0) with false by (symmetry; apply Z.ltb_ge; lia).
  cbn [xorb].
  rewrite !make_float_then_int by assumption.
  rewrite Hquot. split; reflexivity.
Qed.

(** [int(a / b)] is the quotient truncated toward zero, as long as the
    numerator is below [2^53] in magnitude. *)
Lemma truediv_then_int (a b : Z) :
  Z.abs a < 2 ^ 53 -> 0 < b ->
  py_truediv a b ≫= py_int = Ok (Z.quot a b).
Proof.
  intros Ha Hb.
  destruct (Z.lt_trichotomy a 0) as [Hneg | [-> | Hpos]].
  - destruct (truediv_then_int_pos (- a) b ltac:(lia) Hb) as [_ H].
    rewrite Z.opp_involutive in H. rewrite H. f_equal.
    rewrite <- (Z.opp_involutive a) at 2.
    rewrite Z.quot_opp_l by lia. rewrite Z.quot_div_nonneg by lia. reflexivity.
  - unfold py_truediv.
    destruct (Z.eqb_spec b 0) as [-> | _]; [lia |]. reflexivity.
  - destruct (truediv_then_int_pos a b ltac:(lia) Hb) as [H _].
    rewrite H. rewrite Z.quot_div_nonneg by lia. reflexivity.
Qed.

(** ** Aggregates of the latency log *)

Lemma find_one_has_id (session_id : string) (db : sessions) (s : session) :
  find_one session_id db = Some s -> sessionId s = session_id.
Proof.
  intros H. apply find_some in H as [_ H]. apply String.eqb_eq, H.
Qed.

Lemma find_one_update_one (session_id : string) (f : session -> session)
    (db : sessions) (s : session) :
  (forall x, sessionId (f x) = sessionId x) ->
  find_one session_id db = Some s ->
  find_one session_id (update_one session_id f db) = Some (f s).
Proof.
  intros Hid. unfold find_one.
  induction db as [| x rest IH]; simpl; [discriminate |].
  destruct (has_id session_id x) eqn:Hx.
  - intros [= ->]. simpl. unfold has_id in *. rewrite Hid, Hx. reflexivity.
  - intros Hrest. simpl. rewrite Hx. apply IH, Hrest.
Qed.

Lemma py_max_spec (l : list Z) (x : Z) : is_max (py_max x l) (x :: l).
Proof.
  unfold py_max. revert x. induction l as [| y l IH]; intros x; simpl.
  - split; [left; reflexivity | repeat constructor; lia].
  - destruct (IH (Z.max x y)) as [Hin Hall].
    apply Forall_cons_iff in Hall as [Hxy Hall].
    split.
    + destruct Hin as [Heq | Hin]; [| right; right; exact Hin].
      rewrite <- Heq. destruct (Z.max_spec x y) as [[_ ->] | [_ ->]];
        [right; left | left]; reflexivity.
    + constructor; [lia | constructor; [lia | exact Hall]].
Qed.

Lemma py_min_spec (l : list Z) (x : Z) : is_min (py_min x l) (x :: l).
Proof.
  unfold py_min. revert x. induction l as [| y l IH]; intros x; simpl.
  - split; [left; reflexivity | repeat constructor; lia].
  - destruct (IH (Z.min x y)) as [Hin Hall].
    apply Forall_cons_iff in Hall as [Hxy Hall].
    split.
    + destruct Hin as [Heq | Hin]; [| right; right; exact Hin].
      rewrite <- Heq. destruct (Z.min_spec x y) as [[_ ->] | [_ ->]];
        [left | right; left]; reflexivity.
    + constructor; [lia | constructor; [lia | exact Hall]].
Qed.

Lemma quot_within (a n : Z) : 0 < n -> Z.abs (Z.quot a n) <= Z.abs a.
Proof.
  intros Hn. rewrite <- (Z.quot_abs a n) by lia.
  rewrite (Z.abs_eq n) by lia. rewrite Z.quot_div_nonneg by lia.
  apply Z.div_le_upper_bound; [lia |]. nia.
Qed.

Lemma fits_small (z : Z) : Z.abs z < 2 ^ 53 -> fits_int64 z = true.
Proof.
  intros H. unfold fits_int64. apply andb_true_iff.
  split; [apply Z.leb_le | apply Z.ltb_lt]; lia.
Qed.

(** The aggregates of a log of integers that fit are stored as they are
    computed. *)
Lemma encode_stats_ok (first : Z) (others : list Z) :
  Z.abs (py_sum (first :: others)) < 2 ^ 53 ->
  Forall (fun z => fits_int64 z = true) (first :: others) ->
  encode_stats (first :: others) first others
  = Ok (Z.quot (py_sum (first :: others)) (Z.of_nat (length (first :: others))),
        py_max first others, py_min first others).
Proof.
  intros Hsum Hfit. unfold encode_stats.
  rewrite truediv_then_int; [| exact Hsum | simpl length; lia].
  assert (Hn : 0 < Z.of_nat (length (first :: others))) by (simpl length; lia).
  pose proof (quot_within (py_sum (first :: others)) _ Hn) as Hq.
  cbn [mbind result_bind]. unfold bson_int.
  set (average := Z.quot _ _) in *.
  rewrite (fits_small average) by lia.
  destruct (py_max_spec others first) as [Hmax _].
  destruct (py_min_spec others first) as [Hmin _].
  pose proof (proj1 (List.Forall_forall _ _) Hfit) as Hall.
  rewrite (Hall _ Hmax), (Hall _ Hmin). reflexivity.
Qed.

(** Whatever else happens, a call on an existing session whose times fit
    appends its latency to the log of that session. *)
Lemma log_latency_appends (now : Z) (session_id : string) (u a : Z)
    (db : sessions) (s : session) :
  find_one session_id db = Some s ->
  encodable u a = true ->
  exists s',
    find_one session_id (snd (log_latency now session_id u a db)) = Some s'
    /\ latencies_of s' = latencies_of s ++ [a - u].
Proof.
  intros Hfind Henc. unfold log_latency. rewrite (encode_entry_ok now u a Henc).
  set (entry := {| l_timestamp := bson_datetime now; userEndTime := u;
                   aiStartTime := a; latencyMs := a - u |}).
  pose proof (find_one_update_one session_id (push_latency entry) db s
                (fun _ => eq_refl) Hfind) as Hpushed.
  rewrite Hpushed.
  assert (Hlog : latencies_of (push_latency entry s) = latencies_of s ++ [a - u]).
  { unfold latencies_of. simpl. rewrite map_app. reflexivity. }
  fold (latencies_of (push_latency entry s)).
  destruct (latencies_of (push_latency entry s)) as [| first others] eqn:Hl.
  - exists (push_latency entry s). split; [exact Hpushed | rewrite Hl; exact Hlog].
  - destruct (encode_stats _ _ _) as [[[average mx] mn] | e]; simpl.
    + eexists. split.
      * apply find_one_update_one; [reflexivity | exact Hpushed].
      * transitivity (latencies_of (push_latency entry s));
          [reflexivity | rewrite Hl; exact Hlog].
    + exists (push_latency entry s). split; [exact Hpushed | rewrite Hl; exact Hlog].
Qed.

Lemma log_latencies_appends (session_id : string) (calls : list insertion)
    (db : sessions) (s : session) :
  find_one session_id db = Some s ->
  Forall (fun call => encodable_call call = true) calls ->
  exists s',
    find_one session_id (log_latencies session_id calls db) = Some s'
    /\ latencies_of s' = latencies_of s ++ map latency_of calls.
Proof.
  revert db s. induction calls as [| [[now u] a] rest IH]; intros db s Hfind Hfit; simpl.
  - exists s. split; [exact Hfind | rewrite app_nil_r; reflexivity].
  - apply Forall_cons_iff in Hfit as [Hcall Hrest]. cbn [encodable_call] in Hcall.
    destruct (log_latency_appends now session_id u a db s Hfind Hcall)
      as (s1 & Hfind1 & Hl1).
    destruct (IH _ s1 Hfind1 Hrest) as (s2 & Hfind2 & Hl2).
    exists s2. split; [exact Hfind2 |].
    rewrite Hl2, Hl1, <- app_assoc. reflexivity.
Qed.

(** The latency of a call whose times fit is an integer that fits. *)
Lemma latencies_fit (calls : list insertion) :
  Forall (fun call => encodable_call call = true) calls ->
  Forall (fun z => fits_int64 z = true) (map latency_of calls).
Proof.
  induction 1 as [| [[now u] a] rest Hcall _ IH]; [constructor |].
  cbn [map latency_of]. constructor; [| exact IH].
  cbn [encodable_call] in Hcall. unfold encodable in Hcall.
  apply andb_true_iff in Hcall as [_ Hl]. exact Hl.
Qed.

(** One call on an existing session: the aggregates are recomputed from
    the whole log. *)
Lemma log_latency_recomputes (now : Z) (session_id : string) (u a : Z)
    (db : sessions) (s : session) :
  find_one session_id db = Some s ->
  encodable u a = true ->
  Forall (fun z => fits_int64 z = true) (latencies_of s) ->
  Z.abs (py_sum (latencies_of s ++ [a - u])) < 2 ^ 53 ->
  exists s',
    fst (log_latency now session_id u a db) = Ok (a - u)
    /\ find_one session_id (snd (log_latency now session_id u a db)) = Some s'
    /\ latencies_of s' = latencies_of s ++ [a - u]
    /\ averageLatencyMs s'
       = Z.quot (py_sum (latencies_of s')) (Z.of_nat (length (latencies_of s')))
    /\ is_max (maxLatencyMs s') (latencies_of s')
    /\ is_min (minLatencyMs s') (latencies_of s').
Proof.
  intros Hfind Henc Hfit Hsum. unfold log_latency.
  rewrite (encode_entry_ok now u a Henc).
  set (entry := {| l_timestamp := bson_datetime now; userEndTime := u;
                   aiStartTime := a; latencyMs := a - u |}).
  pose proof (find_one_update_one session_id (push_latency entry) db s
                (fun _ => eq_refl) Hfind) as Hpushed.
  rewrite Hpushed.
  assert (Hlog : latencies_of (push_latency entry s) = latencies_of s ++ [a - u]).
  { unfold latencies_of. simpl. rewrite map_app. reflexivity. }
  assert (Hfit' : Forall (fun z => fits_int64 z = true)
                    (latencies_of (push_latency entry s))).
  { rewrite Hlog. apply Forall_app. split; [exact Hfit |].
    constructor; [| constructor]. unfold encodable in Henc.
    apply andb_true_iff in Henc as [_ Hl]. exact Hl. }
  fold (latencies_of (push_latency entry s)). rewrite <- Hlog in Hsum.
  destruct (latencies_of (push_latency entry s)) as [| first others] eqn:Hl.
  - symmetry in Hlog. apply app_eq_nil in Hlog as [_ Hnil]. discriminate.
  - rewrite (encode_stats_ok first others Hsum Hfit').
    set (s' := set_stats (Z.quot (py_sum (first :: others))
                            (Z.of_nat (length (first :: others))))
                 (py_max first others) (py_min first others) (push_latency entry s)).
    assert (Hl' : latencies_of s' = first :: others) by exact Hl.
    exists s'. simpl fst. simpl snd. rewrite Hl'.
    split; [| split; [| split; [| split; [| split]]]].
    + reflexivity.
    + apply (find_one_update_one session_id
               (set_stats _ (py_max first others) (py_min first others)) _ _
               (fun _ => eq_refl) Hpushed).
    + exact Hlog.
    + reflexivity.
    + apply py_max_spec.
    + apply py_min_spec.
Qed.

(** C3, as the code has it. After every insertion into an existing
    session, whatever was inserted before, the stored maximum and minimum
    are the largest and smallest latency of the whole log, and the stored
    average is the sum divided by the count, truncated toward zero: the
    floor of the mean when the sum is not negative, and its ceiling when
    the sum is negative. This holds for times and latencies that fit in
    8 bytes, the integers the driver stores, and while the sum stays below
    [2^53] in magnitude, the range in which the float quotient is exact
    enough. *)
Theorem latency_stats_after_each_insertion (session_id : string) (db : sessions)
    (s : session) (calls : list insertion) (now u a : Z) :
  find_one session_id db = Some s ->
  Forall (fun z => fits_int64 z = true) (latencies_of s) ->
  Forall (fun call => encodable_call call = true) calls ->
  encodable u a = true ->
  Z.abs (py_sum (latencies_of s ++ map latency_of calls ++ [a - u])) < 2 ^ 53 ->
  exists s',
    fst (log_latency now session_id u a (log_latencies session_id calls db)) = Ok (a - u)
    /\ find_one session_id
         (snd (log_latency now session_id u a (log_latencies session_id calls db)))
       = Some s'
    /\ latencies_of s' = latencies_of s ++ map latency_of calls ++ [a - u]
    /\ averageLatencyMs s'
       = Z.quot (py_sum (latencies_of s')) (Z.of_nat (length (latencies_of s')))
    /\ (0 <= py_sum (latencies_of s') ->
        averageLatencyMs s'
        = py_sum (latencies_of s') / Z.of_nat (length (latencies_of s')))
    /\ (py_sum (latencies_of s') < 0 ->
        averageLatencyMs s'
        = - ((- py_sum (latencies_of s')) / Z.of_nat (length (latencies_of s'))))
    /\ is_max (maxLatencyMs s') (latencies_of s')
    /\ is_min (minLatencyMs s') (latencies_of s').
Proof.
  intros Hfind Hstored Hcalls Henc Hsum.
  destruct (log_latencies_appends session_id calls db s Hfind Hcalls)
    as (s1 & Hfind1 & Hl1).
  rewrite app_assoc, <- Hl1 in Hsum.
  assert (Hfit1 : Forall (fun z => fits_int64 z = true) (latencies_of s1)).
  { rewrite Hl1. apply Forall_app. split; [exact Hstored |].
    apply latencies_fit, Hcalls. }
  destruct (log_latency_recomputes now session_id u a _ s1 Hfind1 Henc Hfit1 Hsum)
    as (s' & Hret & Hfind' & Hl' & Havg & Hmax & Hmin).
  assert (Hn : 0 < Z.of_nat (length (latencies_of s'))).
  { rewrite Hl', length_app. simpl. lia. }
  exists s'. split; [exact Hret | split; [exact Hfind' |]].
  split; [rewrite Hl', Hl1, <- app_assoc; reflexivity |].
  split; [exact Havg |].
  split; [| split; [| split; [exact Hmax | exact Hmin]]].
  - intros Hpos. rewrite Havg. apply Z.quot_div_nonneg; [exact Hpos | exact Hn].
  - intros Hneg. rewrite Havg.
    rewrite <- (Z.opp_involutive (py_sum (latencies_of s'))) at 1.
    rewrite Z.quot_opp_l by lia. rewrite Z.quot_div_nonneg by lia. reflexivity.
Qed.

(** The scenario of the specification: latencies 450 and 550. *)
Lemma latency_stats_after_each_insertion_witness :
  let db := snd (create_session 0 "id-1" "default" "s-1" []) in
  exists s',
    find_one "s-1" (snd (log_latency 2 "s-1" 1600 2150 (log_latencies "s-1" [(1, 1000, 1450)] db)))
    = Some s'
    /\ latencies_of s' = [450; 550]
    /\ averageLatencyMs s' = 500
    /\ maxLatencyMs s' = 550
    /\ minLatencyMs s' = 450.
Proof.
  intros db.
  destruct (latency_stats_after_each_insertion "s-1" db
              (created_document (fst (create_session 0 "id-1" "default" "s-1" [])))
              [(1, 1000, 1450)] 2 1600 2150)
    as (s' & _ & Hfind & Hl & _ & _ & _ & _ & _).
  - reflexivity.
  - constructor.
  - repeat constructor.
  - reflexivity.
  - vm_compute. reflexivity.
  - exists s'. split; [exact Hfind |]. split; [exact Hl |].
    revert Hfind. vm_compute. intros [= <-]. repeat split.
Defined.

(** The claim at a concrete input: latencies -1 and 0. The stored average
    is 0, the floor of their mean is -1. *)
Lemma negative_latency_counterexample :
  let db := snd (create_session 0 "id-1" "default" "s-1" []) in
  let db' := snd (log_latency 2 "s-1" 2000 2000
                    (snd (log_latency 1 "s-1" 1000 999 db))) in
  (latencies_of <$> find_one "s-1" db') = Some [-1; 0]
  /\ (averageLatencyMs <$> find_one "s-1" db') = Some 0
  /\ py_sum [-1; 0] / 2 = -1.
Proof. vm_compute. repeat split. Qed.

(** Past [2^53] the float quotient is no longer exact: a single latency
    of [2^53 + 1] is stored with an average of [2^53]. *)
Example large_latency_average :
  let db := snd (create_session 0 "id-1" "default" "s-1" []) in
  let db' := snd (log_latency 1 "s-1" 0 (2 ^ 53 + 1) db) in
  (latencies_of <$> find_one "s-1" db') = Some [2 ^ 53 + 1]
  /\ (averageLatencyMs <$> find_one "s-1" db') = Some (2 ^ 53).
Proof. vm_compute. repeat split. Qed.

(** The float quotient of [py_truediv] agrees with the division of
    IEEE 754 binary64 numbers of the Standard Library: exact results,
    inexact ones, ties, subnormal numbers. *)
Example truediv_agrees_with_binary64 :
  Forall (fun '(a, b, x) =>
            py_truediv a b = Ok x
            /\ SFdiv 53 1024 (S754_finite false (Z.to_pos a) 0)
                 (S754_finite false (Z.to_pos b) 0) = x)
    [(1, 3, S754_finite false 6004799503160661 (-54));
     (1001, 2, S754_finite false 8804889115230208 (-44));
     (2 ^ 53 + 1, 1, S754_finite false 4503599627370496 1);
     (2 ^ 53 + 3, 1, S754_finite false 4503599627370498 1);
     (3, 2 ^ 1075, S754_finite false 2 (-1074))].
Proof. repeat (constructor; [vm_compute; split; reflexivity |]). constructor. Qed.

(** ** The websocket handler and the admission slot *)

Section HandlerFacts.

Variable MAX : Z.
Variable repr_other : pyval -> string.

Lemma releases_app (tr1 tr2 : list event) :
  releases (tr1 ++ tr2) = (releases tr1 + releases tr2)%nat.
Proof. unfold releases. rewrite List.filter_app, length_app. reflexivity. Qed.

Lemma acquisitions_app (tr1 tr2 : list event) :
  acquisitions (tr1 ++ tr2) = (acquisitions tr1 + acquisitions tr2)%nat.
Proof. unfold acquisitions. rewrite List.filter_app, length_app. reflexivity. Qed.

Lemma session_body_no_slot_events (sp : pyval) (w : world) :
  releases (fst (session_body sp w)) = 0%nat
  /\ acquisitions (fst (session_body sp w)) = 0%nat.
Proof.
  unfold session_body.
  destruct (w_connect w), (w_send_setup w), (w_relay w); split; reflexivity.
Qed.

Lemma except_clauses_no_slot_events (w : world) (r : result unit) :
  releases (fst (except_clauses w r)) = 0%nat
  /\ acquisitions (fst (except_clauses w r)) = 0%nat.
Proof.
  unfold except_clauses.
  destruct r as [| []]; try (split; reflexivity).
  destruct (w_close w) as [| []]; split; reflexivity.
Qed.

Lemma reject_releases_once (now : Z) (w : world) (m : ConnectionManager) :
  releases (snd (fst (reject now w m))) = 1%nat
  /\ acquisitions (snd (fst (reject now w m))) = 0%nat.
Proof. unfold reject. simpl. destruct (w_close w); split; reflexivity. Qed.

(** The slot is never released twice, and never released without having
    been acquired. *)
Lemma slot_released_at_most_once (now : Z) (w : world) (m : ConnectionManager)
    (p : provider) :
  let tr := snd (fst (fst (websocket_interview MAX repr_other now w m p))) in
  (releases tr <= acquisitions tr)%nat /\ (acquisitions tr <= 1)%nat.
Proof.
  cbv zeta. unfold websocket_interview.
  destruct (can_accept_connection MAX m); simpl;
    [| destruct (w_close w); split; vm_compute; lia].
  destruct (w_accept w); simpl; [| split; vm_compute; lia].
  destruct (resolve_config w) as [[config |] |]; simpl;
    [| | split; vm_compute; lia].
  - destruct (settings_and_prompt repr_other config) as [sp |]; simpl;
      [| split; vm_compute; lia].
    destruct (w_send_config w); simpl; [| split; vm_compute; lia].
    destruct (get_cached_token now (add_connection now m) p) as [[tok m1] p1] eqn:Htok.
    assert (Hrest :
      let r := if negb (truthy_token tok)
               then let '(end_, evs, m0) := reject now w m1 in
                    (end_, [EvAccept; EvAdd; EvSendConfig] ++ evs, m0, p1)
               else let '(evs1, r) := session_body sp w in
                    let '(evs2, r0) := except_clauses w r in
                    (ending_of r0,
                     [EvAccept; EvAdd; EvSendConfig] ++ evs1 ++ evs2 ++ [EvRemove],
                     remove_connection now m1, p1) in
      (releases (snd (fst (fst r))) <= acquisitions (snd (fst (fst r))))%nat
      /\ (acquisitions (snd (fst (fst r))) <= 1)%nat).
    { cbv zeta. destruct (negb (truthy_token tok)).
      - pose proof (reject_releases_once now w m1) as [Hr Ha].
        destruct (reject now w m1) as [[end_ evs] m0]. cbn [fst snd] in *.
        rewrite releases_app, acquisitions_app, Hr, Ha.
        split; vm_compute; lia.
      - pose proof (session_body_no_slot_events sp w) as [Hr1 Ha1].
        destruct (session_body sp w) as [evs1 r]. cbn [fst snd] in Hr1, Ha1.
        pose proof (except_clauses_no_slot_events w r) as [Hr2 Ha2].
        destruct (except_clauses w r) as [evs2 r0]. cbn [fst snd] in Hr2, Ha2.
        cbn [fst snd].
        rewrite !releases_app, !acquisitions_app, Hr1, Hr2, Ha1, Ha2.
        split; vm_compute; lia. }
    destruct (w_create_session w) as [| []]; try exact Hrest.
    split; vm_compute; lia.
  - destruct (w_close w); split; vm_compute; lia.
Qed.

(** Once the setup went through, the slot is released exactly once on
    every path: no configuration, no credential, and every outcome of
    the relay, whether it returns, raises or is cancelled. *)
Lemma slot_released_once_after_setup (now : Z) (w : world) (m : ConnectionManager)
    (p : provider) :
  can_accept_connection MAX m = true ->
  w_accept w = Ok tt ->
  resolve_config w = Ok None \/ setup_completes repr_other w ->
  let tr := snd (fst (fst (websocket_interview MAX repr_other now w m p))) in
  acquisitions tr = 1%nat /\ releases tr = 1%nat.
Proof.
  intros Hcap Hacc Hsetup. cbv zeta. unfold websocket_interview.
  rewrite Hcap, Hacc. cbn [negb].
  destruct Hsetup as [Hnone | (config & sp & Hconf & Hprompt & Hsend & Hsess)].
  - rewrite Hnone. unfold reject. destruct (w_close w); split; vm_compute; reflexivity.
  - rewrite Hconf, Hprompt, Hsend.
    destruct (get_cached_token now (add_connection now m) p) as [[tok m1] p1].
    assert (Hrest :
      let r := if negb (truthy_token tok)
               then let '(end_, evs, m0) := reject now w m1 in
                    (end_, [EvAccept; EvAdd; EvSendConfig] ++ evs, m0, p1)
               else let '(evs1, r) := session_body sp w in
                    let '(evs2, r0) := except_clauses w r in
                    (ending_of r0,
                     [EvAccept; EvAdd; EvSendConfig] ++ evs1 ++ evs2 ++ [EvRemove],
                     remove_connection now m1, p1) in
      acquisitions (snd (fst (fst r))) = 1%nat /\ releases (snd (fst (fst r))) = 1%nat).
    { cbv zeta. destruct (negb (truthy_token tok)).
      - pose proof (reject_releases_once now w m1) as [Hr Ha].
        destruct (reject now w m1) as [[end_ evs] m0]. cbn [fst snd] in *.
        rewrite releases_app, acquisitions_app, Hr, Ha. split; reflexivity.
      - pose proof (session_body_no_slot_events sp w) as [Hr1 Ha1].
        destruct (session_body sp w) as [evs1 r]. cbn [fst snd] in Hr1, Ha1.
        pose proof (except_clauses_no_slot_events w r) as [Hr2 Ha2].
        destruct (except_clauses w r) as [evs2 r0]. cbn [fst snd] in Hr2, Ha2.
        cbn [fst snd].
        rewrite !releases_app, !acquisitions_app, Hr1, Hr2, Ha1, Ha2.
        split; reflexivity. }
    destruct (w_create_session w) as [| []]; try exact Hrest.
    contradiction.
Qed.

End HandlerFacts.

(** A full session: the slot is taken and given back, and the count of
    active connections is what it was. *)
Example session_releases_slot :
  let '(end_, tr, m, _) :=
    websocket_interview 1000 (fun _ => EmptyString) 5 world_ok (new_manager 0) provider_ok in
  end_ = Returned /\ acquisitions tr = 1%nat /\ releases tr = 1%nat
  /\ active_connections m = 0.
Proof. vm_compute. repeat split. Qed.

(** C2 at a failing input: the configuration store is unreachable when
    the accepted client is looked up. The exception leaves the handler
    before its [try], so the slot taken by [add_connection] is never
    released and the count of active connections stays raised. *)
Theorem store_failure_keeps_slot :
  let '(end_, tr, m, _) :=
    websocket_interview 1000 (fun _ => EmptyString) 5 world_store_down
      (new_manager 0) provider_ok in
  end_ = Propagated OtherError
  /\ tr = [EvAccept; EvAdd]
  /\ acquisitions tr = 1%nat /\ releases tr = 0%nat
  /\ active_connections m = 1.
Proof. vm_compute. repeat split. Qed.

(** The same when the client disconnects before the configuration
    message is sent. *)
Example client_gone_keeps_slot :
  let '(end_, tr, m, _) :=
    websocket_interview 1000 (fun _ => EmptyString) 5 world_client_gone
      (new_manager 0) provider_ok in
  end_ = Propagated WebSocketDisconnect
  /\ acquisitions tr = 1%nat /\ releases tr = 0%nat
  /\ active_connections m = 1.
Proof. vm_compute. repeat split. Qed.

(** ** Concurrent handlers and the capacity bound *)

Section InterleavingFacts.

Variable MAX : Z.

Lemma handler_step_nonneg (now : Z) (i : nat) (s : system) :
  0 <= active_connections (sys_manager s) ->
  0 <= active_connections (sys_manager (handler_step MAX now i s)).
Proof.
  intros H. unfold handler_step.
  destruct (pc_of s i); simpl; try lia.
  destruct (can_accept_connection MAX (sys_manager s)); simpl; lia.
Qed.

(** Under every interleaving the count stays at or above zero. *)
Lemma run_schedule_nonneg (schedule : list (nat * Z)) (s : system) :
  0 <= active_connections (sys_manager s) ->
  0 <= active_connections (sys_manager (run_schedule MAX schedule s)).
Proof.
  unfold run_schedule. revert s.
  induction schedule as [| [i now] rest IH]; intros s H; simpl; [exact H |].
  apply IH, handler_step_nonneg, H.
Qed.

(** The admission scenario on the manager alone: at capacity the check
    fails, and after one release it passes again. *)
Lemma capacity_check (now : Z) (m : ConnectionManager) :
  0 < MAX ->
  active_connections m = MAX ->
  can_accept_connection MAX m = false
  /\ can_accept_connection MAX (remove_connection now m) = true.
Proof.
  intros Hpos Hfull. unfold can_accept_connection. simpl. rewrite Hfull.
  split; [apply Z.ltb_ge; lia | apply Z.ltb_lt; lia].
Qed.

(** A check and an increment that no other handler can separate keep
    the count within the capacity. *)
Lemma atomic_step_bounded (now : Z) (i : nat) (s : system) :
  0 <= active_connections (sys_manager s) <= MAX ->
  0 <= active_connections (sys_manager (atomic_step MAX now i s)) <= MAX.
Proof.
  intros H. unfold atomic_step.
  destruct (pc_of s i); simpl; try lia.
  unfold can_accept_connection.
  destruct (Z.ltb_spec (active_connections (sys_manager s)) MAX); simpl; lia.
Qed.

Lemma run_atomic_bounded (schedule : list (nat * Z)) (now : Z) :
  0 <= MAX ->
  0 <= active_connections (sys_manager (run_atomic MAX schedule (system_init now)))
    <= MAX.
Proof.
  intros Hmax. unfold run_atomic.
  assert (Hinit : 0 <= active_connections (sys_manager (system_init now)) <= MAX)
    by (simpl; lia).
  revert Hinit. generalize (system_init now) as s.
  induction schedule as [| [i t] rest IH]; intros s H; simpl; [exact H |].
  apply IH, atomic_step_bounded, H.
Qed.

Lemma run_schedule_app (l1 l2 : list (nat * Z)) (s : system) :
run_schedule MAX (l1 ++ l2) s = run_schedule MAX l2 (run_schedule MAX l1 s).
Proof. unfold run_schedule. apply fold_left_app. Qed.

(** The handlers [ids] take one step each, all of them from their entry
and with room left: all are cleared, and the manager is as before. *)
Lemma all_pass_the_check (ids : list nat) (s : system) :
NoDup ids ->
(forall i, In i ids -> sys_handlers s !! i = None) ->
can_accept_connection MAX (sys_manager s) = true ->
sys_manager (run_schedule MAX (map (fun i => (i, 0)) ids) s) = sys_manager s
/\ (forall i, In i ids ->
    sys_handlers (run_schedule MAX (map (fun i => (i, 0)) ids) s) !! i = Some Cleared)
/\ (forall j, ~ In j ids ->
    sys_handlers (run_schedule MAX (map (fun i => (i, 0)) ids) s) !! j
    = sys_handlers s !! j).
Proof.
revert s. induction ids as [| i rest IH]; intros s Hnodup Hfresh Hroom.
- split; [reflexivity | split; [intros i [] | reflexivity]].
- apply NoDup_cons in Hnodup as [Hi Hnodup].
  set (s1 := handler_step MAX 0 i s).
  assert (Hs1 : s1 = {| sys_manager := sys_manager s;
                        sys_handlers := <[i := Cleared]> (sys_handlers s) |}).
  { unfold s1, handler_step, pc_of. rewrite (Hfresh i) by (left; reflexivity).
    simpl. rewrite Hroom. reflexivity. }
  change (run_schedule MAX (map (fun i => (i, 0)) (i :: rest)) s)
    with (run_schedule MAX (map (fun i => (i, 0)) rest) s1).
  destruct (IH s1 Hnodup) as (Hman & Hin & Hout).
  + intros j Hj. rewrite Hs1. simpl.
    rewrite lookup_insert_ne by (intros ->; apply Hi, list_elem_of_In, Hj).
    apply Hfresh. right. exact Hj.
  + rewrite Hs1. exact Hroom.
  + split; [rewrite Hman, Hs1; reflexivity | split].
    * intros j [<- | Hj]; [| apply Hin, Hj].
      rewrite Hout by (intros Hj; apply Hi, list_elem_of_In, Hj).
      rewrite Hs1. simpl. apply lookup_insert_eq.
    * intros j Hj. rewrite Hout by (intros Hr; apply Hj; right; exact Hr).
      rewrite Hs1. simpl. apply lookup_insert_ne. intros ->. apply Hj. left. reflexivity.
Qed.

(** The cleared handlers [ids] take their next step: each registers its
connection, whatever the count has become. *)
Lemma all_register (ids : list nat) (s : system) :
NoDup ids ->
(forall i, In i ids -> sys_handlers s !! i = Some Cleared) ->
active_connections (sys_manager (run_schedule MAX (map (fun i => (i, 0)) ids) s))
= active_connections (sys_manager s) + Z.of_nat (length ids).
Proof.
revert s. induction ids as [| i rest IH]; intros s Hnodup Hcleared.
- simpl. lia.
- apply NoDup_cons in Hnodup as [Hi Hnodup].
  set (s1 := handler_step MAX 0 i s).
  assert (Hs1 : s1 = {| sys_manager := add_connection 0 (sys_manager s);
                        sys_handlers := <[i := Holding]> (sys_handlers s) |}).
  { unfold s1, handler_step, pc_of. rewrite (Hcleared i) by (left; reflexivity).
    reflexivity. }
  change (run_schedule MAX (map (fun i => (i, 0)) (i :: rest)) s)
    with (run_schedule MAX (map (fun i => (i, 0)) rest) s1).
  rewrite (IH s1 Hnodup).
  + rewrite Hs1. cbn [sys_manager add_connection active_connections length].
    lia.
  + intros j Hj. rewrite Hs1. simpl.
    rewrite lookup_insert_ne by (intros ->; apply Hi, list_elem_of_In, Hj).
    apply Hcleared. right. exact Hj.
Qed.

End InterleavingFacts.

(** C1 at failing inputs. Whatever the capacity, [n] handlers that all
pass the capacity check before any of them registers end up with [n]
active connections: with [n] above the capacity the count exceeds it. *)
Theorem admission_race_exceeds_capacity (MAX : Z) (n : nat) :
  0 < MAX ->
  active_connections
    (sys_manager (run_schedule MAX (race_schedule n) (system_init 0))) = Z.of_nat n.
Proof.
  intros Hmax. unfold race_schedule. rewrite run_schedule_app.
  destruct (all_pass_the_check MAX (seq 0 n) (system_init 0)) as (Hman & Hin & _).
  - apply NoDup_ListNoDup, seq_NoDup.
  - intros i _. apply lookup_empty.
  - apply Z.ltb_lt. simpl. exact Hmax.
  - rewrite all_register.
    + rewrite Hman, length_seq. simpl. lia.
    + apply NoDup_ListNoDup, seq_NoDup.
    + exact Hin.
Qed.

(** With room for one connection, two handlers that interleave hold two;
    with the default capacity of 1000, 1001 handlers hold 1001. When the
    check and the increment are one step, the second handler is turned
    away. *)
Lemma admission_race_exceeds_capacity_witness :
  active_connections
    (sys_manager (run_schedule 1000 (race_schedule 1001) (system_init 0))) = 1001
  /\ active_connections
       (sys_manager (run_schedule 1 [(0%nat, 0); (1%nat, 0); (0%nat, 0); (1%nat, 0)]
                       (system_init 0))) = 2
  /\ active_connections
       (sys_manager (run_atomic 1 [(0%nat, 0); (1%nat, 0)] (system_init 0))) = 1.
Proof.
  split; [| split].
  - apply (admission_race_exceeds_capacity 1000 1001). lia.
  - apply (admission_race_exceeds_capacity 1 2). lia.
  - vm_compute. reflexivity.
Defined.

(** ** The manager in sequential use *)

Lemma deque_append_length {A : Type} (q : list A) (x : A) :
  (length q <= history_maxlen)%nat ->
  length (deque_append history_maxlen q x) = Nat.min (S (length q)) history_maxlen.
Proof.
  intros Hq. unfold deque_append. rewrite length_app. cbn [length].
  destruct (Nat.ltb_spec history_maxlen (length q + 1)) as [Hfull | Hroom].
  - destruct q as [| y q]; cbn [length app tail] in *.
    + unfold history_maxlen in Hfull. lia.
    + rewrite length_app. cbn [length]. lia.
  - rewrite length_app. cbn [length]. lia.
Qed.

Lemma deque_append_last {A : Type} (q : list A) (x : A) :
  List.last (deque_append history_maxlen q x) x = x
  /\ exists front, deque_append history_maxlen q x = front ++ [x].
Proof.
  unfold deque_append. destruct q as [| y q].
  - split; [reflexivity | exists []; reflexivity].
  - destruct (Nat.ltb history_maxlen (length ((y :: q) ++ [x]))); cbn [app tail].
    + split; [apply last_last | exists q; reflexivity].
    + split; [apply (last_last (y :: q)) | exists (y :: q); reflexivity].
Qed.

Lemma apply_op_history_length (m : ConnectionManager) (op : manager_op) :
  (length (connection_history m) <= history_maxlen)%nat ->
  length (connection_history (apply_op m op))
  = Nat.min (S (length (connection_history m))) history_maxlen.
Proof. intros H. destruct op; simpl; apply deque_append_length, H. Qed.

(** Every call of [add_connection] and [remove_connection] leaves one
    entry in the history, and the history holds the latest 100 of them:
    after [n] calls on a fresh manager it has [min n 100] entries, and its
    last entry is the one of the last call, with the count of active
    connections that call produced. *)
Theorem connection_history_bounded (ops : list manager_op) (op : manager_op) (now : Z) :
  length (connection_history (apply_ops ops (new_manager now)))
  = Nat.min (length ops) 100
  /\ exists front entry,
       connection_history (apply_ops (ops ++ [op]) (new_manager now)) = front ++ [entry]
       /\ h_action entry = (if is_add op then connected else disconnected)
       /\ h_active entry
          = active_connections (apply_ops (ops ++ [op]) (new_manager now)).
Proof.
  split.
  - unfold apply_ops.
    assert (Hgen : forall m,
      (length (connection_history m) <= 100)%nat ->
      length (connection_history (fold_left apply_op ops m))
      = Nat.min (length ops + length (connection_history m)) 100).
    { induction ops as [| o rest IH]; intros m Hm; simpl.
      - lia.
      - rewrite IH.
        + rewrite apply_op_history_length by exact Hm.
          unfold history_maxlen. lia.
        + rewrite apply_op_history_length by exact Hm.
          unfold history_maxlen. lia. }
    rewrite Hgen by (simpl; lia). simpl. rewrite Nat.add_0_r. reflexivity.
  - unfold apply_ops. rewrite fold_left_app. simpl.
    set (m := fold_left apply_op ops (new_manager now)).
    destruct op as [t | t]; simpl.
    + destruct (deque_append_last (connection_history m)
                  {| h_timestamp := t; h_action := connected;
                     h_active := active_connections m + 1;
                     h_total := Some (total_connections m + 1) |}) as [_ [front Hf]].
      exists front. eexists. split; [exact Hf | split; reflexivity].
    + destruct (deque_append_last (connection_history m)
                  {| h_timestamp := t; h_action := disconnected;
                     h_active := Z.max 0 (active_connections m - 1);
                     h_total := None |}) as [_ [front Hf]].
      exists front. eexists. split; [exact Hf | split; reflexivity].
Qed.

(** Over any sequence of calls on a fresh manager the count of active
    connections stays between zero and the count of all connections ever
    accepted, and that count is the number of [add_connection] calls: a
    [remove_connection] without a connection to remove is absorbed. *)
Theorem manager_counters (ops : list manager_op) (now : Z) :
  let m := apply_ops ops (new_manager now) in
  0 <= active_connections m <= total_connections m
  /\ total_connections m = Z.of_nat (length (List.filter is_add ops)).
Proof.
  cbv zeta. unfold apply_ops.
  assert (Hgen : forall m,
    0 <= active_connections m <= total_connections m ->
    0 <= active_connections (fold_left apply_op ops m)
      <= total_connections (fold_left apply_op ops m)
    /\ total_connections (fold_left apply_op ops m)
       = total_connections m + Z.of_nat (length (List.filter is_add ops))).
  { induction ops as [| o rest IH]; intros m Hm; simpl.
    - lia.
    - destruct (IH (apply_op m o)) as [Hb Ht].
      + destruct o; simpl; lia.
      + split; [exact Hb |]. rewrite Ht. destruct o; simpl; lia. }
  destruct (Hgen (new_manager now)) as [Hb Ht]; [simpl; lia |].
  split; [exact Hb | rewrite Ht; simpl; lia].
Qed.

(** ** Statistics and health *)

Lemma before_dot_app (s t : string) :
  before_dot s = s -> before_dot (s +:+ t) = s +:+ before_dot t.
Proof.
  induction s as [| c s IH]; intros Hs; [reflexivity |].
  change (String c s +:+ t) with (String c (s +:+ t)).
  change (String c s +:+ before_dot t) with (String c (s +:+ before_dot t)).
  cbn [before_dot] in *. destruct (Ascii.eqb c "."); [discriminate |].
  injection Hs as Hs. rewrite IH by exact Hs. reflexivity.
Qed.

Lemma no_dot_app (s t : string) :
  before_dot s = s -> before_dot t = t -> before_dot (s +:+ t) = s +:+ t.
Proof. intros Hs Ht. rewrite before_dot_app by exact Hs. rewrite Ht. reflexivity. Qed.

Lemma string_of_uint_no_dot (d : Decimal.uint) :
  before_dot (NilEmpty.string_of_uint d) = NilEmpty.string_of_uint d.
Proof. induction d; simpl; [reflexivity | rewrite IHd; reflexivity ..]. Qed.

Lemma str_of_int_no_dot (z : Z) : before_dot (str_of_int z) = str_of_int z.
Proof.
  unfold str_of_int. destruct (Z.to_int z) as [d | d]; simpl.
  - apply string_of_uint_no_dot.
  - rewrite string_of_uint_no_dot. reflexivity.
Qed.

Lemma zeros_no_dot (n : nat) : before_dot (zeros n) = zeros n.
Proof. induction n as [| n IH]; simpl; [reflexivity | rewrite IH; reflexivity]. Qed.

Lemma pad_int_no_dot (w : nat) (z : Z) : before_dot (pad_int w z) = pad_int w z.
Proof. unfold pad_int. apply no_dot_app; [apply zeros_no_dot | apply str_of_int_no_dot]. Qed.

(** Dropping the microseconds of a [timedelta] keeps its days and
    seconds. *)
Lemma timedelta_whole_seconds (us : Z) :
  let whole := us - us mod 1000000 in
  td_days whole = td_days us
  /\ td_seconds whole = td_seconds us
  /\ td_microseconds whole = 0
  /\ us mod 1000000 = td_microseconds us.
Proof.
  cbv zeta. unfold td_days, td_seconds, td_microseconds.
  pose proof (Z.div_mod us 86400000000 ltac:(lia)) as Hd.
  pose proof (Z.mod_pos_bound us 86400000000 ltac:(lia)) as Hr.
  set (d := us / 86400000000) in *. set (r := us mod 86400000000) in *.
  pose proof (Z.div_mod r 1000000 ltac:(lia)) as Hs.
  pose proof (Z.mod_pos_bound r 1000000 ltac:(lia)) as Hm.
  set (sec := r / 1000000) in *. set (mu := r mod 1000000) in *.
  assert (Hmu : us mod 1000000 = mu).
  { symmetry. apply Z.mod_unique with (q := 86400 * d + sec); lia. }
  rewrite Hmu.
  assert (Hsec : 0 <= sec < 86400) by lia.
  assert (Hwd : (us - mu) / 86400000000 = d).
  { symmetry. apply Z.div_unique with (r := 1000000 * sec); lia. }
  assert (Hwr : (us - mu) mod 86400000000 = 1000000 * sec).
  { symmetry. apply Z.mod_unique with (q := d); lia. }
  rewrite Hwd, Hwr.
  repeat split.
  - symmetry. apply Z.div_unique with (r := 0); lia.
  - symmetry. apply Z.mod_unique with (q := sec); lia.
Qed.

Lemma append_empty_r (s : string) : s +:+ EmptyString = s.
Proof.
  induction s as [| c s IH]; [reflexivity |].
  change (String c s +:+ EmptyString) with (String c (s +:+ EmptyString)).
  rewrite IH. reflexivity.
Qed.

(** The text [str(timedelta)] puts in front of the microseconds. *)
Lemma str_timedelta_fraction (us : Z) :
  before_dot (str_timedelta us) = str_timedelta (us - us mod 1000000).
Proof.
  destruct (timedelta_whole_seconds us) as (Hd & Hs & Hm & _).
  unfold str_timedelta. rewrite Hd, Hs, Hm. cbn [Z.eqb].
  set (clock := str_of_int (td_seconds us / 60 / 60) +:+ ":"
                  +:+ pad_int 2 (td_seconds us / 60 mod 60) +:+ ":"
                  +:+ pad_int 2 (td_seconds us mod 60)).
  assert (Hclock : before_dot clock = clock).
  { unfold clock.
    repeat (apply no_dot_app;
            [first [apply str_of_int_no_dot | apply pad_int_no_dot | reflexivity] |]).
    apply pad_int_no_dot. }
  set (head := if td_days us =? 0 then clock
               else str_of_int (td_days us) +:+ " day"
                      +:+ (if Z.abs (td_days us) =? 1 then EmptyString else "s")
                      +:+ ", " +:+ clock).
  assert (Hhead : before_dot head = head).
  { unfold head. destruct (td_days us =? 0); [exact Hclock |].
    apply no_dot_app; [apply str_of_int_no_dot |].
    apply no_dot_app; [reflexivity |].
    apply no_dot_app; [destruct (Z.abs (td_days us) =? 1); reflexivity |].
    apply no_dot_app; [reflexivity | exact Hclock]. }
  destruct (td_microseconds us =? 0); [exact Hhead |].
  rewrite before_dot_app by exact Hhead.
  change (before_dot ("." +:+ pad_int 6 (td_microseconds us))) with EmptyString.
  apply append_empty_r.
Qed.

Section StatsFacts.

Variable MAX : Z.

(** [get_stats] for an uptime below [2^53] microseconds: the free slots
    and the active connections add up to the capacity, the uptime in
    seconds is the elapsed time cut to whole seconds, and the formatted
    uptime is the text of that whole number of seconds, without a
    fraction. *)
Theorem get_stats_consistent (now : Z) (m : ConnectionManager) :
  Z.abs (now - start_time m) < 2 ^ 53 ->
  exists s,
    get_stats MAX now m = Ok s
    /\ st_available_slots s + st_active_connections s = st_max_capacity s
    /\ st_max_capacity s = MAX
    /\ st_active_connections s = active_connections m
    /\ st_uptime_seconds s = Z.quot (now - start_time m) 1000000
    /\ st_uptime_formatted s
       = str_timedelta ((now - start_time m) - (now - start_time m) mod 1000000).
Proof.
  intros Hup. unfold get_stats, total_seconds.
  rewrite truediv_then_int by (exact Hup || lia).
  eexists. split; [reflexivity |]. simpl.
  repeat split; [lia | apply str_timedelta_fraction].
Qed.

End StatsFacts.

(** A manager started at instant 0 and read one day, one hour, one minute
    and one and a half seconds later. *)
Lemma get_stats_consistent_witness :
  exists s,
    get_stats 1000 90061500000 (new_manager 0) = Ok s
    /\ st_available_slots s = 1000
    /\ st_uptime_seconds s = 90061
    /\ st_uptime_formatted s = "1 day, 1:01:01".
Proof.
  destruct (get_stats_consistent 1000 90061500000 (new_manager 0))
    as (s & Hrun & Hslots & Hmax & Hact & Hsec & Hfmt).
  - vm_compute. reflexivity.
  - exists s. split; [exact Hrun |].
    simpl in Hact. rewrite Hact, Hmax in Hslots.
    split; [lia | split; [exact Hsec | exact Hfmt]].
Defined.

(** ** The handler: refusals, fallbacks and the count it leaves behind *)

Lemma get_cached_token_keeps_counts (now : Z) (m : ConnectionManager) (p : provider) :
  let m' := snd (fst (get_cached_token now m p)) in
  active_connections m' = active_connections m
  /\ total_connections m' = total_connections m
  /\ connection_history m' = connection_history m.
Proof.
  cbv zeta. unfold get_cached_token.
  destruct (_ && _); [repeat split |].
  destruct (get_access_token p) as [token p'].
  destruct (truthy_token token); repeat split.
Qed.

Section HandlerMore.

Variable MAX : Z.
Variable repr_other : pyval -> string.

(** A client that arrives at capacity is turned away with close code
    1008: it is not accepted, the manager is not touched, no
    configuration is looked up and no credential is asked for; and the
    health check says [at_capacity] at that moment. *)
Theorem at_capacity_is_refused (now : Z) (w : world) (m : ConnectionManager)
    (p : provider) :
  MAX <= active_connections m ->
  websocket_interview MAX repr_other now w m p
  = (ending_of (w_close w),
     match w_close w with Ok _ => [EvClose 1008] | Raise _ => [] end, m, p)
  /\ (forall t status s, health_check MAX t m = Ok (status, s) -> status = "at_capacity").
Proof.
  intros Hfull.
  assert (Hcap : can_accept_connection MAX m = false).
  { unfold can_accept_connection. apply Z.ltb_ge. exact Hfull. }
  split.
  - unfold websocket_interview. rewrite Hcap. reflexivity.
  - intros t status s. unfold health_check, get_stats.
    destruct (total_seconds _ ≫= py_int) as [secs |]; simpl; [| discriminate].
    unfold can_accept_connection in Hcap. rewrite Hcap.
    intros [= <- _]. reflexivity.
Qed.

(** Without a configuration for the token and without a default one the
    handler gives its slot back and closes with code 1011, before any
    credential is asked for. *)
Theorem no_configuration_closes (now : Z) (w : world) (m : ConnectionManager)
    (p : provider) :
  can_accept_connection MAX m = true ->
  w_accept w = Ok tt ->
  w_config w = Ok None ->
  w_default_config w = Ok None ->
  0 <= active_connections m ->
  exists m',
    websocket_interview MAX repr_other now w m p
    = (ending_of (w_close w),
       [EvAccept; EvAdd; EvRemove]
         ++ match w_close w with Ok _ => [EvClose 1011] | Raise _ => [] end,
       m', p)
    /\ active_connections m' = active_connections m
    /\ total_connections m' = total_connections m + 1.
Proof.
  intros Hcap Hacc Hconf Hdef Hpos.
  unfold websocket_interview, resolve_config. rewrite Hcap, Hacc, Hconf, Hdef.
  cbn. eexists. split; [reflexivity |]. simpl. lia.
Qed.

(** Whenever the handler gets through its setup, or finds no
    configuration, it leaves the count of active connections as it found
    it and has raised the count of all connections by one, however the
    session went. *)
Theorem handler_restores_count (now : Z) (w : world) (m : ConnectionManager)
    (p : provider) :
  can_accept_connection MAX m = true ->
  w_accept w = Ok tt ->
  resolve_config w = Ok None \/ setup_completes repr_other w ->
  0 <= active_connections m ->
  let m' := snd (fst (websocket_interview MAX repr_other now w m p)) in
  active_connections m' = active_connections m
  /\ total_connections m' = total_connections m + 1.
Proof.
  intros Hcap Hacc Hsetup Hpos. cbv zeta. unfold websocket_interview.
  rewrite Hcap, Hacc. cbn [negb].
  destruct Hsetup as [Hnone | (config & sp & Hconf & Hprompt & Hsend & Hsess)].
  - rewrite Hnone. unfold reject. simpl. lia.
  - rewrite Hconf, Hprompt, Hsend.
    pose proof (get_cached_token_keeps_counts now (add_connection now m) p)
      as (Ha & Ht & _).
    destruct (get_cached_token now (add_connection now m) p) as [[tok m1] p1].
    cbn [fst snd] in Ha, Ht. simpl in Ha, Ht.
    assert (Hrest :
      let r := if negb (truthy_token tok)
               then let '(end_, evs, m0) := reject now w m1 in
                    (end_, [EvAccept; EvAdd; EvSendConfig] ++ evs, m0, p1)
               else let '(evs1, r) := session_body sp w in
                    let '(evs2, r0) := except_clauses w r in
                    (ending_of r0,
                     [EvAccept; EvAdd; EvSendConfig] ++ evs1 ++ evs2 ++ [EvRemove],
                     remove_connection now m1, p1) in
      active_connections (snd (fst r)) = active_connections m
      /\ total_connections (snd (fst r)) = total_connections m + 1).
    { cbv zeta. destruct (negb (truthy_token tok)).
      - unfold reject. simpl. lia.
      - destruct (session_body sp w) as [evs1 r].
        destruct (except_clauses w r) as [evs2 r0]. simpl. lia. }
    destruct (w_create_session w) as [| []]; try exact Hrest.
    contradiction.
Qed.

(** A token without a configuration of its own is served exactly like a
    client that asked for the default configuration. *)
Theorem unknown_token_gets_default (now : Z) (w : world) (m : ConnectionManager)
    (p : provider) (d : gmap string pyval) :
  w_config w = Ok None ->
  w_default_config w = Ok (Some d) ->
  size d <> 0%nat ->
  websocket_interview MAX repr_other now w m p
  = websocket_interview MAX repr_other now (with_config w (Ok (Some d))) m p.
Proof.
  intros Hconf Hdef Hsize.
  assert (Hres : resolve_config w = resolve_config (with_config w (Ok (Some d)))).
  { unfold resolve_config. rewrite Hconf, Hdef. simpl.
    destruct (Nat.eqb_spec (size d) 0) as [Hz | _]; [contradiction | reflexivity]. }
  unfold websocket_interview. rewrite <- Hres. reflexivity.
Qed.

(** When no credential can be had the handler never opens the upstream
    connection: it asks the provider once, gives its slot back and closes
    with code 1011. *)
Theorem no_credential_closes (now : Z) (w : world) (m : ConnectionManager)
    (p : provider) :
  can_accept_connection MAX m = true ->
  w_accept w = Ok tt ->
  setup_completes repr_other w ->
  ~ cache_fresh now m ->
  truthy_token (answers p (calls p)) = false ->
  exists end_ m',
    websocket_interview MAX repr_other now w m p
    = (end_,
       [EvAccept; EvAdd; EvSendConfig; EvRemove]
         ++ match w_close w with Ok _ => [EvClose 1011] | Raise _ => [] end,
       m', snd (get_access_token p))
    /\ token_cache m' = token_cache m
    /\ token_expiry m' = token_expiry m.
Proof.
  intros Hcap Hacc (config & sp & Hconf & Hprompt & Hsend & Hsess) Hstale Hnone.
  unfold websocket_interview. rewrite Hcap, Hacc, Hconf, Hprompt, Hsend. cbn [negb].
  assert (Hstale' : ~ cache_fresh now (add_connection now m)).
  { intros (t & e & Ht & Hne & He & Hlt). apply Hstale. exists t, e. auto. }
  assert (Htok : get_cached_token now (add_connection now m) p
                 = (answers p (calls p), add_connection now m, snd (get_access_token p))).
  { unfold get_cached_token. rewrite (cache_stale_miss _ _ Hstale'). simpl.
    rewrite Hnone. reflexivity. }
  rewrite Htok, Hnone. cbn [negb]. unfold reject.
  destruct (w_create_session w) as [| []]; try contradiction;
    (eexists _, _; split; [reflexivity | split; reflexivity]).
Qed.

End HandlerMore.

Lemma at_capacity_is_refused_witness :
  websocket_interview 1 (fun _ => EmptyString) 5 world_ok
    (add_connection 0 (new_manager 0)) provider_ok
  = (Returned, [EvClose 1008], add_connection 0 (new_manager 0), provider_ok).
Proof.
  apply (proj1 (at_capacity_is_refused 1 (fun _ => EmptyString) 5 world_ok
                  (add_connection 0 (new_manager 0)) provider_ok ltac:(simpl; lia))).
Defined.

Lemma no_configuration_closes_witness :
  exists m',
    websocket_interview 1000 (fun _ => EmptyString) 5 world_no_config
      (new_manager 0) provider_ok
    = (Returned, [EvAccept; EvAdd; EvRemove; EvClose 1011], m', provider_ok)
    /\ active_connections m' = 0.
Proof.
  destruct (no_configuration_closes 1000 (fun _ => EmptyString) 5 world_no_config
              (new_manager 0) provider_ok) as (m' & Hrun & Ha & _).
  - reflexivity.
  - reflexivity.
  - reflexivity.
  - reflexivity.
  - simpl. lia.
  - exists m'. split; [exact Hrun | exact Ha].
Defined.

Lemma world_ok_setup_completes : setup_completes (fun _ => EmptyString) world_ok.
Proof.
  eexists _, _. split; [reflexivity |]. split; [vm_compute; reflexivity |].
  split; [reflexivity | discriminate].
Qed.

Lemma world_default_only_setup_completes :
  setup_completes (fun _ => EmptyString) world_default_only.
Proof.
  eexists _, _. split; [vm_compute; reflexivity |]. split; [vm_compute; reflexivity |].
  split; [reflexivity | discriminate].
Qed.

(** A session whose relay raises. *)
Lemma handler_restores_count_witness :
  let m' := snd (fst (websocket_interview 1000 (fun _ => EmptyString) 5
                        world_default_only (new_manager 0) provider_ok)) in
  active_connections m' = 0 /\ total_connections m' = 1.
Proof.
  apply (handler_restores_count 1000 (fun _ => EmptyString) 5 world_default_only
           (new_manager 0) provider_ok).
  - reflexivity.
  - reflexivity.
  - right. exact world_default_only_setup_completes.
  - simpl. lia.
Defined.

Lemma unknown_token_gets_default_witness :
  websocket_interview 1000 (fun _ => EmptyString) 5 world_default_only
    (new_manager 0) provider_ok
  = websocket_interview 1000 (fun _ => EmptyString) 5
      (with_config world_default_only (Ok (Some (scenario_config "indian-english"))))
      (new_manager 0) provider_ok.
Proof.
  apply (unknown_token_gets_default 1000 (fun _ => EmptyString) 5 world_default_only
           (new_manager 0) provider_ok (scenario_config "indian-english")).
  - reflexivity.
  - reflexivity.
  - vm_compute. discriminate.
Defined.

Lemma no_credential_closes_witness :
  exists end_ m',
    websocket_interview 1000 (fun _ => EmptyString) 5 world_ok (new_manager 0)
      provider_down
    = (end_, [EvAccept; EvAdd; EvSendConfig; EvRemove; EvClose 1011], m',
       snd (get_access_token provider_down)).
Proof.
  destruct (no_credential_closes 1000 (fun _ => EmptyString) 5 world_ok (new_manager 0)
              provider_down) as (end_ & m' & Hrun & _).
  - reflexivity.
  - reflexivity.
  - exact world_ok_setup_completes.
  - intros (t & e & Ht & _). discriminate.
  - reflexivity.
  - exists end_, m'. exact Hrun.
Defined.

(** ** Instruction assembly: failures, fallbacks and interpolation *)

Section PromptMore.

Variable repr_other : pyval -> string.

Lemma generate_returns_iff (config : gmap string pyval)
    (ai_settings proctoring : pyval) :
  let name := dict_get config "candidateName" (PStr EmptyString) in
  (exists t, generate_dynamic_prompt repr_other config ai_settings proctoring = Ok t)
  <-> is_dict ai_settings = true /\ is_dict proctoring = true
      /\ (truthy name = false \/ is_str name = true).
Proof.
  cbv zeta. unfold generate_dynamic_prompt, candidate_line_of. split.
  - intros [t Hrun].
    destruct ai_settings; try discriminate.
    destruct proctoring; try discriminate.
    split; [reflexivity | split; [reflexivity |]].
    cbn in Hrun.
    destruct (truthy (dict_get config "candidateName" (PStr EmptyString)));
      [right | left; reflexivity].
    destruct (dict_get config "candidateName" (PStr EmptyString));
      try discriminate. reflexivity.
  - intros (Ha & Hp & Hname).
    destruct ai_settings; try discriminate.
    destruct proctoring; try discriminate. cbn.
    destruct Hname as [Hfalsy | Hstr].
    + rewrite Hfalsy. eexists. reflexivity.
    + destruct (dict_get config "candidateName" (PStr EmptyString));
        try discriminate.
      cbn. destruct (negb (String.eqb s EmptyString)); eexists; reflexivity.
Qed.

(** [generate_dynamic_prompt] returns a text exactly when the AI settings
    and the proctoring settings are dictionaries and the candidate name
    is a string or false; in every other case it raises. *)
Theorem generate_dynamic_prompt_fails_iff (config : gmap string pyval)
    (ai_settings proctoring : pyval) :
  let name := dict_get config "candidateName" (PStr EmptyString) in
  (exists t, generate_dynamic_prompt repr_other config ai_settings proctoring = Ok t)
  <-> is_dict ai_settings = true /\ is_dict proctoring = true
      /\ (truthy name = false \/ is_str name = true).
Proof. exact (generate_returns_iff config ai_settings proctoring). Qed.

(** What [generate_dynamic_prompt] returns when it returns. *)
Lemma generate_dynamic_prompt_shape (config : gmap string pyval)
    (ai_settings proctoring : pyval) (t : string) :
  generate_dynamic_prompt repr_other config ai_settings proctoring = Ok t ->
  exists a p line,
    ai_settings = PDict a /\ proctoring = PDict p
    /\ candidate_line_of (dict_get config "candidateName" (PStr EmptyString)) = Ok line
    /\ t = assemble
             (lang_instruction_of (dict_get config "language" (PStr "indian-english")))
             (business_context
                (py_str repr_other (dict_get config "companyName" (PStr "the company")))
                (py_str repr_other (dict_get config "jobRole" (PStr "Software Engineer")))
                (py_str repr_other
                   (dict_get config "industryType" (PStr "Information Technology")))
                (py_str repr_other (dict_get config "country" (PStr "India")))
                (py_str repr_other (dict_get config "yearsOfExperience" (PStr "1-3")))
                line)
             (difficulty_guidance
                (exp_instruction_of (dict_get config "yearsOfExperience" (PStr "1-3"))))
             (proctoring_section_of (proctoring_rules_of p))
             (silence_handling
                (py_str repr_other (dict_get a "silenceWarning2Seconds" (PInt 50)))
                (py_str repr_other (dict_get config "durationMinutes" (PInt 30))))
             (closing_structure
                (py_str repr_other (dict_get a "maxQuestions" (PInt 10)))).
Proof.
  unfold generate_dynamic_prompt. intros Hrun.
  destruct ai_settings as [| | | | | | a]; try discriminate.
  destruct proctoring as [| | | | | | p]; try discriminate.
  cbn in Hrun.
  destruct (candidate_line_of (dict_get config "candidateName" (PStr EmptyString)))
    as [line |] eqn:Hline; [| discriminate].
  cbn in Hrun. injection Hrun as <-.
  exists a, p, line. repeat split.
Qed.

(** The text starts with the vernacular header exactly when the language
    is the string [casual-hindi]; for every other value, a missing one
    and [None] included, it starts with the Indian English header. *)
Theorem header_follows_language (config : gmap string pyval)
    (ai_settings proctoring : pyval) (t : string) :
  generate_dynamic_prompt repr_other config ai_settings proctoring = Ok t ->
  let language := dict_get config "language" (PStr "indian-english") in
  String.prefix lang_casual_hindi t = py_eq_str language "casual-hindi"
  /\ String.prefix lang_indian_english t = negb (py_eq_str language "casual-hindi").
Proof.
  intros Hrun. apply generate_dynamic_prompt_shape in Hrun
    as (a & p & line & _ & _ & _ & ->).
  cbv zeta. unfold assemble, lang_instruction_of.
  destruct (py_eq_str (dict_get config "language" (PStr "indian-english")) "casual-hindi").
  - split; [apply prefix_app | reflexivity].
  - split; [reflexivity | apply prefix_app].
Qed.

(** A detector rule is part of the proctoring section exactly when
    proctoring is enabled and the flag of the detector is true, a missing
    flag counting as true; so settings without any key give all four
    rules. *)
Theorem rule_follows_flag (p : gmap string pyval) (flag rule : string) :
  In (flag, rule) detector_rules ->
  contains rule (proctoring_section_of (proctoring_rules_of p))
  = truthy (dict_get p "enabled" (PBool true))
    && truthy (dict_get p flag (PBool true)).
Proof.
  intros Hin. unfold proctoring_rules_of, append_rule.
  destruct (truthy (dict_get p "enabled" (PBool true))).
  - destruct (truthy (dict_get p "detectMultiplePeople" (PBool true))) eqn:H1,
             (truthy (dict_get p "detectPhone" (PBool true))) eqn:H2,
             (truthy (dict_get p "detectLookingAway" (PBool true))) eqn:H3,
             (truthy (dict_get p "detectTabSwitch" (PBool true))) eqn:H4;
      simpl in Hin;
      destruct Hin as [[= <- <-] | [[= <- <-] | [[= <- <-] | [[= <- <-] | []]]]];
      rewrite ?H1, ?H2, ?H3, ?H4; vm_compute; reflexivity.
  - simpl in Hin.
    destruct Hin as [[= <- <-] | [[= <- <-] | [[= <- <-] | [[= <- <-] | []]]]];
      vm_compute; reflexivity.
Qed.

Lemma prefix_peel (a s t : string) :
  String.prefix s t = true -> String.prefix (a +:+ s) (a +:+ t) = true.
Proof.
  intros H. induction a as [| c a IH]; [exact H |].
  change (String c a +:+ s) with (String c (a +:+ s)).
  change (String c a +:+ t) with (String c (a +:+ t)).
  cbn [String.prefix]. destruct (Ascii.ascii_dec c c) as [_ | Hne];
    [exact IH | contradiction].
Qed.

Lemma prefix_app_l (s a b : string) :
  String.prefix s a = true -> String.prefix s (a +:+ b) = true.
Proof.
  revert a. induction s as [| c s IH]; intros a H.
  - destruct (a +:+ b); reflexivity.
  - destruct a as [| d a]; [discriminate |].
    change (String d a +:+ b) with (String d (a +:+ b)).
    cbn [String.prefix] in *. destruct (Ascii.ascii_dec c d); [| discriminate].
    apply IH, H.
Qed.

Lemma contains_of_prefix (s t : string) :
  String.prefix s t = true -> contains s t = true.
Proof. intros H. destruct t; cbn [contains]; rewrite H; reflexivity. Qed.

Lemma contains_app_l (s a b : string) :
  contains s a = true -> contains s (a +:+ b) = true.
Proof.
  induction a as [| c a IH]; intros H.
  - simpl in H. rewrite orb_false_r in H.
    apply contains_of_prefix. apply (prefix_app_l s EmptyString b H).
  - change (String c a +:+ b) with (String c (a +:+ b)).
    cbn [contains] in *. apply orb_true_iff in H as [H | H].
    + pose proof (prefix_app_l s (String c a) b H) as Hp.
      change (String c a +:+ b) with (String c (a +:+ b)) in Hp.
      rewrite Hp. reflexivity.
    + rewrite IH by exact H. apply orb_true_r.
Qed.

Lemma contains_refl (s : string) : contains s s = true.
Proof.
  apply contains_of_prefix. induction s as [| c s IH]; [reflexivity |].
  cbn [String.prefix]. destruct (Ascii.ascii_dec c c); [exact IH | contradiction].
Qed.

Lemma business_context_company (company job industry country experience line : string) :
  contains ("You are conducting a real-time technical interview for "
              +:+ company +:+ " for the position of " +:+ job +:+ ".")
    (business_context company job industry country experience line) = true.
Proof.
  unfold business_context. do 2 apply contains_app_r.
  apply contains_of_prefix.
  do 4 apply prefix_peel. apply prefix_app.
Qed.

Lemma business_context_line (company job industry country experience line : string) :
  contains line (business_context company job industry country experience line) = true.
Proof.
  unfold business_context. repeat apply contains_app_r. apply contains_refl.
Qed.

(** The generated text names the company and the position as they are
    stored, a stored [None] being spelled out as such, and it names the
    candidate when the stored name is a string that is not empty. *)
Theorem prompt_names_company_and_candidate (config : gmap string pyval)
    (ai_settings proctoring : pyval) (t : string) :
  generate_dynamic_prompt repr_other config ai_settings proctoring = Ok t ->
  contains ("You are conducting a real-time technical interview for "
              +:+ py_str repr_other (dict_get config "companyName" (PStr "the company"))
              +:+ " for the position of "
              +:+ py_str repr_other (dict_get config "jobRole" (PStr "Software Engineer"))
              +:+ ".") t = true
  /\ (forall name,
        config !! "candidateName" = Some (PStr name) -> name <> EmptyString ->
        contains ("The candidate's name is " +:+ name +:+ ".") t = true).
Proof.
  intros Hrun. apply generate_dynamic_prompt_shape in Hrun
    as (a & p & line & _ & _ & Hline & ->).
  unfold assemble.
  split.
  - apply contains_app_r, contains_app_l, business_context_company.
  - intros name Hname Hne. unfold dict_get in Hline. rewrite Hname in Hline.
    destruct name as [| c name]; [contradiction |].
    unfold candidate_line_of in Hline. cbn [truthy String.eqb negb str_concat3] in Hline.
    injection Hline as <-.
    apply contains_app_r, contains_app_l, business_context_line.
Qed.

(** The instruction and the message echoed to the client are built from
    the same duration and the same second silence warning: the values the
    client receives under [timing] are the ones the instruction tells the
    model about. *)
Theorem instruction_and_echo_agree (config : gmap string pyval)
    (session_id candidate_uuid t : string) :
  generate_dynamic_prompt repr_other config (dict_get config "aiSettings" (PDict ∅))
    (dict_get config "proctoring" (PDict ∅)) = Ok t ->
  exists message echo timing duration warning lang business difficulty section closing,
    config_message config session_id candidate_uuid = Ok message
    /\ message !! "config" = Some (PDict echo)
    /\ echo !! "timing" = Some (PDict timing)
    /\ timing !! "durationMinutes" = Some duration
    /\ timing !! "silenceWarning2Seconds" = Some warning
    /\ t = assemble lang business difficulty section
             (silence_handling (py_str repr_other warning) (py_str repr_other duration))
             closing.
Proof.
  intros Hrun. apply generate_dynamic_prompt_shape in Hrun
    as (a & p & line & Ha & _ & _ & ->).
  unfold config_message, timing_for_frontend, turn_detection_for_frontend.
  rewrite Ha. cbn [py_get mbind result_bind].
  eexists _, _, _, _, _, _, _, _, _, _.
  split; [reflexivity |].
  split; [rewrite lookup_insert_ne by discriminate; apply lookup_insert_eq |].
  split; [apply lookup_insert_eq |].
  split; [apply lookup_insert_eq |].
  split; [do 2 (rewrite lookup_insert_ne by discriminate); apply lookup_insert_eq |].
  reflexivity.
Qed.
End PromptMore.

(** A candidate name stored as a number makes the generation raise. *)
Lemma generate_dynamic_prompt_fails_iff_witness :
  (exists t, generate_dynamic_prompt (fun _ => EmptyString)
               (<["candidateName" := PStr "Asha"]> ∅) (PDict ∅) (PDict ∅) = Ok t)
  /\ ~ (exists t, generate_dynamic_prompt (fun _ => EmptyString)
                    (<["candidateName" := PInt 7]> ∅) (PDict ∅) (PDict ∅) = Ok t).
Proof.
  split.
  - apply (generate_dynamic_prompt_fails_iff (fun _ => EmptyString)
             (<["candidateName" := PStr "Asha"]> ∅) (PDict ∅) (PDict ∅)).
    split; [reflexivity | split; [reflexivity | right; vm_compute; reflexivity]].
  - intros H.
    apply (generate_dynamic_prompt_fails_iff (fun _ => EmptyString)
             (<["candidateName" := PInt 7]> ∅) (PDict ∅) (PDict ∅)) in H.
    destruct H as (_ & _ & [H | H]); vm_compute in H; discriminate.
Defined.

(** A language value in another letter case is not recognised. *)
Lemma header_follows_language_witness :
  exists t,
    generate_dynamic_prompt (fun _ => EmptyString)
      (<["language" := PStr "Casual-Hindi"]> ∅) (PDict ∅) (PDict ∅) = Ok t
    /\ String.prefix lang_casual_hindi t = false
    /\ String.prefix lang_indian_english t = true.
Proof.
  destruct (proj2 (generate_returns_iff (fun _ => EmptyString)
                     (<["language" := PStr "Casual-Hindi"]> ∅) (PDict ∅) (PDict ∅)))
    as [t Hrun].
  { split; [reflexivity | split; [reflexivity | left; vm_compute; reflexivity]]. }
  exists t. split; [exact Hrun |].
  exact (header_follows_language (fun _ => EmptyString) _ _ _ t Hrun).
Defined.

(** Proctoring settings without a single key. *)
Lemma rule_follows_flag_witness :
  contains rule_phone (proctoring_section_of (proctoring_rules_of ∅)) = true
  /\ contains rule_phone
       (proctoring_section_of
          (proctoring_rules_of (<["detectPhone" := PInt 0]> ∅))) = false.
Proof.
  split.
  - rewrite (rule_follows_flag ∅ "detectPhone" rule_phone);
      [reflexivity | right; left; reflexivity].
  - rewrite (rule_follows_flag (<["detectPhone" := PInt 0]> ∅) "detectPhone" rule_phone);
      [reflexivity | right; left; reflexivity].
Defined.

(** The seeded default configuration names its company but stores no
    candidate; a configuration with a null company. *)
Lemma prompt_names_company_and_candidate_witness :
  exists t,
    generate_dynamic_prompt (fun _ => EmptyString)
      (<["companyName" := PNone]> (<["candidateName" := PStr "Asha"]> ∅))
      (PDict ∅) (PDict ∅) = Ok t
    /\ contains ("You are conducting a real-time technical interview for None"
                  +:+ " for the position of Software Engineer.") t = true
    /\ contains "The candidate's name is Asha." t = true.
Proof.
  destruct (proj2 (generate_returns_iff (fun _ => EmptyString)
                     (<["companyName" := PNone]> (<["candidateName" := PStr "Asha"]> ∅))
                     (PDict ∅) (PDict ∅))) as [t Hrun].
  { split; [reflexivity | split; [reflexivity | right; vm_compute; reflexivity]]. }
  exists t. split; [exact Hrun |].
  destruct (prompt_names_company_and_candidate (fun _ => EmptyString) _ _ _ t Hrun)
    as [Hcompany Hname].
  split; [exact Hcompany |].
  apply (Hname "Asha"); [vm_compute; reflexivity | discriminate].
Defined.

(** A configuration with its own duration and silence warning. *)
Lemma instruction_and_echo_agree_witness :
  exists t message echo timing duration,
    generate_dynamic_prompt (fun _ => EmptyString) timed_config
      (dict_get timed_config "aiSettings" (PDict ∅))
      (dict_get timed_config "proctoring" (PDict ∅)) = Ok t
    /\ config_message timed_config "s-1" "c-1" = Ok message
    /\ message !! "config" = Some (PDict echo)
    /\ echo !! "timing" = Some (PDict timing)
    /\ timing !! "durationMinutes" = Some duration.
Proof.
  destruct (proj2 (generate_returns_iff (fun _ => EmptyString) timed_config
                     (dict_get timed_config "aiSettings" (PDict ∅))
                     (dict_get timed_config "proctoring" (PDict ∅)))) as [t Hrun].
  { split; [reflexivity | split; [reflexivity | left; vm_compute; reflexivity]]. }
  destruct (instruction_and_echo_agree (fun _ => EmptyString) timed_config "s-1" "c-1"
              t Hrun)
    as (message & echo & timing & d & w & _ & _ & _ & _ & _
        & Hmsg & Hecho & Htiming & Hd & _ & _).
  exists t, message, echo, timing, d. auto.
Defined.

(** ** The pumps: order, counts and logs *)

Lemma quiet_refl st : quiet st st.
Proof. split; reflexivity. Qed.

Lemma quiet_trans a b c : quiet a b -> quiet b c -> quiet a c.
Proof. unfold quiet. intros [] []. split; congruence. Qed.

Lemma emit_quiet ev : preserves quiet (emit ev).
Proof. intros st r st' [= _ <-]. split; reflexivity. Qed.

Lemma set_handle_quiet h : preserves quiet (set_handle h).
Proof. intros st r st' [= _ <-]. split; reflexivity. Qed.

Ltac step_quiet :=
  repeat first
    [ apply (preserves_bind quiet quiet_trans); [| intros ?]
    | apply preserves_if
    | apply (preserves_lift quiet quiet_refl)
    | apply (preserves_skip quiet quiet_refl)
    | apply (preserves_get_handle quiet quiet_refl)
    | apply emit_quiet
    | apply set_handle_quiet ].

Lemma handle_resumption_quiet data : preserves quiet (handle_resumption data).
Proof. unfold handle_resumption. step_quiet. Qed.

Lemma handle_go_away_quiet data : preserves quiet (handle_go_away data).
Proof. unfold handle_go_away. step_quiet. Qed.

Lemma log_content_quiet data : preserves quiet (log_content data).
Proof. unfold log_content. step_quiet. Qed.

(** One message is counted, and it is forwarded as it came or not at
    all. *)
Lemma on_message_effect (a : arrival) st r st' :
  on_message a st = (r, st') ->
  msg_count st' = msg_count st + 1
  /\ match r with
     | Ok _ => forwarded st' = forwarded st ++ [payload_of (a_frame a)]
     | Raise _ => forwarded st' = forwarded st
     end.
Proof.
  unfold on_message. intros Hrun.
  apply bind_inv in Hrun as [(u & st1 & Htick & Hrun) | (e & Htick & _)];
    [| discriminate].
  injection Htick as _ <-.
  apply bind_inv in Hrun as [(data & st2 & Hload & Hrun) | (e & Hload & ->)];
    unfold lift in Hload; injection Hload as Hload <-; [| split; reflexivity].
  apply bind_inv in Hrun as [(? & st3 & Hres & Hrun) | (e & Hres & ->)];
    apply handle_resumption_quiet in Hres as [Hf1 Hc1]; simpl in Hf1, Hc1;
    [| split; [lia | exact Hf1]].
  apply bind_inv in Hrun as [(? & st4 & Hgo & Hrun) | (e & Hgo & ->)];
    apply handle_go_away_quiet in Hgo as [Hf2 Hc2];
    [| split; [lia | congruence]].
  apply bind_inv in Hrun as [(? & st5 & Hlog & Hrun) | (e & Hlog & ->)];
    apply log_content_quiet in Hlog as [Hf3 Hc3];
    [| split; [lia | congruence]].
  apply bind_inv in Hrun as [(text & st6 & Hdec & Hrun) | (e & Hdec & ->)];
    unfold lift in Hdec; injection Hdec as Hdec <-;
    [| split; [lia | congruence]].
  unfold send_text in Hrun.
  destruct (a_frame a) as [payload parsed | text']; [| discriminate].
  injection Hdec as <-.
  destruct (a_client_open a), (a_timed_out a); injection Hrun as <- <-; simpl;
    (split; [lia | congruence]).
Qed.

(** Whatever upstream sends, the client receives the first [k] messages
    of the traffic, unchanged and in order, for some [k]: nothing is
    reordered, repeated or made up, and the message counter tells how many
    messages were taken from upstream. The only exception that leaves the
    pump is the cancellation by the timeout; when the pump ends without
    it and a message was left out, the pump has logged an error as its
    last act. *)
Theorem server2client_relays_prefix (arrivals : list arrival) (ending : closing)
    (st : pump) :
  exists k,
    (k <= length arrivals)%nat
    /\ forwarded (server2client_from st arrivals ending)
       = forwarded st ++ payloads (firstn k arrivals)
    /\ msg_count (server2client_from st arrivals ending)
       = msg_count st + Z.of_nat (Nat.min (S k) (length arrivals))
    /\ match fst (server2client_run st arrivals ending) with
       | Ok _ =>
           (k < length arrivals)%nat ->
           exists l, logged (server2client_from st arrivals ending)
                     = l ++ [ErrorServer2Client]
       | Raise e => e = Cancelled
       end.
Proof.
  revert st. induction arrivals as [| a rest IH]; intros st.
  - exists 0%nat. rewrite server2client_from_nil. cbn [server2client_run].
    split; [lia |]. split.
    + destruct ending; simpl; rewrite app_nil_r; reflexivity.
    + split; [destruct ending; simpl; lia |].
      destruct ending; cbn [fst]; [simpl; lia | simpl; lia | reflexivity].
  - rewrite server2client_from_cons. cbn [server2client_run].
    destruct (on_message a st) as [[[] | e] st1] eqn:Hrun;
      apply on_message_effect in Hrun as [Hcount Hfwd].
    + destruct (IH st1) as (k & Hk & Hf & Hc & Hlog).
      exists (S k). split; [simpl; lia |]. split.
      * rewrite Hf, Hfwd, <- app_assoc. reflexivity.
      * split; [rewrite Hc, Hcount; simpl length; lia |].
        destruct (fst (server2client_run st1 rest ending)); [| exact Hlog].
        intros Hlt. apply Hlog. simpl in Hlt. lia.
    + exists 0%nat. split; [simpl; lia |]. split.
      * simpl. rewrite app_nil_r. destruct e; exact Hfwd.
      * split; [destruct e; simpl; lia |].
        destruct e; cbn [fst]; try reflexivity; intros _; eexists; reflexivity.
Qed.

(** A resumable update, then a termination notice that is a bare string,
    then a setup acknowledgement: the first is forwarded, and the pump has
    logged an error at its end. *)
Lemma server2client_relays_prefix_witness :
  exists l,
    logged (server2client [msg_resumable_abc; msg_go_away_bare; msg_setup_complete]
              closed_ok)
    = l ++ [ErrorServer2Client].
Proof.
  destruct (server2client_relays_prefix
              [msg_resumable_abc; msg_go_away_bare; msg_setup_complete] closed_ok
              pump_init) as (k & Hk & Hf & _ & Hlog).
  assert (Hrun : fst (server2client_run pump_init
                        [msg_resumable_abc; msg_go_away_bare; msg_setup_complete]
                        closed_ok) = Ok tt) by (vm_compute; reflexivity).
  rewrite Hrun in Hlog. apply Hlog.
  destruct k as [| [| [| k]]]; [simpl; lia | simpl; lia | simpl; lia |].
  vm_compute in Hf. discriminate.
Defined.

(** A send cut by the timeout: the message is counted and not forwarded,
    no error is logged, and the cancellation leaves the pump. *)
Example timed_out_send_leaves_no_log :
  let cut := {| a_frame := a_frame msg_setup_complete; a_client_open := true;
                a_timed_out := true |} in
  server2client_run pump_init [cut] closed_ok
  = (Raise Cancelled,
     {| session_handle := PNone; msg_count := 1; forwarded := [];
        logged := [DebugSetupComplete] |}).
Proof. vm_compute. reflexivity. Qed.

Lemma client_turn_stopped (st : client_pump) (ev : client_event) :
  c_running st = false -> client_turn st ev = st.
Proof. intros H. unfold client_turn. rewrite H. reflexivity. Qed.

Lemma client_turns_stopped (events : list client_event) (st : client_pump) :
  c_running st = false -> fold_left client_turn events st = st.
Proof.
  induction events as [| ev rest IH]; intros H; simpl; [reflexivity |].
  rewrite client_turn_stopped by exact H. apply IH, H.
Qed.

(** One more chunk moves the count of hundreds exactly when it completes
    one. *)
Lemma hundreds_step (n : Z) :
  0 <= n ->
  (n + 1) / 100 = n / 100 + (if (n + 1) mod 100 =? 0 then 1 else 0).
Proof.
  intros Hn.
  pose proof (Z.div_mod n 100 ltac:(lia)) as Hdm.
  pose proof (Z.mod_pos_bound n 100 ltac:(lia)) as Hr.
  destruct (Z.eqb_spec ((n + 1) mod 100) 0) as [Hz | Hnz].
  - apply Z.mod_divide in Hz; [| lia]. destruct Hz as [q Hq].
    symmetry. apply Z.div_unique with (r := 0); lia.
  - symmetry. apply Z.div_unique with (r := n mod 100 + 1); [| lia].
    assert (n mod 100 + 1 <> 100); [| lia].
    intros Hfull. apply Hnz.
    apply Z.mod_divide; [lia |]. exists (n / 100 + 1). lia.
Qed.

Lemma client_texts_snoc (events : list client_event) (ev : client_event) :
  client_texts (events ++ [ev])
  = client_texts events
      ++ match ev with ClientText text _ _ => [text] | _ => [] end.
Proof. unfold client_texts. rewrite omap_app. destruct ev; reflexivity. Qed.

Lemma progress_logs_app (l1 l2 : list client_log) :
  Z.of_nat (length (List.filter is_progress_log (l1 ++ l2)))
  = Z.of_nat (length (List.filter is_progress_log l1))
    + Z.of_nat (length (List.filter is_progress_log l2)).
Proof. rewrite List.filter_app, length_app. lia. Qed.

Ltac split_invariant :=
  unfold client_invariant;
  cbn [client_stop c_audio_chunk_count c_logged c_sent c_running c_msg_count];
  split; [| split; [| split; [| split]]].

Lemma client_turn_invariant (events : list client_event) (ev : client_event)
    (st : client_pump) :
  client_invariant (client_texts events) st ->
  client_invariant (client_texts (events ++ [ev])) (client_turn st ev).
Proof.
  intros (Hchunks & Hlogs & [rest Hpre] & Hrun & Hcount).
  rewrite client_texts_snoc. unfold client_turn.
  destruct (c_running st) eqn:Hrunning; cbn [negb].
  2:{ split_invariant; try assumption.
      - exists (rest ++ match ev with ClientText text _ _ => [text] | _ => [] end).
        rewrite Hpre, <- app_assoc. reflexivity.
      - rewrite Hrunning. discriminate. }
  destruct (Hrun eq_refl) as [Hsent Hmsgs]. clear Hrun.
  destruct ev as [text [data |] up | |].
  - destruct (py_in "realtimeInput" data) as [is_media | e].
    + set (chunks := if is_media then c_audio_chunk_count st + 1
                     else c_audio_chunk_count st).
      set (entries := if is_media
                      then (if chunks mod 100 =? 0 then [DebugMediaChunks chunks] else [])
                      else [DebugBrowserMessage (c_msg_count st + 1)]).
      assert (Hchunks' : 0 <= chunks) by (unfold chunks; destruct is_media; lia).
      assert (Hlogs' :
        Z.of_nat (length (List.filter is_progress_log (c_logged st ++ entries)))
        = chunks / 100).
      { rewrite progress_logs_app, Hlogs. unfold entries, chunks. destruct is_media.
        - rewrite hundreds_step by exact Hchunks.
          destruct ((c_audio_chunk_count st + 1) mod 100 =? 0); reflexivity.
        - simpl. lia. }
      destruct up; split_invariant.
      * exact Hchunks'.
      * exact Hlogs'.
      * exists []. rewrite app_nil_r, Hsent. reflexivity.
      * intros _. rewrite Hsent, !length_app. simpl. split; [reflexivity | lia].
      * rewrite length_app. simpl. lia.
      * exact Hchunks'.
      * rewrite progress_logs_app. simpl. rewrite Z.add_0_r. exact Hlogs'.
      * exists [text]. rewrite Hsent. reflexivity.
      * discriminate.
      * rewrite Hsent. lia.
    + split_invariant.
      * exact Hchunks.
      * rewrite progress_logs_app. simpl. lia.
      * exists [text]. rewrite Hsent. reflexivity.
      * discriminate.
      * rewrite Hsent. lia.
  - split_invariant.
    + exact Hchunks.
    + rewrite progress_logs_app. simpl. lia.
    + exists [text]. rewrite Hsent. reflexivity.
    + discriminate.
    + rewrite Hsent. lia.
  - split_invariant.
    + exact Hchunks.
    + rewrite progress_logs_app. simpl. lia.
    + exists []. rewrite Hsent. reflexivity.
    + discriminate.
    + exact Hcount.
  - split_invariant.
    + exact Hchunks.
    + rewrite progress_logs_app. simpl. lia.
    + exists []. rewrite Hsent. reflexivity.
    + discriminate.
    + exact Hcount.
Qed.

Lemma client2server_invariant (events : list client_event) :
  client_invariant (client_texts events) (client2server events).
Proof.
  induction events as [| ev events IH] using rev_ind.
  - split_invariant; simpl; try lia; try reflexivity.
    + exists []. reflexivity.
    + intros _. split; reflexivity.
  - unfold client2server. rewrite fold_left_app. apply client_turn_invariant, IH.
Qed.

(** Whatever the client sends, upstream receives the first texts of it,
    unchanged and in order, and all of them while the pump still runs; at
    most the one message that stopped the pump was counted without being
    sent. The progress of the media stream is logged once per hundred
    chunks. *)
Theorem client2server_relays_prefix (events : list client_event) :
  let st := client2server events in
  (exists rest, client_texts events = c_sent st ++ rest)
  /\ (c_running st = true -> c_sent st = client_texts events)
  /\ Z.of_nat (length (c_sent st)) <= c_msg_count st <= Z.of_nat (length (c_sent st)) + 1
  /\ Z.of_nat (length (List.filter is_progress_log (c_logged st)))
     = c_audio_chunk_count st / 100.
Proof.
  cbv zeta.
  destruct (client2server_invariant events) as (_ & Hlogs & Hpre & Hrun & Hcount).
  split; [exact Hpre | split; [| split; [exact Hcount | exact Hlogs]]].
  intros H. apply Hrun, H.
Qed.

(** Once the client has disconnected, nothing it sends is looked at: the
    disconnect is logged as a debug message, not as an error. *)
Theorem client_disconnect_ends_pump (before after : list client_event) :
  c_running (client2server before) = true ->
  let st := client2server (before ++ ClientDisconnect :: after) in
  c_sent st = c_sent (client2server before)
  /\ c_logged st = c_logged (client2server before) ++ [DebugClientDisconnected]
  /\ c_running st = false.
Proof.
  intros Hrun. cbv zeta. unfold client2server in *.
  rewrite fold_left_app. cbn [fold_left].
  set (st := fold_left client_turn before client_pump_init) in *.
  assert (Hturn : client_turn st ClientDisconnect = client_stop DebugClientDisconnected st).
  { unfold client_turn. rewrite Hrun. reflexivity. }
  rewrite Hturn, client_turns_stopped by reflexivity.
  repeat split.
Qed.

(** A setup message, the disconnect, and a message that comes too late. *)
Lemma client_disconnect_ends_pump_witness :
  c_sent (client2server
            ([ClientText "{}" (Some (PDict ∅)) true]
               ++ ClientDisconnect :: [ClientText "late" (Some (PDict ∅)) true]))
  = ["{}"].
Proof.
  apply (proj1 (client_disconnect_ends_pump
                  [ClientText "{}" (Some (PDict ∅)) true]
                  [ClientText "late" (Some (PDict ∅)) true] eq_refl)).
Defined.

(** ** Sessions: creation, isolation and telemetry after the end *)

Lemma find_one_app (session_id : string) (db1 db2 : sessions) :
  find_one session_id (db1 ++ db2)
  = match find_one session_id db1 with
    | Some s => Some s
    | None => find_one session_id db2
    end.
Proof.
  unfold find_one. induction db1 as [| x db1 IH]; simpl; [reflexivity |].
  destruct (has_id session_id x); [reflexivity | exact IH].
Qed.

Lemma find_one_update_other (session_id other : string) (f : session -> session)
    (db : sessions) :
  (forall x, sessionId (f x) = sessionId x) ->
  other <> session_id ->
  find_one other (update_one session_id f db) = find_one other db.
Proof.
  intros Hid Hne. unfold find_one.
  induction db as [| x db IH]; simpl; [reflexivity |].
  destruct (has_id session_id x) eqn:Hx; simpl.
  - unfold has_id in *. rewrite Hid.
    apply String.eqb_eq in Hx. rewrite Hx.
    destruct (String.eqb_spec session_id other) as [Heq | _];
      [congruence | reflexivity].
  - destruct (has_id other x); [reflexivity | exact IH].
Qed.

Lemma bson_datetime_floor (instant : Z) :
  0 <= instant - bson_datetime instant < 1000.
Proof.
  unfold bson_datetime.
  pose proof (Z.div_mod instant 1000 ltac:(lia)) as Hdm.
  pose proof (Z.mod_pos_bound instant 1000 ltac:(lia)) as Hr. lia.
Qed.

Lemma bson_datetime_whole (instant : Z) :
  instant mod 1000 = 0 -> bson_datetime instant = instant.
Proof.
  unfold bson_datetime. intros Hz.
  pose proof (Z.div_mod instant 1000 ltac:(lia)) as Hdm. lia.
Qed.

(** A session created under an id that is not in use is found again with
    no end, empty logs and all aggregates zero. The document found is the
    one returned, except that it carries no [_id] and that its start is
    cut to the millisecond: it is what a creation at the start of that
    millisecond would have returned, and the one returned when the instant
    is a whole millisecond. The sessions that were there are found as
    before. *)
Theorem create_session_then_get (now : Z) (inserted_id config_token session_id : string)
    (db : sessions) :
  find_one session_id db = None ->
  let returned := fst (create_session now inserted_id config_token session_id db) in
  let db' := snd (create_session now inserted_id config_token session_id db) in
  exists stored,
    get_session session_id db' = Some stored
    /\ stored
       = created_document
           (fst (create_session (bson_datetime now) inserted_id config_token
                   session_id db))
    /\ startedAt stored = bson_datetime now
    /\ 0 <= now - startedAt stored < 1000
    /\ (now mod 1000 = 0 -> stored = created_document returned)
    /\ created_id returned = inserted_id
    /\ startedAt (created_document returned) = now
    /\ configToken stored = config_token /\ endedAt stored = None
    /\ latencyLogs stored = [] /\ networkLogs stored = []
    /\ averageLatencyMs stored = 0 /\ maxLatencyMs stored = 0
    /\ minLatencyMs stored = 0
    /\ (forall other, other <> session_id ->
          get_session other db' = get_session other db).
Proof.
  intros Hfree. cbv zeta. unfold get_session, create_session. cbn [fst snd].
  eexists. split.
  - rewrite find_one_app, Hfree. unfold find_one, has_id. simpl.
    rewrite String.eqb_refl. reflexivity.
  - cbn [created_document created_id startedAt configToken endedAt latencyLogs
           networkLogs averageLatencyMs maxLatencyMs minLatencyMs].
    split; [reflexivity |]. split; [reflexivity |].
    split; [apply bson_datetime_floor |].
    split; [intros Hwhole; rewrite (bson_datetime_whole now Hwhole); reflexivity |].
    repeat (split; [reflexivity |]).
    intros other Hne. rewrite find_one_app.
    destruct (find_one other db); [reflexivity |].
    unfold find_one, has_id. simpl.
    destruct (String.eqb_spec session_id other) as [Heq | _];
      [congruence | reflexivity].
Qed.

(** A session created 7 microseconds into a millisecond is read back with
    the start of that millisecond. *)
Lemma create_session_then_get_witness :
  exists stored,
    get_session "s-2" (snd (create_session 7 "id-2" "default" "s-2"
                              (snd (create_session 0 "id-1" "default" "s-1" []))))
    = Some stored
    /\ startedAt stored = 0
    /\ startedAt (created_document (fst (create_session 7 "id-2" "default" "s-2" [])))
       = 7.
Proof.
  destruct (create_session_then_get 7 "id-2" "default" "s-2"
              (snd (create_session 0 "id-1" "default" "s-1" [])) eq_refl)
    as (stored & Hget & _ & Hstart & _).
  exists stored. split; [exact Hget |]. split; [exact Hstart | reflexivity].
Defined.

(** Telemetry written for one session id leaves every session with
    another id as it was: a latency, a network sample and the end of a
    session are all written to the one session addressed. *)
Theorem telemetry_touches_one_session (now : Z) (session_id other : string)
    (u a : Z) (speed : spec_float) (q : string) (db : sessions) :
  other <> session_id ->
  get_session other (snd (log_latency now session_id u a db)) = get_session other db
  /\ get_session other (log_network_quality now session_id speed q db)
     = get_session other db
  /\ get_session other (end_session now session_id db) = get_session other db.
Proof.
  intros Hne. unfold get_session. split; [| split].
  - unfold log_latency.
    destruct (encode_entry now u a (a - u)) as [entry | e]; [| reflexivity].
    set (db1 := update_one session_id _ db).
    assert (H1 : find_one other db1 = find_one other db)
      by (apply find_one_update_other; [reflexivity | exact Hne]).
    destruct (find_one session_id db1) as [s |]; [| exact H1].
    destruct (map latencyMs (latencyLogs s)) as [| first others]; [exact H1 |].
    destruct (encode_stats _ _ _) as [[[average mx] mn] | e]; simpl; [| exact H1].
    rewrite find_one_update_other by (reflexivity || exact Hne). exact H1.
  - apply find_one_update_other; [reflexivity | exact Hne].
  - apply find_one_update_other; [reflexivity | exact Hne].
Qed.

Lemma telemetry_touches_one_session_witness :
  get_session "s-1"
    (snd (log_latency 3 "s-2" 1000 1450
            (snd (create_session 7 "id-2" "default" "s-2"
                    (snd (create_session 0 "id-1" "default" "s-1" []))))))
  = Some (created_document (fst (create_session 0 "id-1" "default" "s-1" []))).
Proof.
  rewrite (proj1 (telemetry_touches_one_session 3 "s-2" "s-1" 1000 1450
                    (S754_zero false) EmptyString
                    (snd (create_session 7 "id-2" "default" "s-2"
                            (snd (create_session 0 "id-1" "default" "s-1" []))))
                    ltac:(discriminate))).
  reflexivity.
Defined.

(** A network sample is appended to the network log of its session, with
    its instant cut to the millisecond, and changes nothing else of the
    session: the latency log, the three latency aggregates and the end
    stay as they are. For an id without a session nothing is stored. *)
Theorem network_sample_only_appends (now : Z) (session_id : string)
    (speed : spec_float) (q : string) (db : sessions) :
  match get_session session_id db with
  | Some s =>
      exists s',
        get_session session_id (log_network_quality now session_id speed q db) = Some s'
        /\ networkLogs s'
           = networkLogs s
             ++ [{| n_timestamp := 1000 * (now / 1000); speedMbps := speed;
                    quality := q |}]
        /\ latencyLogs s' = latencyLogs s
        /\ averageLatencyMs s' = averageLatencyMs s
        /\ maxLatencyMs s' = maxLatencyMs s
        /\ minLatencyMs s' = minLatencyMs s
        /\ endedAt s' = endedAt s
  | None => log_network_quality now session_id speed q db = db
  end.
Proof.
  unfold get_session, log_network_quality.
  destruct (find_one session_id db) as [s |] eqn:Hfind.
  - eexists. split.
    + apply find_one_update_one; [reflexivity | exact Hfind].
    + repeat split.
  - apply update_one_absent, Hfind.
Qed.

(** What a call of [log_latency] keeps of a session besides its latency
    fields. *)
Lemma log_latency_keeps_rest (now : Z) (session_id : string) (u a : Z)
    (db : sessions) (s : session) :
  find_one session_id db = Some s ->
  exists s',
    find_one session_id (snd (log_latency now session_id u a db)) = Some s'
    /\ endedAt s' = endedAt s /\ startedAt s' = startedAt s
    /\ networkLogs s' = networkLogs s
    /\ latencies_of s' = latencies_of s ++ (if encodable u a then [a - u] else []).
Proof.
  intros Hfind. destruct (encodable u a) eqn:Henc.
  2:{ rewrite (log_latency_refused now session_id u a db Henc). cbn [snd].
      exists s. rewrite app_nil_r. repeat split. exact Hfind. }
  unfold log_latency. rewrite (encode_entry_ok now u a Henc).
  set (entry := {| l_timestamp := bson_datetime now; userEndTime := u;
                   aiStartTime := a; latencyMs := a - u |}).
  pose proof (find_one_update_one session_id (push_latency entry) db s
                (fun _ => eq_refl) Hfind) as Hpushed.
  rewrite Hpushed.
  assert (Hlog : latencies_of (push_latency entry s) = latencies_of s ++ [a - u]).
  { unfold latencies_of. simpl. rewrite map_app. reflexivity. }
  fold (latencies_of (push_latency entry s)).
  destruct (latencies_of (push_latency entry s)) as [| first others] eqn:Hl.
  - exists (push_latency entry s). rewrite Hl. repeat split; assumption.
  - destruct (encode_stats _ _ _) as [[[average mx] mn] | e]; simpl.
    + eexists. split.
      * apply find_one_update_one; [reflexivity | exact Hpushed].
      * repeat split.
        transitivity (latencies_of (push_latency entry s));
          [reflexivity | rewrite Hl; exact Hlog].
    + exists (push_latency entry s). rewrite Hl. repeat split; assumption.
Qed.

(** Ending a session only stamps it, with the instant cut to the
    millisecond: a latency reported afterwards is still logged when its
    times fit in 8 bytes, and refused without a trace when they do not,
    and the session keeps the instant of its end either way. Ending a
    session that does not exist stores nothing. *)
Theorem telemetry_after_end (t_end now : Z) (session_id : string) (u a : Z)
    (db : sessions) :
  match get_session session_id db with
  | Some s =>
      exists s',
        get_session session_id
          (snd (log_latency now session_id u a (end_session t_end session_id db)))
        = Some s'
        /\ endedAt s' = Some (1000 * (t_end / 1000))
        /\ latencies_of s'
           = latencies_of s ++ (if encodable u a then [a - u] else [])
  | None => end_session t_end session_id db = db
  end.
Proof.
  unfold get_session.
  destruct (find_one session_id db) as [s |] eqn:Hfind.
  - assert (Hended : find_one session_id (end_session t_end session_id db)
                     = Some (set_ended (bson_datetime t_end) s))
      by (apply find_one_update_one; [reflexivity | exact Hfind]).
    destruct (log_latency_keeps_rest now session_id u a _ _ Hended)
      as (s' & Hfind' & Hend & _ & _ & Hl).
    exists s'. split; [exact Hfind' | split; [exact Hend | exact Hl]].
  - apply update_one_absent, Hfind.
Qed.

(** ** The speed test *)

Lemma speed_test_report_skips (now : Z) (speed : spec_float) (q : string)
    (agent : option string) (results : list speed_result) :
  (length results <= 1000)%nat ->
  speed_test_report now speed q agent results
  = skipn (length results + 1 - 1000)
      (results ++ [entry_of (now, speed, q, agent)]).
Proof.
  intros Hlen. unfold speed_test_report, entry_of. rewrite length_app. cbn [length].
  destruct (Nat.ltb_spec 1000 (length results + 1)) as [Hfull | Hroom].
  - replace (length results + 1 - 1000)%nat with 1%nat by lia.
    destruct results; reflexivity.
  - replace (length results + 1 - 1000)%nat with 0%nat by lia. reflexivity.
Qed.

Lemma speed_test_reports_window (reports : list report) (results : list speed_result) :
  (length results <= 1000)%nat ->
  speed_test_reports reports results
  = skipn (length results + length reports - 1000) (results ++ map entry_of reports).
Proof.
  revert results. induction reports as [| [[[now speed] q] agent] rest IH];
    intros results Hlen.
  - simpl. rewrite app_nil_r, Nat.add_0_r.
    replace (length results - 1000)%nat with 0%nat by lia. reflexivity.
  - unfold speed_test_reports in *. cbn [fold_left map].
    rewrite speed_test_report_skips by exact Hlen.
    set (e := entry_of (now, speed, q, agent)).
    set (d := (length results + 1 - 1000)%nat).
    assert (Hd : (d <= 1)%nat) by (unfold d; lia).
    rewrite IH by (rewrite length_skipn, length_app; simpl; lia).
    rewrite length_skipn, length_app. cbn [length].
    replace (skipn d (results ++ [e]) ++ map entry_of rest)
      with (skipn d ((results ++ [e]) ++ map entry_of rest)).
    2:{ rewrite skipn_app.
        replace (d - length (results ++ [e]))%nat with 0%nat
          by (rewrite length_app; simpl; lia).
        reflexivity. }
    rewrite skipn_skipn, <- app_assoc. cbn [app].
    f_equal. unfold d. lia.
Qed.

(** The server keeps the latest 1000 speed test reports, in the order in
    which they came: after any number of reports the store is the tail
    of all reports that is at most 1000 long. *)
Theorem speed_test_keeps_latest (reports : list report) :
  speed_test_reports reports []
  = skipn (length reports - 1000) (map entry_of reports)
  /\ (length (speed_test_reports reports []) <= 1000)%nat.
Proof.
  rewrite speed_test_reports_window by (simpl; lia). simpl. split; [reflexivity |].
  rewrite length_skipn, length_map. lia.
Qed.

Lemma zeros_length (n : nat) : String.length (zeros n) = n.
Proof. induction n as [| n IH]; simpl; [reflexivity | rewrite IH; reflexivity]. Qed.

Section SpeedTestFacts.

Variable urandom : nat -> string.
Hypothesis urandom_length : forall n, String.length (urandom n) = n.

(** The download of the speed test is as long as asked for, but never
    longer than 1000000 bytes, and its [Content-Length] is its length; a
    negative size is an error, not an empty download. *)
Theorem speed_test_download_bounded (bytes : Z) :
  (0 <= bytes ->
   exists body,
     speed_test_download urandom bytes
     = Ok (body, str_of_int (Z.of_nat (String.length body)))
     /\ Z.of_nat (String.length body) = Z.min bytes 1000000
     /\ Z.of_nat (String.length body) <= 1000000)
  /\ (bytes < 0 -> speed_test_download urandom bytes = Raise OtherError).
Proof.
  unfold speed_test_download. split.
  - intros Hpos.
    destruct (Z.ltb_spec (Z.min bytes 1000000) 0) as [Hneg | _]; [lia |].
    exists (urandom (Z.to_nat (Z.min bytes 1000000))).
    rewrite urandom_length, Z2Nat.id by lia.
    split; [reflexivity | split; [reflexivity | lia]].
  - intros Hneg.
    destruct (Z.ltb_spec (Z.min bytes 1000000) 0) as [_ | Hpos]; [reflexivity | lia].
Qed.

End SpeedTestFacts.

Lemma speed_test_download_bounded_witness :
  (exists body,
     speed_test_download zeros 5000000 = Ok (body, "1000000")
     /\ Z.of_nat (String.length body) = 1000000)
  /\ speed_test_download zeros (-1) = Raise OtherError.
Proof.
  destruct (speed_test_download_bounded zeros zeros_length 5000000) as [Hpos _].
  destruct (Hpos ltac:(lia)) as (body & Hrun & Hlen & _).
  split.
  - exists body. split; [rewrite Hrun, Hlen; reflexivity | exact Hlen].
  - apply (proj2 (speed_test_download_bounded zeros zeros_length (-1))). lia.
Defined.

(** ** Text handling of the analysis endpoints *)

Lemma append_char (c : ascii) (s t : string) :
  String c s +:+ t = String c (s +:+ t).
Proof. reflexivity. Qed.

Lemma append_snoc (cur : string) (c : ascii) (s : string) :
  (cur +:+ String c EmptyString) +:+ s = cur +:+ String c s.
Proof.
  induction cur as [| d cur IH]; [reflexivity |].
  rewrite !append_char, IH. reflexivity.
Qed.

Lemma append_assoc3 (a b c : string) : (a +:+ b) +:+ c = a +:+ (b +:+ c).
Proof.
  induction a as [| d a IH]; [reflexivity |].
  rewrite !append_char, IH. reflexivity.
Qed.

(** The first piece of a split begins with what was read so far. *)
Lemma split_from_head (sep s : string) (skip : nat) (cur : string) :
  exists w rest, split_from sep s skip cur = (cur +:+ w) :: rest.
Proof.
  revert skip cur. induction s as [| c s IH]; intros skip cur.
  - exists EmptyString, []. cbn [split_from]. rewrite append_empty_r. reflexivity.
  - cbn [split_from]. destruct skip as [| k].
    + destruct (String.prefix sep (String c s)).
      * exists EmptyString. eexists. rewrite append_empty_r. reflexivity.
      * destruct (IH 0%nat (cur +:+ String c EmptyString)) as (w & rest & ->).
        exists (String c w), rest. rewrite append_snoc. reflexivity.
    + apply IH.
Qed.

Lemma split_from_skip (sep a t : string) (cur : string) :
  split_from sep (a +:+ t) (String.length a) cur = split_from sep t 0 cur.
Proof.
  induction a as [| c a IH]; [reflexivity |].
  rewrite append_char. cbn [split_from String.length]. exact IH.
Qed.

Lemma split_from_sep (c : ascii) (sep t cur : string) :
  split_from (String c sep) (String c sep +:+ t) 0 cur
  = cur :: split_from (String c sep) t 0 EmptyString.
Proof.
  pose proof (prefix_app (String c sep) t) as Hp.
  rewrite append_char in *. cbn [split_from]. rewrite Hp.
  cbn [String.length]. rewrite Nat.sub_1_r. cbn [Nat.pred].
  rewrite split_from_skip. reflexivity.
Qed.

Lemma split_from_lacks (c : ascii) (sep pre t cur : string) :
  lacks c pre = true ->
  split_from (String c sep) (pre +:+ t) 0 cur
  = split_from (String c sep) t 0 (cur +:+ pre).
Proof.
  revert cur. induction pre as [| d pre IH]; intros cur H.
  - rewrite append_empty_r. reflexivity.
  - cbn [lacks] in H. apply andb_true_iff in H as [Hd Hrest].
    rewrite append_char. cbn [split_from String.prefix].
    destruct (Ascii.ascii_dec c d) as [-> | Hne].
    + rewrite Ascii.eqb_refl in Hd. discriminate.
    + rewrite IH by exact Hrest. rewrite append_snoc. reflexivity.
Qed.

Lemma split_from_two (c : ascii) (sep s cur : string) :
  contains (String c sep) s = true ->
  exists x y rest, split_from (String c sep) s 0 cur = x :: y :: rest.
Proof.
  revert cur. induction s as [| d s IH]; intros cur H.
  - discriminate.
  - cbn [contains] in H. cbn [split_from].
    destruct (String.prefix (String c sep) (String d s)) eqn:Hp.
    + destruct (split_from_head (String c sep) s
                  (String.length (String c sep) - 1) EmptyString) as (w & rest & ->).
      eexists _, _, _. reflexivity.
    + apply IH. exact H.
Qed.

Lemma prefix_app_inv (a b s : string) :
  String.prefix (a +:+ b) s = true -> String.prefix a s = true.
Proof.
  revert s. induction a as [| c a IH]; intros s H.
  - destruct s; reflexivity.
  - rewrite append_char in H. destruct s as [| d s]; [discriminate |].
    cbn [String.prefix] in *. destruct (Ascii.ascii_dec c d); [| discriminate].
    apply IH. exact H.
Qed.

Lemma contains_shorter (a b s : string) :
  contains (a +:+ b) s = true -> contains a s = true.
Proof.
  induction s as [| d s IH]; cbn [contains]; intros H.
  - rewrite orb_false_r in *. apply (prefix_app_inv a b). exact H.
  - apply orb_true_iff in H as [H | H].
    + rewrite (prefix_app_inv a b _ H). reflexivity.
    + rewrite (IH H). apply orb_true_r.
Qed.

Lemma split_from_first (sep s cur : string) :
  exists x rest, split_from sep s 0 cur = x :: rest.
Proof.
  destruct (split_from_head sep s 0 cur) as (w & rest & ->). eauto.
Qed.

Lemma unwrap_inner (c : ascii) (sep text : string) :
  contains (String c sep) text = true ->
  exists s, (inner ← py_index (str_split (String c sep) text) 1;
             py_index (str_split fence inner) 0) = Ok s.
Proof.
  intros H. unfold str_split.
  destruct (split_from_two c sep text EmptyString H) as (x & y & rest & ->).
  cbn [py_index nth_error]. 
  destruct (split_from_first fence y EmptyString) as (z & rest' & Hz).
  exists z. cbn. unfold str_split. rewrite Hz. reflexivity.
Qed.

(** Taking the answer out of its markdown fence never raises: whenever an
    opening fence is found, the pieces indexed afterwards exist. An answer
    without any fence is passed on unchanged. *)
Theorem unwrap_markdown_never_fails (response_text : string) :
  (exists s, unwrap_markdown response_text = Ok s)
  /\ (contains fence response_text = false ->
      unwrap_markdown response_text = Ok response_text).
Proof.
  unfold unwrap_markdown. split.
  - destruct (contains fence_json response_text) eqn:Hj.
    + apply unwrap_inner. exact Hj.
    + destruct (contains fence response_text) eqn:Hf.
      * apply unwrap_inner. exact Hf.
      * eexists. reflexivity.
  - intros Hf.
    destruct (contains fence_json response_text) eqn:Hj.
    + rewrite (contains_shorter fence "json" response_text Hj) in Hf. discriminate.
    + rewrite Hf. reflexivity.
Qed.

Lemma split_plain (body : string) :
  lacks backtick body = true -> str_split fence body = [body].
Proof.
  intros H. unfold str_split, fence.
  rewrite <- (append_empty_r body) at 1.
  rewrite (split_from_lacks backtick _ body EmptyString EmptyString H).
  reflexivity.
Qed.

Lemma split_closed (body w : string) :
  lacks backtick body = true ->
  exists rest, str_split fence (body +:+ fence +:+ w) = body :: rest.
Proof.
  intros H. unfold str_split, fence.
  rewrite (split_from_lacks backtick _ body _ EmptyString H).
  rewrite split_from_sep. eexists. reflexivity.
Qed.

(** After the body, the search for the opening fence meets the closing
    one: it stops there when [json] follows, and passes it otherwise. *)
Lemma closing_fence (post cur : string) :
  String.prefix "`" post = false ->
  exists x rest,
    split_from fence_json (fence +:+ post) 0 cur = x :: rest
    /\ (x = cur \/ exists w, x = cur +:+ fence +:+ w).
Proof.
  intros Hpost. unfold fence, fence_json.
  rewrite !append_char. change (EmptyString +:+ post) with post.
  cbn [split_from String.prefix].
  destruct (Ascii.ascii_dec "`" "`") as [_ | Hne]; [| contradiction].
  destruct (String.prefix "json" post) eqn:Hjson.
  - eexists _, _. split; [reflexivity | left; reflexivity].
  - assert (Hno : forall t, String.prefix (String "`" t) post = false).
    { intros t. destruct post as [| d post]; [reflexivity |].
      cbn [String.prefix] in *.
      destruct (Ascii.ascii_dec "`" d); [| reflexivity].
      destruct post; discriminate. }
    rewrite !Hno.
    destruct (split_from_head fence_json post 0
                (((cur +:+ "`") +:+ "`") +:+ "`")) as (w & rest & Hw).
    unfold fence_json in Hw. rewrite Hw.
    eexists _, _. split; [reflexivity | right]. exists w.
    rewrite !append_snoc. reflexivity.
Qed.

Lemma split_opening (c : ascii) (sep pre rest : string) :
  lacks c pre = true ->
  str_split (String c sep) (pre +:+ String c sep +:+ rest)
  = pre :: split_from (String c sep) rest 0 EmptyString.
Proof.
  intros H. unfold str_split.
  rewrite (split_from_lacks c sep pre _ EmptyString H), split_from_sep.
  reflexivity.
Qed.

(** An answer that holds one fenced block, with no backtick before the
    block or inside it, yields exactly the text between the fences: for a
    [json] fence when what follows the closing fence does not begin with a
    backtick, and for a plain fence when the answer holds no [json] fence. *)
Theorem unwrap_markdown_fenced_block (pre body post : string) :
  lacks backtick pre = true ->
  lacks backtick body = true ->
  (String.prefix "`" post = false ->
   unwrap_markdown (pre +:+ fence_json +:+ body +:+ fence +:+ post) = Ok body)
  /\ (contains fence_json (pre +:+ fence +:+ body +:+ fence +:+ post) = false ->
      unwrap_markdown (pre +:+ fence +:+ body +:+ fence +:+ post) = Ok body).
Proof.
  intros Hpre Hbody.
  pose proof (split_plain body Hbody) as Hplain. split.
  - intros Hpost. unfold unwrap_markdown.
    rewrite contains_middle.
    destruct (closing_fence post (EmptyString +:+ body) Hpost)
      as (x & rest & Hsplit & Hx).
    change (EmptyString +:+ body) with body in Hx.
    unfold fence_json, fence in *.
    rewrite (split_opening backtick _ pre _ Hpre).
    rewrite (split_from_lacks backtick _ body _ EmptyString Hbody). unfold backtick. rewrite Hsplit.
    cbn [py_index nth_error mbind result_bind].
    destruct Hx as [-> | [w ->]].
    + rewrite Hplain. reflexivity.
    + destruct (split_closed body w Hbody) as [rest' Hrest'].
      unfold fence in Hrest'. rewrite Hrest'. reflexivity.
  - intros Hnone. unfold unwrap_markdown. rewrite Hnone.
    rewrite contains_middle.
    destruct (split_closed body post Hbody) as [rest Hrest].
    unfold str_split in Hrest.
    unfold fence in *.
    rewrite (split_opening backtick _ pre _ Hpre). unfold backtick. rewrite Hrest.
    cbn [py_index nth_error mbind result_bind].
    rewrite Hplain. reflexivity.
Qed.

Lemma unwrap_markdown_never_fails_witness :
  unwrap_markdown "{}" = Ok "{}" /\ exists s, unwrap_markdown "```" = Ok s.
Proof.
  split.
  - apply (unwrap_markdown_never_fails "{}"). reflexivity.
  - apply (unwrap_markdown_never_fails "```").
Defined.

Lemma unwrap_markdown_fenced_block_witness :
  unwrap_markdown ("Scores: " +:+ fence_json +:+ "{}" +:+ fence +:+ " done") = Ok "{}"
  /\ unwrap_markdown ("Scores: " +:+ fence +:+ "{}" +:+ fence +:+ " done") = Ok "{}".
Proof.
  destruct (unwrap_markdown_fenced_block "Scores: " "{}" " done" eq_refl eq_refl)
    as [Hjson Hplain].
  split; [apply Hjson | apply Hplain]; reflexivity.
Defined.

(** ** The user's lines of a transcript *)

Lemma lacks_snoc (c d : ascii) (s : string) :
  lacks c s = true -> c <> d -> lacks c (s +:+ String d EmptyString) = true.
Proof.
  intros Hs Hne. induction s as [| e s IH].
  - change (EmptyString +:+ String d EmptyString) with (String d EmptyString).
    cbn [lacks]. apply Ascii.eqb_neq in Hne. rewrite Hne. reflexivity.
  - rewrite append_char. cbn [lacks] in *.
    apply andb_true_iff in Hs as [He Hs]. rewrite He, (IH Hs). reflexivity.
Qed.

Lemma lines_lack_newline (s cur : string) :
  lacks newline cur = true ->
  Forall (fun line => lacks newline line = true) (split_from nl s 0 cur).
Proof.
  revert cur. induction s as [| d s IH]; intros cur Hcur.
  - cbn [split_from]. constructor; [exact Hcur | constructor].
  - unfold nl. cbn [split_from String.prefix String.length Nat.sub].
    fold nl. fold newline.
    destruct (Ascii.ascii_dec newline d) as [<- | Hne].
    + replace (String.prefix EmptyString s) with true by (destruct s; reflexivity).
      constructor; [exact Hcur |]. apply IH. reflexivity.
    + apply IH. apply lacks_snoc; assumption.
Qed.

Lemma split_join (x : string) (l : list string) (cur : string) :
  Forall (fun line => lacks newline line = true) (x :: l) ->
  split_from nl (join nl (x :: l)) 0 cur = (cur +:+ x) :: l.
Proof.
  revert x cur. induction l as [| y l IH]; intros x cur Hall.
  - inversion Hall as [| ? ? Hx _]; subst. cbn [join].
    rewrite <- (append_empty_r x) at 1. unfold nl.
    rewrite (split_from_lacks newline _ x EmptyString cur Hx). reflexivity.
  - inversion Hall as [| ? ? Hx Hrest]; subst.
    change (join nl (x :: y :: l)) with (x +:+ nl +:+ join nl (y :: l)).
    unfold nl at 1 2.
    rewrite (split_from_lacks newline _ x _ cur Hx), split_from_sep.
    fold nl. rewrite (IH y EmptyString Hrest). reflexivity.
Qed.

Lemma filter_twice {A : Type} (f : A -> bool) (l : list A) :
  List.filter f (List.filter f l) = List.filter f l.
Proof.
  induction l as [| a l IH]; [reflexivity |].
  cbn [List.filter]. destruct (f a) eqn:Hf; [| exact IH].
  cbn [List.filter]. rewrite Hf, IH. reflexivity.
Qed.

Lemma filter_keeps_forall {A : Type} (P : A -> Prop) (f : A -> bool) (l : list A) :
  Forall P l -> Forall P (List.filter f l).
Proof.
  induction 1 as [| a l Ha _ IH]; [constructor |].
  cbn [List.filter]. destruct (f a); [constructor |]; assumption.
Qed.

Lemma filter_all_pass {A : Type} (f : A -> bool) (l : list A) :
  Forall (fun a => f a = true) (List.filter f l).
Proof.
  induction l as [| a l IH]; [constructor |].
  cbn [List.filter]. destruct (f a) eqn:Hf; [constructor |]; assumption.
Qed.

Lemma user_lines_again (transcript_text : string) :
  user_transcript transcript_text = EmptyString
  \/ str_split nl (user_transcript transcript_text)
     = List.filter is_user_line (str_split nl transcript_text).
Proof.
  unfold user_transcript.
  pose proof (filter_keeps_forall _ is_user_line _
                (lines_lack_newline transcript_text EmptyString eq_refl)) as Hall.
  fold (str_split nl transcript_text) in Hall.
  destruct (List.filter is_user_line (str_split nl transcript_text)) as [| x l].
  - left. reflexivity.
  - right. unfold str_split at 1. rewrite (split_join x l EmptyString Hall).
    reflexivity.
Qed.

(** Extracting the user's lines is a projection: applied to its own
    result it changes nothing, and a result that is not empty consists
    only of lines that name the user. *)
Theorem user_transcript_idempotent (transcript_text : string) :
  user_transcript (user_transcript transcript_text) = user_transcript transcript_text
  /\ (user_transcript transcript_text = EmptyString
      \/ Forall (fun line => is_user_line line = true)
           (str_split nl (user_transcript transcript_text))).
Proof.
  destruct (user_lines_again transcript_text) as [Hempty | Hlines].
  - split; [| left; exact Hempty]. rewrite Hempty. reflexivity.
  - split.
    + unfold user_transcript at 1. rewrite Hlines, filter_twice. reflexivity.
    + right. rewrite Hlines. apply filter_all_pass.
Qed.

(** ** The vernacular scenario *)

Lemma lacks_app (c : ascii) (a b : string) :
  lacks c (a +:+ b) = lacks c a && lacks c b.
Proof.
  induction a as [| d a IH]; [reflexivity |].
  rewrite append_char. cbn [lacks]. rewrite IH, andb_assoc. reflexivity.
Qed.

Lemma prefix_lacks (c : ascii) (w t : string) :
  String.prefix w t = true -> lacks c t = true -> lacks c w = true.
Proof.
  revert t. induction w as [| d w IH]; intros t Hp Ht; [reflexivity |].
  destruct t as [| e t]; [discriminate |].
  cbn [String.prefix] in Hp. destruct (Ascii.ascii_dec d e) as [<- | _];
    [| discriminate].
  cbn [lacks] in *. apply andb_true_iff in Ht as [Hd Ht].
  rewrite Hd, (IH t Hp Ht). reflexivity.
Qed.

(** A text without a character holds no text with it. *)
Lemma contains_lacks (c : ascii) (w t : string) :
  lacks c t = true -> lacks c w = false -> contains w t = false.
Proof.
  intros Ht Hw. destruct (contains w t) eqn:Hin; [| reflexivity].
  exfalso. revert Ht Hin. induction t as [| d t IH]; cbn [contains lacks]; intros Ht Hin.
  - rewrite orb_false_r in Hin.
    rewrite (prefix_lacks c w EmptyString Hin eq_refl) in Hw. discriminate.
  - apply andb_true_iff in Ht as [Hd Ht].
    apply orb_true_iff in Hin as [Hp | Hin]; [| exact (IH Ht Hin)].
    assert (Hall : lacks c (String d t) = true) by (cbn [lacks]; rewrite Hd, Ht; reflexivity).
    rewrite (prefix_lacks c w _ Hp Hall) in Hw. discriminate.
Qed.

Lemma exp_instruction_lacks (experience : pyval) :
  lacks asterisk (exp_instruction_of experience) = true.
Proof.
  unfold exp_instruction_of.
  repeat match goal with
         | |- context [if ?b then _ else _] => destruct b
         end; reflexivity.
Qed.

Lemma candidate_line_lacks (repr_other : pyval -> string) (name : pyval) (line : string) :
  candidate_line_of name = Ok line ->
  lacks asterisk (py_str repr_other name) = true ->
  lacks asterisk line = true.
Proof.
  unfold candidate_line_of, str_concat3. intros Hline Hname.
  destruct (truthy name); [| injection Hline as <-; reflexivity].
  destruct name; try discriminate. injection Hline as <-.
  cbn [py_str] in Hname. rewrite !lacks_app, Hname. reflexivity.
Qed.

Section VernacularFacts.

Variable repr_other : pyval -> string.

(** A generated text whose values have no asterisk has none at all,
    unless the proctoring section brings one. *)
Lemma generated_lacks_asterisk (config ai : gmap string pyval) (proctoring : pyval)
    (t : string) :
  generate_dynamic_prompt repr_other config (PDict ai) proctoring = Ok t ->
  Forall (fun text => lacks asterisk text = true) (interpolated repr_other config ai) ->
  (forall p, proctoring = PDict p ->
             lacks asterisk (proctoring_section_of (proctoring_rules_of p)) = true) ->
  lacks asterisk t = true.
Proof.
  intros Hrun Hvalues Hsection.
  apply generate_dynamic_prompt_shape in Hrun
    as (a & p & line & [= <-] & Hp & Hline & ->).
  unfold interpolated in Hvalues. cbn [map] in Hvalues.
  repeat match goal with
         | H : Forall _ (_ :: _) |- _ =>
             let Hx := fresh "Hvalue" in apply Forall_cons_iff in H as [Hx H]
         end.
  pose proof (candidate_line_lacks repr_other _ _ Hline ltac:(assumption)) as Hcandidate.
  pose proof (Hsection p Hp) as Hrules.
  pose proof (exp_instruction_lacks (dict_get config "yearsOfExperience" (PStr "1-3")))
    as Hexp.
  assert (Hlang : lacks asterisk
                    (lang_instruction_of (dict_get config "language" (PStr "indian-english")))
                  = true).
  { unfold lang_instruction_of. destruct (py_eq_str _ _); vm_compute; reflexivity. }
  unfold assemble, business_context, difficulty_guidance, proctoring_heading,
    silence_handling, closing_structure.
  rewrite !lacks_app.
  repeat match goal with
         | H : lacks asterisk _ = true |- _ => rewrite H; clear H
         end.
  reflexivity.
Qed.

(** C7, as the code has it: the vernacular header belongs to the
    language value [casual-hindi]. With that value, proctoring switched
    off, no override in force and values that print without an asterisk,
    the instruction starts with the vernacular header, contains the
    sentence [proctoring_disabled], and contains none of the four
    detector rules. *)
Theorem casual_hindi_without_proctoring (config p ai : gmap string pyval) :
  config !! "language" = Some (PStr "casual-hindi") ->
  config !! "proctoring" = Some (PDict p) ->
  p !! "enabled" = Some (PBool false) ->
  truthy (dict_get config "systemPrompt" PNone) = false ->
  dict_get config "aiSettings" (PDict ∅) = PDict ai ->
  well_typed config (PDict ai) ->
  Forall (fun text => lacks asterisk text = true) (interpolated repr_other config ai) ->
  exists t,
    system_prompt_of repr_other config = Ok (PStr t)
    /\ String.prefix lang_casual_hindi t = true
    /\ contains proctoring_disabled t = true
    /\ Forall (fun rule => contains rule t = false)
         [rule_multiple_people; rule_phone; rule_looking_away; rule_tab_switch].
Proof.
  intros Hlang Hproc Hen Hsys Hai Hwt Hvalues.
  destruct (generate_dynamic_prompt_total repr_other config _ p Hwt)
    as (b & s & c & Hgen).
  pose proof (rules_of_disabled p Hen) as Hrules.
  assert (Hclean : lacks asterisk
                     (assemble
                        (lang_instruction_of
                           (dict_get config "language" (PStr "indian-english")))
                        b
                        (difficulty_guidance
                           (exp_instruction_of
                              (dict_get config "yearsOfExperience" (PStr "1-3"))))
                        (proctoring_section_of (proctoring_rules_of p)) s c) = true).
  { apply (generated_lacks_asterisk config ai (PDict p) _ Hgen Hvalues).
    intros p' [= <-]. rewrite Hrules. reflexivity. }
  rewrite Hrules in Hgen, Hclean.
  unfold dict_get in Hgen, Hclean. rewrite Hlang in Hgen, Hclean.
  change (lang_instruction_of (default (PStr "indian-english") (Some (PStr "casual-hindi"))))
    with lang_casual_hindi in Hgen, Hclean.
  change (proctoring_section_of EmptyString) with proctoring_disabled in Hgen, Hclean.
  eexists. split; [| split; [| split]].
  - unfold system_prompt_of. rewrite Hsys, Hai. unfold dict_get at 1. rewrite Hproc.
    change (default (PDict ∅) (Some (PDict p))) with (PDict p).
    unfold dict_get. rewrite Hgen. reflexivity.
  - unfold assemble. apply prefix_app.
  - unfold assemble. do 4 apply contains_app_r. apply contains_here.
  - repeat (constructor; [apply (contains_lacks asterisk); [exact Hclean | reflexivity] |]).
    constructor.
Qed.

End VernacularFacts.

(** The scenario of the specification with the language value the code
    knows. *)
Lemma casual_hindi_without_proctoring_witness :
  exists t,
    system_prompt_of (fun _ => EmptyString) (scenario_config "casual-hindi") = Ok (PStr t)
    /\ String.prefix lang_casual_hindi t = true
    /\ contains proctoring_disabled t = true
    /\ Forall (fun rule => contains rule t = false)
         [rule_multiple_people; rule_phone; rule_looking_away; rule_tab_switch].
Proof.
  apply (casual_hindi_without_proctoring (fun _ => EmptyString)
           (scenario_config "casual-hindi") proctoring_off ∅).
  - vm_compute. reflexivity.
  - vm_compute. reflexivity.
  - vm_compute. reflexivity.
  - vm_compute. reflexivity.
  - vm_compute. reflexivity.
  - split; [exists ∅; reflexivity | left; vm_compute; reflexivity].
  - vm_compute. repeat constructor.
Defined.

(** The values matter: a company named like a detector rule brings the
    text of that rule into an instruction built with proctoring switched
    off. *)
Example rule_text_as_company_name :
  exists t,
    system_prompt_of (fun _ => EmptyString) rule_as_company = Ok (PStr t)
    /\ contains proctoring_disabled t = true
    /\ contains rule_phone t = true.
Proof. eexists. vm_compute. repeat split. Qed.
